(** * Token endpoint of the mcp2 OAuth2 authorization server

    A shallow embedding of [src/server/oauth/token.ts] (the token
    endpoint, the introspection endpoint and the Privy token exchange
    endpoint) together with the PKCE helper of
    [tests/e2e/auth/helpers/crypto.ts], and the properties of the
    authorization and token issuance engine that are stated about them;
    then the code around them: the MCP request handler, the Privy
    middleware of [src/server/middleware/privy.ts], the configuration,
    and the test helpers of [crypto.ts], [fake-privy.ts] and
    [flow-helpers.ts], with the properties that their code shows.

    Conventions.
    - A JavaScript string is a [string] holding its UTF-8 bytes; a body
      field of a request is an [option string]: absent or a string.
    - The [Date.now()] readings of a request and the value generated
      for its new refresh token are inputs of the request (record
      [Env]).
    - The three [Map]s of the credential store are [gmap]s keyed by
      strings.
    - The handlers contain no [await], so on the single-threaded event
      loop each request runs to completion before the next one starts:
      a run of the server is a sequence of requests. *)

From Stdlib Require Import ZArith String Ascii List Lia.
From stdpp Require Import base option list gmap strings.

Local Open Scope string_scope.
Local Open Scope list_scope.
Local Open Scope Z_scope.

(** ** SHA-256 (FIPS 180-4), as computed by [createHash('sha256')] *)

Module Sha256.

(** A word is an integer in [0, 2^32). *)
Definition w32 (x : Z) : Z := x mod 2 ^ 32.
Definition add32 (x y : Z) : Z := w32 (x + y).
Definition not32 (x : Z) : Z := Z.lxor x 4294967295.
Definition rotr (n x : Z) : Z :=
  Z.lor (Z.shiftr x n) (w32 (Z.shiftl x (32 - n))).
Definition shr (n x : Z) : Z := Z.shiftr x n.

Definition Ch (x y z : Z) : Z :=
  Z.lxor (Z.land x y) (Z.land (not32 x) z).
Definition Maj (x y z : Z) : Z :=
  Z.lxor (Z.lxor (Z.land x y) (Z.land x z)) (Z.land y z).
Definition Sigma0 (x : Z) : Z :=
  Z.lxor (Z.lxor (rotr 2 x) (rotr 13 x)) (rotr 22 x).
Definition Sigma1 (x : Z) : Z :=
  Z.lxor (Z.lxor (rotr 6 x) (rotr 11 x)) (rotr 25 x).
Definition sigma0 (x : Z) : Z :=
  Z.lxor (Z.lxor (rotr 7 x) (rotr 18 x)) (shr 3 x).
Definition sigma1 (x : Z) : Z :=
  Z.lxor (Z.lxor (rotr 17 x) (rotr 19 x)) (shr 10 x).

(** The constants are defined as the standard defines them, from the
    first sixty-four primes. *)
Definition is_prime (p : Z) : bool :=
  (2 <=? p) && forallb (fun d => negb (p mod d =? 0)) (seqZ 2 (p - 2)).

Definition primes : list Z := List.filter is_prime (seqZ 2 310).

(** The integer cube root, bit by bit from the top. *)
Definition icbrt (n : Z) : Z :=
  fold_left (fun r k => let c := r + 2 ^ k in
                        if c * c * c <=? n then c else r)
    (rev (seqZ 0 44)) 0.

(** K: the first 32 bits of the fractional parts of the cube roots of
    the first 64 primes. *)
Definition K : list Z := map (fun p => w32 (icbrt (p * 2 ^ 96))) primes.

(** The hash value: eight words. *)
Record state := State { ha : Z; hb : Z; hc : Z; hd : Z;
                        he : Z; hf : Z; hg : Z; hh : Z }.

(** The initial hash value: the first 32 bits of the fractional parts of
    the square roots of the first 8 primes. *)
Definition frac_sqrt (p : Z) : Z := w32 (Z.sqrt (p * 2 ^ 64)).

Definition H0 : state :=
  State (frac_sqrt 2) (frac_sqrt 3) (frac_sqrt 5) (frac_sqrt 7)
        (frac_sqrt 11) (frac_sqrt 13) (frac_sqrt 17) (frac_sqrt 19).

(** The [n] low bytes of [x], most significant first. *)
Definition be_bytes (n : nat) (x : Z) : list Z :=
  map (fun i => (x / 2 ^ (8 * Z.of_nat i)) mod 256) (rev (seq 0 n)).

(** Padding: the byte 0x80, zero bytes up to 56 modulo 64, and the
    length of the message in bits as a 64-bit big-endian integer. *)
Definition pad (msg : list Z) : list Z :=
  let len := Z.of_nat (length msg) in
  let zeros := Z.to_nat ((55 - len) mod 64) in
  msg ++ 128 :: repeat 0 zeros ++ be_bytes 8 (8 * len).

(** Big-endian words of a byte sequence, four bytes at a time. *)
Fixpoint be_words (bs : list Z) : list Z :=
  match bs with
  | b0 :: b1 :: b2 :: b3 :: rest =>
      (((b0 * 256 + b1) * 256 + b2) * 256 + b3) :: be_words rest
  | _ => []
  end.

(** Blocks of sixteen words. *)
Fixpoint blocks (fuel : nat) (ws : list Z) : list (list Z) :=
  match fuel, ws with
  | S fuel, _ :: _ => firstn 16 ws :: blocks fuel (skipn 16 ws)
  | _, _ => []
  end.

(** Message schedule: [w] holds the sixteen most recent words, oldest
    first; each step appends W[t] and forgets W[t-16]. *)
Definition next_w (w : list Z) : Z :=
  add32 (add32 (sigma1 (nth 14 w 0)) (nth 9 w 0))
        (add32 (sigma0 (nth 1 w 0)) (nth 0 w 0)).

Fixpoint schedule (n : nat) (w : list Z) : list Z :=
  match n with
  | O => []
  | S n => let x := next_w w in x :: schedule n (tl w ++ [x])
  end.

Definition round (s : state) (kw : Z * Z) : state :=
  let '(k, w) := kw in
  let t1 := add32 (add32 (add32 (hh s) (Sigma1 (he s)))
                         (add32 (Ch (he s) (hf s) (hg s)) k)) w in
  let t2 := add32 (Sigma0 (ha s)) (Maj (ha s) (hb s) (hc s)) in
  State (add32 t1 t2) (ha s) (hb s) (hc s)
        (add32 (hd s) t1) (he s) (hf s) (hg s).

Definition compress (h : state) (block : list Z) : state :=
  let w := block ++ schedule 48 block in
  let s := fold_left round (combine K w) h in
  State (add32 (ha h) (ha s)) (add32 (hb h) (hb s))
        (add32 (hc h) (hc s)) (add32 (hd h) (hd s))
        (add32 (he h) (he s)) (add32 (hf h) (hf s))
        (add32 (hg h) (hg s)) (add32 (hh h) (hh s)).

Definition digest_bytes (h : state) : list Z :=
  flat_map (be_bytes 4)
    [ha h; hb h; hc h; hd h; he h; hf h; hg h; hh h].

Definition bytes_of_string (s : string) : list Z :=
  map (fun c => Z.of_N (N_of_ascii c)) (list_ascii_of_string s).

(** [createHash('sha256').update(s).digest()]: the 32 bytes. *)
Definition sha256 (s : string) : list Z :=
  let ws := be_words (pad (bytes_of_string s)) in
  digest_bytes (fold_left compress (blocks (length ws) ws) H0).

(** [digest('hex')], for reading digests. *)
Definition hex_digit (d : Z) : string :=
  String.substring (Z.to_nat d) 1 "0123456789abcdef".

Definition hex (bs : list Z) : string :=
  String.concat ""
    (map (fun b => String.append (hex_digit (b / 16)) (hex_digit (b mod 16)))
       bs).

End Sha256.

(** ** Base64 and the test helper's [base64UrlEncode] *)

Module Base64.

Definition alphabet : string :=
  "ABCDEFGHIJKLMNOPQRSTUVWXYZabcdefghijklmnopqrstuvwxyz0123456789+/".

(** The character of a six-bit value. *)
Definition char (i : Z) : ascii :=
  match String.get (Z.to_nat i) alphabet with
  | Some c => c
  | None => "="%char
  end.

(** [Buffer.from(bytes).toString('base64')]: three bytes give four
    characters; a last group of one or two bytes is padded with [=]. *)
Fixpoint encode (bs : list Z) : string :=
  match bs with
  | [] => ""
  | [b0] =>
      String (char (b0 / 4)) (String (char (b0 mod 4 * 16)) "==")
  | [b0; b1] =>
      String (char (b0 / 4))
        (String (char (b0 mod 4 * 16 + b1 / 16))
           (String (char (b1 mod 16 * 4)) "="))
  | b0 :: b1 :: b2 :: rest =>
      String (char (b0 / 4))
        (String (char (b0 mod 4 * 16 + b1 / 16))
           (String (char (b1 mod 16 * 4 + b2 / 64))
              (String (char (b2 mod 64)) (encode rest))))
  end.

(** [s.replace(/c/g, r)] for a one-character pattern [c]. *)
Fixpoint replace (c : ascii) (r : string) (s : string) : string :=
  match s with
  | EmptyString => EmptyString
  | String x s' =>
      if Ascii.eqb x c then String.append r (replace c r s')
      else String x (replace c r s')
  end.

(** [base64UrlEncode] of [tests/e2e/auth/helpers/crypto.ts]. *)
Definition base64UrlEncode (buffer : list Z) : string :=
  replace "=" "" (replace "/" "_" (replace "+" "-" (encode buffer))).

(** The same encoding written character by character: the URL-safe
    alphabet and no padding (RFC 4648, section 5). *)
Definition url_alphabet : string :=
  "ABCDEFGHIJKLMNOPQRSTUVWXYZabcdefghijklmnopqrstuvwxyz0123456789-_".

Definition url_char (i : Z) : ascii :=
  match String.get (Z.to_nat i) url_alphabet with
  | Some c => c
  | None => "="%char
  end.

Fixpoint encode_url (bs : list Z) : string :=
  match bs with
  | [] => ""
  | [b0] =>
      String (url_char (b0 / 4)) (String (url_char (b0 mod 4 * 16)) "")
  | [b0; b1] =>
      String (url_char (b0 / 4))
        (String (url_char (b0 mod 4 * 16 + b1 / 16))
           (String (url_char (b1 mod 16 * 4)) ""))
  | b0 :: b1 :: b2 :: rest =>
      String (url_char (b0 / 4))
        (String (url_char (b0 mod 4 * 16 + b1 / 16))
           (String (url_char (b1 mod 16 * 4 + b2 / 64))
              (String (url_char (b2 mod 64)) (encode_url rest))))
  end.

(** The six-bit value of a character of the URL-safe alphabet. *)
Definition url_value (c : ascii) : Z :=
  let n := Z.of_N (N_of_ascii c) in
  if (65 <=? n) && (n <=? 90) then n - 65
  else if (97 <=? n) && (n <=? 122) then n - 71
  else if (48 <=? n) && (n <=? 57) then n + 4
  else if n =? 45 then 62
  else 63.

End Base64.

(** ** PKCE *)

(** [generateCodeChallenge] of [tests/e2e/auth/helpers/crypto.ts]:
    BASE64URL(SHA256(code_verifier)). *)
Definition generateCodeChallenge (codeVerifier : string) : string :=
  Base64.base64UrlEncode (Sha256.sha256 codeVerifier).

(** Modelled from the spec: [validatePKCE] of [src/server/oauth/storage.ts],
    which is not among the sources.  "Compute a fixed one-way hash of
    verifier, base64url-encode without padding, and compare
    constant-time-equal to challenge"; the hash is SHA-256 (the only
    accepted method is S256). *)
Definition validatePKCE (codeVerifier codeChallenge : string) : bool :=
  String.eqb (Base64.base64UrlEncode (Sha256.sha256 codeVerifier)) codeChallenge.

(** ** The credential store *)

(** Modelled from the spec: the record types of
    [src/server/oauth/storage.ts], which is not among the sources, with
    the fields [token.ts] reads and writes ([identitySubject] is
    [privyUserId], [identityToken] is [privyToken]).  [expiresAt] is in
    milliseconds since the epoch. *)
Record AuthorizationCode := {
  ac_clientId : string;
  ac_privyUserId : string;
  ac_privyToken : string;
  ac_scopes : list string;
  ac_codeChallenge : string;
  ac_redirectUri : string;
  ac_expiresAt : Z;
  ac_used : bool
}.

(** Modelled from the spec: the access-token record of [storage.ts],
    keyed by the JWT string. *)
Record TokenData := {
  td_clientId : string;
  td_privyUserId : string;
  td_privyToken : string;
  td_scopes : list string;
  td_expiresAt : Z
}.

(** Modelled from the spec: the refresh-token record of [storage.ts],
    keyed by the opaque token. *)
Record RefreshTokenData := {
  rt_clientId : string;
  rt_privyUserId : string;
  rt_privyToken : string;
  rt_scopes : list string;
  rt_expiresAt : Z
}.

(** Modelled from the spec: the keyed collections of [storage.ts] that
    the token endpoint touches (the [Map]s [authorizationCodes],
    [tokens] and [refreshTokens]). *)
Record Store := {
  authorizationCodes : gmap string AuthorizationCode;
  tokens : gmap string TokenData;
  refreshTokens : gmap string RefreshTokenData
}.

(** The mutations of the store: one constructor for each mutating
    helper that [token.ts] imports from [storage.ts]
    ([deleteAuthorizationCode], [storeToken], [storeRefreshToken],
    [deleteRefreshToken]), and the marking of a code as used that the
    spec describes, which [token.ts] has no helper for. *)
Inductive StoreOp :=
| OpMarkAuthorizationCodeUsed (code : string)
| OpDeleteAuthorizationCode (code : string)
| OpStoreToken (accessToken : string) (data : TokenData)
| OpStoreRefreshToken (token : string) (data : RefreshTokenData)
| OpDeleteRefreshToken (token : string).

(** Modelled from the spec: "mark the code used = true". *)
Definition mark_used (authCode : AuthorizationCode) : AuthorizationCode :=
  {| ac_clientId := ac_clientId authCode;
     ac_privyUserId := ac_privyUserId authCode;
     ac_privyToken := ac_privyToken authCode;
     ac_scopes := ac_scopes authCode;
     ac_codeChallenge := ac_codeChallenge authCode;
     ac_redirectUri := ac_redirectUri authCode;
     ac_expiresAt := ac_expiresAt authCode;
     ac_used := true |}.

(** Modelled from the spec: what the mutating helpers of
    [src/server/oauth/storage.ts], which is not among the sources, do to
    the store.  The credential store "holds keyed collections" and
    "provides atomic get/put/delete", "all keyed by their opaque string
    identifier". *)
Definition apply_op (op : StoreOp) (st : Store) : Store :=
  match op with
  | OpMarkAuthorizationCodeUsed code =>
      {| authorizationCodes := alter mark_used code (authorizationCodes st);
         tokens := tokens st;
         refreshTokens := refreshTokens st |}
  | OpDeleteAuthorizationCode code =>
      {| authorizationCodes := delete code (authorizationCodes st);
         tokens := tokens st;
         refreshTokens := refreshTokens st |}
  | OpStoreToken accessToken data =>
      {| authorizationCodes := authorizationCodes st;
         tokens := <[accessToken := data]> (tokens st);
         refreshTokens := refreshTokens st |}
  | OpStoreRefreshToken token data =>
      {| authorizationCodes := authorizationCodes st;
         tokens := tokens st;
         refreshTokens := <[token := data]> (refreshTokens st) |}
  | OpDeleteRefreshToken token =>
      {| authorizationCodes := authorizationCodes st;
         tokens := tokens st;
         refreshTokens := delete token (refreshTokens st) |}
  end.

(** The store after a sequence of mutations. *)
Definition apply_ops (ops : list StoreOp) (st : Store) : Store :=
  fold_left (fun s op => apply_op op s) ops st.

(** ** Requests, responses and the inputs read from the platform *)

Record Request := {
  grant_type : option string;
  client_id : option string;
  code : option string;
  code_verifier : option string;
  redirect_uri : option string;
  refresh_token : option string;
  resource : option string
}.

(** JavaScript truthiness of a body field: [undefined] and the empty
    string are falsy. *)
Definition truthy (v : option string) : bool :=
  match v with
  | Some s => negb (String.eqb s "")
  | None => false
  end.

(** [v === s] for a string [s]. *)
Definition is_str (v : option string) (s : string) : bool :=
  match v with
  | Some x => String.eqb x s
  | None => false
  end.

(** The string held by a field that has been checked to be truthy. *)
Definition str (v : option string) : string := default "" v.

(** The payload of a verified token, as [jwt.verify] returns it. *)
Record JwtPayload := {
  jp_sub : string;
  jp_scope : string;
  jp_aud : string;
  jp_client_id : string;
  jp_iss : string;
  jp_iat : Z;
  jp_exp : Z
}.

(** The claims [issueAccessToken] hands to [jwt.sign]. *)
Record JwtClaims := {
  jc_sub : string;
  jc_scope : string;
  jc_aud : string;
  jc_client_id : string
}.

Inductive Body :=
| ErrorBody (error error_description : string)
| ErrorOnly (error : string)
| TokenBody (access_token refresh_token token_type : string)
            (expires_in : Z) (scope : string)
| InactiveBody
| ActiveBody (sub scope client_id : string) (exp iat : Z) (iss aud : string)
| PrivyBody (privyAccessToken : string) (expiresAt : Z)
            (issuedAt : option Z) (userId : string) (scope : list string).

Record Response := { status : Z; body : Body }.

(** [res.status(400).json({error, error_description})]. *)
Definition oauth_error (error error_description : string) : Response :=
  {| status := 400; body := ErrorBody error error_description |}.

(** [res.json(b)]: status 200. *)
Definition json (b : Body) : Response := {| status := 200; body := b |}.

(** What one request reads from the platform: its [Date.now()] readings
    (milliseconds), one field for each place that reads the clock, and
    the opaque value generated for a new refresh token. *)
Record Env := {
  now_check : Z;        (* the expiry check of the code or refresh token *)
  now_sign : Z;         (* the clock jwt.sign reads for iat *)
  now_token : Z;        (* expiresAt of the access-token record *)
  now_refresh : Z;      (* expiresAt of the refresh-token record *)
  new_refresh_token : string
}.

(** ** Handlers: store effects with early return *)

(** A handler step runs on the store and the log of mutations done so
    far; it either sends the response ([inl], the handler returns) or
    goes on with a value ([inr]). *)
Definition Handler (A : Type) : Type :=
  Store * list StoreOp -> (Store * list StoreOp) * (Response + A).

Definition ret {A} (a : A) : Handler A := fun w => (w, inr a).

Definition respond {A} (r : Response) : Handler A := fun w => (w, inl r).

Definition bind {A B} (m : Handler A) (k : A -> Handler B) : Handler B :=
  fun w =>
    match m w with
    | (w', inl r) => (w', inl r)
    | (w', inr a) => k a w'
    end.

Notation "x <- m ;; k" := (bind m (fun x => k))
  (at level 63, m at next level, right associativity).
Notation "m ;;; k" := (bind m (fun _ => k))
  (at level 63, right associativity).

(** [if (c) return r;] *)
Definition return_if (c : bool) (r : Response) : Handler unit :=
  if c then respond r else ret tt.

Definition perform (op : StoreOp) : Handler unit :=
  fun w => ((apply_op op w.1, w.2 ++ [op]), inr tt).

Definition read {A} (f : Store -> A) : Handler A :=
  fun w => (w, inr (f w.1)).

(** Modelled from the spec: [getAuthorizationCode] of [storage.ts], the
    get of the authorization-code collection. *)
Definition getAuthorizationCode (code : string)
  : Handler (option AuthorizationCode) :=
  read (fun st => authorizationCodes st !! code).

(** Modelled from the spec: [deleteAuthorizationCode] of [storage.ts],
    the delete of the authorization-code collection. *)
Definition deleteAuthorizationCode (code : string) : Handler unit :=
  perform (OpDeleteAuthorizationCode code).

(** Modelled from the spec: [getToken] of [storage.ts], the get of the
    access-token collection. *)
Definition getToken (accessToken : string) : Handler (option TokenData) :=
  read (fun st => tokens st !! accessToken).

(** Modelled from the spec: [storeToken] of [storage.ts], the put of the
    access-token collection, keyed by the JWT string. *)
Definition storeToken (accessToken : string) (data : TokenData)
  : Handler unit :=
  perform (OpStoreToken accessToken data).

(** Modelled from the spec: [getRefreshToken] of [storage.ts], the get
    of the refresh-token collection. *)
Definition getRefreshToken (token : string)
  : Handler (option RefreshTokenData) :=
  read (fun st => refreshTokens st !! token).

(** Modelled from the spec: [deleteRefreshToken] of [storage.ts], the
    delete of the refresh-token collection. *)
Definition deleteRefreshToken (token : string) : Handler unit :=
  perform (OpDeleteRefreshToken token).

(** Modelled from the spec: [storeRefreshToken] of [storage.ts].  It
    files the record under a "new opaque value", here the value the
    request's [Env] supplies, and returns that value. *)
Definition storeRefreshToken (env : Env) (data : RefreshTokenData)
  : Handler string :=
  perform (OpStoreRefreshToken (new_refresh_token env) data) ;;;
  ret (new_refresh_token env).

(** The outcome of a request: the store afterwards, the mutations made
    in order, and the response sent. *)
Record Outcome := {
  out_store : Store;
  out_ops : list StoreOp;
  out_response : Response
}.

Definition run (m : Handler Response) (st : Store) : Outcome :=
  match m (st, []) with
  | ((st', ops), inl r) | ((st', ops), inr r) =>
      {| out_store := st'; out_ops := ops; out_response := r |}
  end.

(** ** [config.ts] *)

(** [config.jwt.expiresIn]: the string ['1h']. *)
Definition config_jwt_expiresIn : string + Z := inl "1h".

Definition REFRESH_TOKEN_TTL_MS : Z := 30 * 24 * 60 * 60 * 1000.

Section TokenEndpoint.

(** [config.server.baseUrl] (the environment's SERVER_BASE_URL). *)
Variable baseUrl : string.

(** [jwt.sign(claims, config.jwt.privateKey, {algorithm, expiresIn,
    issuer, keyid})] of the jsonwebtoken library, as a function of the
    claims and of the clock it reads. *)
Variable jwt_sign : JwtClaims -> Z -> string.

(** The signature check of [jwt.verify(token, config.jwt.publicKey,
    {algorithms: [RS256], ...})] of the jsonwebtoken library: the
    decoded payload of a compact JWS whose RS256 signature verifies
    against the public key; [None] for a value that is malformed or
    signed otherwise. *)
Variable jws_verify : string -> option JwtPayload.

(** [jwt.verify(token, config.jwt.publicKey, {algorithms, issuer})] at
    the clock reading [now] (milliseconds).  After the signature the
    library refuses a token whose [exp] has been reached, in seconds,
    and one whose [iss] is not the issuer asked for, [config.jwt.issuer],
    which is the base URL.  [None] stands for the exception it throws. *)
Definition jwt_verify (token : string) (now : Z) : option JwtPayload :=
  match jws_verify token with
  | None => None
  | Some payload =>
      if jp_exp payload <=? now / 1000 then None
      else if negb (String.eqb (jp_iss payload) baseUrl) then None
      else Some payload
  end.

Definition join (sep : string) (l : list string) : string :=
  String.concat sep l.

(** [issueAccessToken]: the signed token, the Privy token handed back
    for storing, and the lifetime in seconds. *)
Definition issueAccessToken (env : Env)
    (privyUserId privyToken : string) (scopes : list string)
    (clientId audience : string) : string * string * Z :=
  let accessToken :=
    jwt_sign {| jc_sub := privyUserId;
                jc_scope := join " " scopes;
                jc_aud := audience;
                jc_client_id := clientId |} (now_sign env) in
  let expiresInSeconds :=
    match config_jwt_expiresIn with
    | inl _ => 3600
    | inr n => n / 1000
    end in
  (accessToken, privyToken, expiresInSeconds).

Definition handleAuthorizationCodeGrant (env : Env) (req : Request)
  : Handler Response :=
  return_if (negb (truthy (code req)) || negb (truthy (code_verifier req)))
    (oauth_error "invalid_request"
       "Missing required parameters: code and code_verifier") ;;;
  o <- getAuthorizationCode (str (code req)) ;;
  match o with
  | None =>
      respond (oauth_error "invalid_grant"
                 "Invalid or expired authorization code")
  | Some authCode =>
      return_if (ac_used authCode)
        (oauth_error "invalid_grant"
           "Authorization code has already been used") ;;;
      (if ac_expiresAt authCode <? now_check env then
         deleteAuthorizationCode (str (code req)) ;;;
         respond (oauth_error "invalid_grant"
                    "Authorization code has expired")
       else ret tt) ;;;
      return_if (negb (is_str (client_id req) (ac_clientId authCode)))
        (oauth_error "invalid_grant" "Invalid client_id") ;;;
      return_if (truthy (redirect_uri req)
                 && negb (is_str (redirect_uri req) (ac_redirectUri authCode)))
        (oauth_error "invalid_grant" "redirect_uri does not match") ;;;
      return_if (negb (validatePKCE (str (code_verifier req))
                         (ac_codeChallenge authCode)))
        (oauth_error "invalid_grant"
           "Invalid code_verifier (PKCE validation failed)") ;;;
      deleteAuthorizationCode (str (code req)) ;;;
      let audience :=
        if truthy (resource req) then str (resource req) else baseUrl in
      let '(accessToken, privyToken, expiresIn) :=
        issueAccessToken env (ac_privyUserId authCode)
          (ac_privyToken authCode) (ac_scopes authCode)
          (str (client_id req)) audience in
      storeToken accessToken
        {| td_clientId := str (client_id req);
           td_privyUserId := ac_privyUserId authCode;
           td_privyToken := privyToken;
           td_scopes := ac_scopes authCode;
           td_expiresAt := now_token env + expiresIn * 1000 |} ;;;
      refreshToken <- storeRefreshToken env
        {| rt_clientId := str (client_id req);
           rt_privyUserId := ac_privyUserId authCode;
           rt_privyToken := ac_privyToken authCode;
           rt_scopes := ac_scopes authCode;
           rt_expiresAt := now_refresh env + REFRESH_TOKEN_TTL_MS |} ;;
      respond (json (TokenBody accessToken refreshToken "Bearer"
                       expiresIn (join " " (ac_scopes authCode))))
  end.

Definition handleRefreshTokenGrant (env : Env) (req : Request)
  : Handler Response :=
  return_if (negb (truthy (refresh_token req)))
    (oauth_error "invalid_request"
       "Missing required parameter: refresh_token") ;;;
  o <- getRefreshToken (str (refresh_token req)) ;;
  match o with
  | None => respond (oauth_error "invalid_grant" "Invalid refresh_token")
  | Some storedRefreshToken =>
      return_if (negb (is_str (client_id req)
                         (rt_clientId storedRefreshToken)))
        (oauth_error "invalid_grant" "Client mismatch for refresh_token") ;;;
      (if rt_expiresAt storedRefreshToken <? now_check env then
         deleteRefreshToken (str (refresh_token req)) ;;;
         respond (oauth_error "invalid_grant" "refresh_token has expired")
       else ret tt) ;;;
      deleteRefreshToken (str (refresh_token req)) ;;;
      newRefreshToken <- storeRefreshToken env
        {| rt_clientId := rt_clientId storedRefreshToken;
           rt_privyUserId := rt_privyUserId storedRefreshToken;
           rt_privyToken := rt_privyToken storedRefreshToken;
           rt_scopes := rt_scopes storedRefreshToken;
           rt_expiresAt := now_refresh env + REFRESH_TOKEN_TTL_MS |} ;;
      let audience :=
        if truthy (resource req) then str (resource req) else baseUrl in
      let '(accessToken, privyToken, expiresIn) :=
        issueAccessToken env (rt_privyUserId storedRefreshToken)
          (rt_privyToken storedRefreshToken) (rt_scopes storedRefreshToken)
          (rt_clientId storedRefreshToken) audience in
      storeToken accessToken
        {| td_clientId := rt_clientId storedRefreshToken;
           td_privyUserId := rt_privyUserId storedRefreshToken;
           td_privyToken := privyToken;
           td_scopes := rt_scopes storedRefreshToken;
           td_expiresAt := now_token env + expiresIn * 1000 |} ;;;
      respond (json (TokenBody accessToken newRefreshToken "Bearer"
                       expiresIn (join " " (rt_scopes storedRefreshToken))))
  end.

(** [tokenRouter.post('/')]. *)
Definition tokenRoute (env : Env) (req : Request) : Handler Response :=
  return_if (negb (truthy (client_id req)))
    (oauth_error "invalid_request" "Missing required parameter: client_id") ;;;
  if is_str (grant_type req) "authorization_code" then
    handleAuthorizationCodeGrant env req
  else if is_str (grant_type req) "refresh_token" then
    handleRefreshTokenGrant env req
  else
    respond (oauth_error "unsupported_grant_type"
               (String.append "Unsupported grant_type: "
                  (default "undefined" (grant_type req)))).

Definition tokenEndpoint (env : Env) (req : Request) (st : Store)
  : Outcome :=
  run (tokenRoute env req) st.

(** [tokenRouter.post('/introspect')] at clock reading [now]. *)
Definition introspectRoute (token : option string) (now : Z)
  : Handler Response :=
  return_if (negb (truthy token))
    {| status := 400; body := InactiveBody |} ;;;
  match jwt_verify (str token) now with
  | Some decoded =>
      respond (json (ActiveBody (jp_sub decoded) (jp_scope decoded)
                       (jp_client_id decoded) (jp_exp decoded)
                       (jp_iat decoded) (jp_iss decoded) (jp_aud decoded)))
  | None => respond (json InactiveBody)
  end.

Definition introspectEndpoint (token : option string) (now : Z)
    (st : Store) : Outcome :=
  run (introspectRoute token now) st.

(** [tokenRouter.post('/privy/access-token')], after the
    [validateToken] middleware: [oauthToken] is [req.auth?.token]. *)
Definition privyAccessTokenRoute (oauthToken : option string)
  : Handler Response :=
  return_if (negb (truthy oauthToken))
    {| status := 401; body := ErrorOnly "unauthorized" |} ;;;
  o <- getToken (str oauthToken) ;;
  match o with
  | None => respond {| status := 404; body := ErrorOnly "token_not_found" |}
  | Some tokenData =>
      respond (json (PrivyBody (td_privyToken tokenData)
                       (td_expiresAt tokenData)
                       None
                       (td_privyUserId tokenData)
                       (td_scopes tokenData)))
  end.

Definition privyAccessTokenEndpoint (oauthToken : option string)
    (st : Store) : Outcome :=
  run (privyAccessTokenRoute oauthToken) st.

(** *** Runs of the server *)

(** A call to one of the three routes of the router. *)
Inductive Call :=
| CallToken (env : Env) (req : Request)
| CallIntrospect (token : option string) (now : Z)
| CallPrivyAccessToken (oauthToken : option string).

Definition serve (c : Call) (st : Store) : Outcome :=
  match c with
  | CallToken env req => tokenEndpoint env req st
  | CallIntrospect token now => introspectEndpoint token now st
  | CallPrivyAccessToken oauthToken => privyAccessTokenEndpoint oauthToken st
  end.

(** The store after serving the calls one after the other. *)
Definition serve_all (calls : list Call) (st : Store) : Store :=
  fold_left (fun st c => out_store (serve c st)) calls st.

End TokenEndpoint.

(** ** Vocabulary of the properties *)

(** The token endpoint answered with a token pair. *)
Definition success (r : Response) : bool :=
  match body r with
  | TokenBody _ _ _ _ _ => true
  | _ => false
  end.

(** The response is the OAuth error [e], with some description. *)
Definition fails_with (e : string) (r : Response) : Prop :=
  exists d, r = oauth_error e d.

(** [req] is an authorization_code grant request presenting the code [c]
    with a client id and a code verifier. *)
Definition is_redemption (req : Request) (c : string) : Prop :=
  truthy (client_id req) = true /\
  grant_type req = Some "authorization_code" /\
  code req = Some c /\ c <> "" /\
  truthy (code_verifier req) = true.

(** [req] is a refresh_token grant request presenting the refresh token
    [r] with a client id. *)
Definition is_refresh (req : Request) (r : string) : Prop :=
  truthy (client_id req) = true /\
  grant_type req = Some "refresh_token" /\
  refresh_token req = Some r /\ r <> "".

(** The stores a request went through: the store it started from and
    the store after each of its mutations. *)
Fixpoint history (st : Store) (ops : list StoreOp) : list Store :=
  st :: match ops with
        | [] => []
        | op :: ops' => history (apply_op op st) ops'
        end.

(** The [used] flag of the code [c] in a store, if the code is there. *)
Definition used_flag (c : string) (st : Store) : option bool :=
  ac_used <$> (authorizationCodes st !! c).

(** The identity token and the scopes of the credential a grant request
    consumes: those of the presented authorization code, or those of
    the presented refresh token. *)
Definition consumed_privyToken (req : Request) (st : Store) : option string :=
  if is_str (grant_type req) "authorization_code" then
    ac_privyToken <$> (authorizationCodes st !! str (code req))
  else
    rt_privyToken <$> (refreshTokens st !! str (refresh_token req)).

Definition consumed_scopes (req : Request) (st : Store)
  : option (list string) :=
  if is_str (grant_type req) "authorization_code" then
    ac_scopes <$> (authorizationCodes st !! str (code req))
  else
    rt_scopes <$> (refreshTokens st !! str (refresh_token req)).

(** The store holds the identity token [p], in a record of one of its
    collections. *)
Definition holds_identity (st : Store) (p : string) : Prop :=
  (exists k authCode,
     authorizationCodes st !! k = Some authCode /\
     ac_privyToken authCode = p) \/
  (exists k tokenData,
     tokens st !! k = Some tokenData /\ td_privyToken tokenData = p) \/
  (exists k stored,
     refreshTokens st !! k = Some stored /\ rt_privyToken stored = p).

(** A byte is an integer in [0, 256). *)
Definition is_byte (b : Z) : Prop := 0 <= b < 256.

(** The sequences of length [n] over an alphabet, for counting. *)
Fixpoint words {A} (alphabet : list A) (n : nat) : list (list A) :=
  match n with
  | O => [[]]
  | S n => a ← alphabet; cons a <$> words alphabet n
  end.

Definition byte_values : list Z := Z.of_nat <$> seq 0 256.

(** The characters of the URL-safe alphabet. *)
Definition url_chars : list ascii := list_ascii_of_string Base64.url_alphabet.

(** [v] has the shape of the verifiers that [generateCodeVerifier] of the
    test helper makes: 43 characters of the URL-safe alphabet. *)
Definition is_verifier (v : string) : Prop :=
  list_ascii_of_string v ∈ words url_chars 43.

(** Step 5 of the authorization_code grant as the spec words it: "Mark
    the code used = true and delete it". *)
Definition spec_mark_and_delete (c : string) : list StoreOp :=
  [OpMarkAuthorizationCodeUsed c; OpDeleteAuthorizationCode c].

(** The mutations [ops], made from the store [st], mark the code [c]
    used and delete it: the flag of the code is false at the start, is
    seen set in one of the stores gone through, and the code is absent
    at the end. *)
Definition marked_used_and_deleted (c : string) (st : Store)
    (ops : list StoreOp) : Prop :=
  used_flag c st = Some false /\
  In (Some true) (map (used_flag c) (history st ops)) /\
  used_flag c (apply_ops ops st) = None.


(** ** A sample deployment, for evaluating the model *)

Module Sample.

Definition baseUrl : string := "https://mcp.example".

(** A stand-in for the signer: it lays the claims and the issue time
    (in seconds) out in the token. *)
Definition sign (c : JwtClaims) (now : Z) : string :=
  String.concat "|"
    [jc_sub c; jc_scope c; jc_aud c; jc_client_id c;
     Sha256.hex (Sha256.be_bytes 8 (now / 1000))].

Definition accessToken1 : string :=
  "did:privy:user-1|read privy:token:exchange|https://mcp.example|chatgpt-connector|00000000000003ed".

(** A stand-in for the signature check: it accepts [accessToken1],
    issued at second 1005 for an hour, and nothing else. *)
Definition verify (token : string) : option JwtPayload :=
  if String.eqb token accessToken1 then
    Some {| jp_sub := "did:privy:user-1";
            jp_scope := "read privy:token:exchange";
            jp_aud := "https://mcp.example";
            jp_client_id := "chatgpt-connector";
            jp_iss := "https://mcp.example";
            jp_iat := 1005;
            jp_exp := 4605 |}
  else None.

(** The verifier and challenge of RFC 7636, appendix B. *)
Definition verifier : string := "dBjftJeZ4CVP-mB92K27uhbUJU1p1r_wW1gFWFOEjXk".
Definition challenge : string := "E9Melhoa2OwvFrEMTJguCHaoeK1t8URWbuGJSstw-cM".

Definition authCode : AuthorizationCode :=
  {| ac_clientId := "chatgpt-connector";
     ac_privyUserId := "did:privy:user-1";
     ac_privyToken := "privy-token-1";
     ac_scopes := ["read"; "privy:token:exchange"];
     ac_codeChallenge := challenge;
     ac_redirectUri := "https://chatgpt.com/connector_platform_oauth_redirect";
     ac_expiresAt := 1030000;
     ac_used := false |}.

(** One authorization code has been issued, at time 1000000. *)
Definition store0 : Store :=
  {| authorizationCodes := {[ "code-1" := authCode ]};
     tokens := ∅;
     refreshTokens := ∅ |}.

(** Five seconds later. *)
Definition env1 : Env :=
  {| now_check := 1005000; now_sign := 1005000; now_token := 1005001;
     now_refresh := 1005001; new_refresh_token := "refresh-1" |}.

(** Thirty-one seconds later: the code has expired. *)
Definition env_late : Env :=
  {| now_check := 1031000; now_sign := 1031000; now_token := 1031000;
     now_refresh := 1031000; new_refresh_token := "refresh-9" |}.

Definition env2 : Env :=
  {| now_check := 2000000; now_sign := 2000000; now_token := 2000000;
     now_refresh := 2000000; new_refresh_token := "refresh-2" |}.

Definition env3 : Env :=
  {| now_check := 3000000; now_sign := 3000000; now_token := 3000000;
     now_refresh := 3000000; new_refresh_token := "refresh-3" |}.

Definition redeem : Request :=
  {| grant_type := Some "authorization_code";
     client_id := Some "chatgpt-connector";
     code := Some "code-1";
     code_verifier := Some verifier;
     redirect_uri := Some "https://chatgpt.com/connector_platform_oauth_redirect";
     refresh_token := None;
     resource := None |}.

Definition redeem_wrong_verifier : Request :=
  {| grant_type := Some "authorization_code";
     client_id := Some "chatgpt-connector";
     code := Some "code-1";
     code_verifier := Some "wrong-verifier-that-does-not-match";
     redirect_uri := None;
     refresh_token := None;
     resource := None |}.

Definition refresh : Request :=
  {| grant_type := Some "refresh_token";
     client_id := Some "chatgpt-connector";
     code := None;
     code_verifier := None;
     redirect_uri := None;
     refresh_token := Some "refresh-1";
     resource := None |}.

Definition no_client : Request :=
  {| grant_type := Some "authorization_code";
     client_id := None;
     code := Some "code-1";
     code_verifier := Some verifier;
     redirect_uri := None;
     refresh_token := None;
     resource := None |}.

Definition client_credentials : Request :=
  {| grant_type := Some "client_credentials";
     client_id := Some "chatgpt-connector";
     code := None;
     code_verifier := None;
     redirect_uri := None;
     refresh_token := None;
     resource := None |}.

(** The store after the code has been redeemed. *)
Definition store1 : Store :=
  out_store (tokenEndpoint baseUrl sign env1 redeem store0).

(** The sample code with its [used] flag set, and a store that holds
    it. *)
Definition usedCode : AuthorizationCode :=
  {| ac_clientId := "chatgpt-connector";
     ac_privyUserId := "did:privy:user-1";
     ac_privyToken := "privy-token-1";
     ac_scopes := ["read"; "privy:token:exchange"];
     ac_codeChallenge := challenge;
     ac_redirectUri := "https://chatgpt.com/connector_platform_oauth_redirect";
     ac_expiresAt := 1030000;
     ac_used := true |}.

Definition store_used : Store :=
  {| authorizationCodes := {[ "code-1" := usedCode ]};
     tokens := ∅;
     refreshTokens := ∅ |}.


End Sample.

(** ** The Privy exchange route with its guard *)

Section GuardedExchange.

(** [validateToken(requiredScopes)] of [src/server/middleware/auth.ts],
    which is not among the sources, as a function of the scopes it is
    created with and of the Authorization header of the request: it
    sends a response of its own ([inl]), or calls [next()], after which
    the handler reads [req.auth?.token] ([inr], [None] for
    [undefined]). *)
Variable validateToken : list string -> option string -> Response + option string.

(** [tokenRouter.post('/privy/access-token',
    validateToken(['privy:token:exchange']), handler)]: the handler runs
    only when the guard has called [next()]. *)
Definition privyAccessTokenGuardedRoute (authHeader : option string)
  : Handler Response :=
  match validateToken ["privy:token:exchange"] authHeader with
  | inl res => respond res
  | inr oauthToken => privyAccessTokenRoute oauthToken
  end.

Definition privyAccessTokenGuardedEndpoint (authHeader : option string)
    (st : Store) : Outcome :=
  run (privyAccessTokenGuardedRoute authHeader) st.

End GuardedExchange.

(** ** The callers of the token endpoint: [tests/e2e/auth/helpers/flow-helpers.ts] *)

Module FlowHelpers.

Definition DEFAULT_CLIENT_ID : string := "chatgpt-connector".

Definition DEFAULT_REDIRECT_URIS : list string :=
  [ "https://chat.openai.com/connector_platform_oauth_redirect";
    "https://chatgpt.com/connector_platform_oauth_redirect" ].

(** [response.ok] of [fetch]: the status is in the range 200-299. *)
Definition ok (r : Response) : bool :=
  (200 <=? status r) && (status r <=? 299).

(** The members that the helpers read from the parsed body
    ([data.access_token], [data.refresh_token], [data.expires_in],
    [data.scope]); [None] is [undefined]. *)
Definition data_access_token (data : Body) : option string :=
  match data with
  | TokenBody access_token _ _ _ _ => Some access_token
  | _ => None
  end.

Definition data_refresh_token (data : Body) : option string :=
  match data with
  | TokenBody _ refresh_token _ _ _ => Some refresh_token
  | _ => None
  end.

Definition data_expires_in (data : Body) : option Z :=
  match data with
  | TokenBody _ _ _ expires_in _ => Some expires_in
  | _ => None
  end.

(** [data.scope] is a string in a token or introspection body and an
    array in the body of the Privy exchange. *)
Definition data_scope (data : Body) : option (string + list string) :=
  match data with
  | TokenBody _ _ _ _ scope => Some (inl scope)
  | ActiveBody _ scope _ _ _ _ _ => Some (inl scope)
  | PrivyBody _ _ _ _ scope => Some (inr scope)
  | _ => None
  end.

Record TokenRefreshResult := {
  newAccessToken : option string;
  newRefreshToken : option string;
  trr_expiresIn : option Z;
  trr_scope : option (string + list string)
}.

(** The result of [exchangeCodeForTokens]. *)
Record TokenExchangeResult := {
  ter_accessToken : option string;
  ter_refreshToken : option string;
  ter_expiresIn : option Z;
  ter_scope : option (string + list string)
}.

(** The members of [current] that the refresh loop of
    [security_privy_exchange.spec.ts] replaces. *)
Record CurrentTokens := {
  cur_accessToken : option string;
  cur_refreshToken : option string
}.

Section Server.

Variable baseUrl : string.
Variable jwt_sign : JwtClaims -> Z -> string.
Variable validateToken : list string -> option string -> Response + option string.

(** [refreshTokens(refreshToken, clientId = DEFAULT_CLIENT_ID)]: the
    request goes to the token endpoint of the server under test, which
    runs on the store [st] with the platform readings [env].  A member
    of the JSON body that is [undefined] is left out of the request.
    [inl error] is the exception thrown for a response that is not ok,
    with the parsed error body. *)
Definition refreshTokens (env : Env) (refreshToken : option string)
    (clientId : option string) (st : Store)
  : Store * (Body + TokenRefreshResult) :=
  let response :=
    tokenEndpoint baseUrl jwt_sign env
      {| grant_type := Some "refresh_token";
         client_id := Some (default DEFAULT_CLIENT_ID clientId);
         code := None;
         code_verifier := None;
         redirect_uri := None;
         refresh_token := refreshToken;
         resource := None |} st in
  if negb (ok (out_response response)) then
    (out_store response, inl (body (out_response response)))
  else
    let data := body (out_response response) in
    (out_store response,
     inr {| newAccessToken := data_access_token data;
            newRefreshToken := data_refresh_token data;
            trr_expiresIn := data_expires_in data;
            trr_scope := data_scope data |}).

(** [exchangeCodeForTokens(code, codeVerifier, options)];
    [options.clientId || DEFAULT_CLIENT_ID] falls back on the default
    for an option that is [undefined] or empty. *)
Definition exchangeCodeForTokens (env : Env) (code codeVerifier : string)
    (options_clientId options_redirectUri : option string) (st : Store)
  : Store * (Body + TokenExchangeResult) :=
  let response :=
    tokenEndpoint baseUrl jwt_sign env
      {| grant_type := Some "authorization_code";
         client_id :=
           Some (if truthy options_clientId then str options_clientId
                 else DEFAULT_CLIENT_ID);
         code := Some code;
         code_verifier := Some codeVerifier;
         redirect_uri :=
           if truthy options_redirectUri then options_redirectUri
           else head DEFAULT_REDIRECT_URIS;
         refresh_token := None;
         resource := None |} st in
  if negb (ok (out_response response)) then
    (out_store response, inl (body (out_response response)))
  else
    let data := body (out_response response) in
    (out_store response,
     inr {| ter_accessToken := data_access_token data;
            ter_refreshToken := data_refresh_token data;
            ter_expiresIn := data_expires_in data;
            ter_scope := data_scope data |}).

(** The refresh loop of the test 'preserves same Privy token through
    refresh cycles': each iteration calls [refreshTokens] with the
    current refresh token and the default client, and replaces the
    access and refresh token of [current]; an exception ends the loop.
    One element of [envs] for each iteration (three in the test). *)
Fixpoint refreshCycles (envs : list Env) (current : CurrentTokens)
    (st : Store) : Store * (Body + CurrentTokens) :=
  match envs with
  | [] => (st, inr current)
  | env :: envs' =>
      match refreshTokens env (cur_refreshToken current) None st with
      | (st', inl error) => (st', inl error)
      | (st', inr refreshed) =>
          refreshCycles envs'
            {| cur_accessToken := newAccessToken refreshed;
               cur_refreshToken := newRefreshToken refreshed |} st'
      end
  end.

(** [exchangeForPrivyToken(accessToken)]: the request goes to the
    guarded exchange route with the header [Bearer ${accessToken}]; an
    access token that is [undefined] is written out as [undefined].
    [inl error] is the exception thrown for a response that is not ok;
    otherwise the parsed body is returned. *)
Definition exchangeForPrivyToken (accessToken : option string) (st : Store)
  : Store * (Body + Body) :=
  let response :=
    privyAccessTokenGuardedEndpoint validateToken
      (Some (String.append "Bearer " (default "undefined" accessToken))) st in
  if negb (ok (out_response response)) then
    (out_store response, inl (body (out_response response)))
  else
    (out_store response, inr (body (out_response response))).

End Server.

End FlowHelpers.

(** The user id of the credential a grant request consumes. *)
Definition consumed_privyUserId (req : Request) (st : Store)
  : option string :=
  if is_str (grant_type req) "authorization_code" then
    ac_privyUserId <$> (authorizationCodes st !! str (code req))
  else
    rt_privyUserId <$> (refreshTokens st !! str (refresh_token req)).

(** The request with its [resource] member replaced. *)
Definition with_resource (x : option string) (req : Request) : Request :=
  {| grant_type := grant_type req;
     client_id := client_id req;
     code := code req;
     code_verifier := code_verifier req;
     redirect_uri := redirect_uri req;
     refresh_token := refresh_token req;
     resource := x |}.

(** The refresh loop stays in time: each iteration runs before the
    expiry of the refresh token it presents (that of the record stored
    by the iteration before it, thirty days after its clock reading)
    and draws a new refresh token that is not empty. *)
Fixpoint cycles_in_time (expiresAt : Z) (envs : list Env) : Prop :=
  match envs with
  | [] => True
  | env :: envs' =>
      now_check env <= expiresAt /\
      new_refresh_token env <> "" /\
      cycles_in_time (now_refresh env + REFRESH_TOKEN_TTL_MS) envs'
  end.

(** ** JSON values *)

(** The values that [JSON.parse] returns and [JSON.stringify] takes;
    the numbers of the helpers are integers. *)
#[warnings="-register-all"]
Inductive Json :=
| JNull
| JBool (b : bool)
| JNumber (n : Z)
| JString (s : string)
| JArray (items : list Json)
| JObject (members : list (string * Json)).

(** What a [catch] clause receives: an [Error] with its message, or
    some other value. *)
Inductive Thrown :=
| ThrownError (message : string)
| ThrownValue.

(** ** The other helpers of [tests/e2e/auth/helpers/crypto.ts] *)

(** [s.split(sep)] for a one-character separator: the pieces between
    the separators, empty pieces included. *)
Fixpoint js_split (sep : ascii) (s : string) : list string :=
  match s with
  | EmptyString => [EmptyString]
  | String c s' =>
      if Ascii.eqb c sep then EmptyString :: js_split sep s'
      else
        match js_split sep s' with
        | piece :: pieces => String c piece :: pieces
        | [] => [String c EmptyString]
        end
  end.

(** [s.repeat(n)]. *)
Fixpoint repeat_string (s : string) (n : nat) : string :=
  match n with
  | O => EmptyString
  | S n' => String.append s (repeat_string s n')
  end.

(** A text of ASCII characters: each takes one byte, and one UTF-16
    code unit, so that its [length] in JavaScript is its length here. *)
Definition ascii_text (s : string) : Prop :=
  Forall (fun c => (nat_of_ascii c < 128)%nat) (list_ascii_of_string s).

(** The number of occurrences of a character in a string. *)
Fixpoint count_char (c : ascii) (s : string) : nat :=
  match s with
  | EmptyString => O
  | String x s' => ((if Ascii.eqb x c then 1 else 0) + count_char c s')%nat
  end.

Inductive DecodeError :=
| InvalidJwtFormat     (* new Error('Invalid JWT format') *)
| JsonSyntaxError.     (* the SyntaxError of JSON.parse *)

Record DecodedToken := {
  dt_header : Json;
  dt_payload : Json;
  dt_signature : string
}.

Section Crypto.

(** [randomBytes(size)] of Node's crypto module: the bytes of the
    buffer drawn. *)
Variable randomBytes : nat -> list Z.

(** [Buffer.from(base64, 'base64').toString('utf-8')] of Node. *)
Variable utf8_of_base64 : string -> string.

(** [JSON.stringify] on the objects of the helpers, and [JSON.parse];
    [None] is the [SyntaxError] it throws. *)
Variable JSON_stringify : Json -> string.
Variable JSON_parse : string -> option Json.

(** [generateCodeVerifier(length)] for a natural number [length];
    [Math.ceil((length * 3) / 4)] is [(length * 3 + 3) / 4] rounded
    down, and [slice(0, length)] keeps the first [length] characters. *)
Definition generateCodeVerifier (length : nat) : string :=
  let buffer := randomBytes ((length * 3 + 3) / 4) in
  String.substring 0 length (Base64.base64UrlEncode buffer).

(** [generatePKCEPair()]: the verifier has the default length, 43. *)
Definition generatePKCEPair : string * string :=
  let codeVerifier := generateCodeVerifier 43 in
  let codeChallenge := generateCodeChallenge codeVerifier in
  (codeVerifier, codeChallenge).

(** [base64UrlDecode(str)].  [str.length] is the number of characters
    of an ASCII text, which Base64 text is. *)
Definition base64UrlDecode (str : string) : string :=
  let padding := (4 - String.length str mod 4)%nat in
  let padded :=
    if negb (padding =? 4)%nat then
      String.append str (repeat_string "=" padding)
    else str in
  let base64 := Base64.replace "_" "/" (Base64.replace "-" "+" padded) in
  utf8_of_base64 base64.

(** The text that [base64UrlDecode] hands to the decoder: [str] padded
    to a multiple of four characters, in the standard alphabet. *)
Definition base64_text (str : string) : string :=
  let padding := (4 - String.length str mod 4)%nat in
  let padded :=
    if negb (padding =? 4)%nat then
      String.append str (repeat_string "=" padding)
    else str in
  Base64.replace "_" "/" (Base64.replace "-" "+" padded).

(** [decodeJWT(token)]. *)
Definition decodeJWT (token : string) : DecodeError + DecodedToken :=
  match js_split "." token with
  | [headerB64; payloadB64; signature] =>
      match JSON_parse (base64UrlDecode headerB64) with
      | None => inl JsonSyntaxError
      | Some header =>
          match JSON_parse (base64UrlDecode payloadB64) with
          | None => inl JsonSyntaxError
          | Some payload =>
              inr {| dt_header := header;
                     dt_payload := payload;
                     dt_signature := signature |}
          end
      end
  | _ => inl InvalidJwtFormat
  end.

(** [generateState()]: [randomBytes(16).toString('hex')]. *)
Definition generateState : string := Sha256.hex (randomBytes 16).

(** [generateFakePrivyToken(userId, appId = 'test-app')]; [now_exp] and
    [now_iat] are the two readings of [Date.now()]. *)
Definition generateFakePrivyToken (now_exp now_iat : Z) (userId : string)
    (appId : option string) : string :=
  let header := JObject [("alg", JString "HS256"); ("typ", JString "JWT")] in
  let payload :=
    JObject [("sub", JString userId);
             ("aud", JString (default "test-app" appId));
             ("iss", JString "privy.io");
             ("exp", JNumber (now_exp / 1000 + 3600));
             ("iat", JNumber (now_iat / 1000))] in
  let headerB64 :=
    Base64.base64UrlEncode (Sha256.bytes_of_string (JSON_stringify header)) in
  let payloadB64 :=
    Base64.base64UrlEncode (Sha256.bytes_of_string (JSON_stringify payload)) in
  let signature := Base64.base64UrlEncode (randomBytes 32) in
  String.append headerB64
    (String.append "." (String.append payloadB64 (String.append "." signature))).

(** [generateExpiredPrivyToken(userId, appId = 'test-app')]. *)
Definition generateExpiredPrivyToken (now_exp now_iat : Z) (userId : string)
    (appId : option string) : string :=
  let header := JObject [("alg", JString "HS256"); ("typ", JString "JWT")] in
  let payload :=
    JObject [("sub", JString userId);
             ("aud", JString (default "test-app" appId));
             ("iss", JString "privy.io");
             ("exp", JNumber (now_exp / 1000 - 3600));
             ("iat", JNumber (now_iat / 1000 - 7200))] in
  let headerB64 :=
    Base64.base64UrlEncode (Sha256.bytes_of_string (JSON_stringify header)) in
  let payloadB64 :=
    Base64.base64UrlEncode (Sha256.bytes_of_string (JSON_stringify payload)) in
  let signature := Base64.base64UrlEncode (randomBytes 32) in
  String.append headerB64
    (String.append "." (String.append payloadB64 (String.append "." signature))).

End Crypto.

(** ** The Privy middleware: [src/server/middleware/privy.ts] *)

(** JavaScript truthiness of a member that holds a JSON value or is
    [undefined]. *)
Definition json_truthy (v : option Json) : bool :=
  match v with
  | None => false
  | Some JNull => false
  | Some (JBool b) => b
  | Some (JNumber n) => negb (n =? 0)
  | Some (JString s) => negb (String.eqb s "")
  | Some (JArray _) => true
  | Some (JObject _) => true
  end.

(** The claims object that [verifyAuthToken] resolves to. *)
Definition Claims : Type := gmap string Json.

(** [req.privyUser]. *)
Record PrivyUser := {
  pu_userId : option Json;
  pu_appId : option Json
}.

(** What the middleware does with a request: it calls [next()] with the
    user attached to the request, or sends a response. *)
Inductive Middleware :=
| Next (privyUser : PrivyUser)
| Sent (res : Response).

Section PrivyMiddleware.

(** [privyClient.verifyAuthToken(token)]: the claims, where [None] is a
    result that is [null] or [undefined], or the value thrown. *)
Variable verifyAuthToken : string -> Thrown + option Claims.

(** [verifyPrivyToken(req, res, next)] on [req.headers.authorization].
    The messages written to the console are left out, and so is the
    outer [catch], which answers 500 to an exception that none of these
    steps raises. *)
Definition verifyPrivyToken (authHeader : option string) : Middleware :=
  if negb (truthy authHeader)
     || negb (String.prefix "Bearer " (str authHeader)) then
    Sent {| status := 401;
            body := ErrorBody "unauthorized"
                      "Missing or invalid Authorization header" |}
  else
    let token :=
      String.substring 7 (String.length (str authHeader) - 7)
        (str authHeader) in
    match verifyAuthToken token with
    | inr None =>
        Sent {| status := 401;
                body := ErrorBody "invalid_token" "Invalid Privy token" |}
    | inr (Some claims) =>
        if negb (json_truthy (claims !! "userId")) then
          Sent {| status := 401;
                  body := ErrorBody "invalid_token" "Invalid Privy token" |}
        else
          Next {| pu_userId := claims !! "userId";
                  pu_appId := claims !! "appId" |}
    | inl error =>
        Sent {| status := 401;
                body := ErrorBody "invalid_token"
                          "Failed to verify Privy token" |}
    end.

End PrivyMiddleware.

(** ** The fake Privy client: [tests/e2e/auth/helpers/fake-privy.ts] *)

Record FakePrivyUser := {
  fpu_userId : string;
  fpu_appId : string;
  fpu_token : string;
  fpu_claims : option (gmap string Json)
}.

(** The state of the module. *)
Record FakePrivy := {
  validTokens : gmap string FakePrivyUser;
  invalidTokens : gset string;
  shouldFailAll : bool;
  failureError : option string     (* the message of the Error, or null *)
}.

(** The state the module is loaded with. *)
Definition fakePrivy_init : FakePrivy :=
  {| validTokens := ∅; invalidTokens := ∅;
     shouldFailAll := false; failureError := None |}.

Definition registerValidToken (token : string) (user : FakePrivyUser)
    (fp : FakePrivy) : FakePrivy :=
  {| validTokens := <[token := user]> (validTokens fp);
     invalidTokens := invalidTokens fp;
     shouldFailAll := shouldFailAll fp;
     failureError := failureError fp |}.

Definition registerInvalidToken (token : string) (fp : FakePrivy)
  : FakePrivy :=
  {| validTokens := validTokens fp;
     invalidTokens := {[ token ]} ∪ invalidTokens fp;
     shouldFailAll := shouldFailAll fp;
     failureError := failureError fp |}.

(** [setAllVerificationsToFail(error?)]; [error] is the message of the
    [Error] passed, if one is. *)
Definition setAllVerificationsToFail (error : option string)
    (fp : FakePrivy) : FakePrivy :=
  {| validTokens := validTokens fp;
     invalidTokens := invalidTokens fp;
     shouldFailAll := true;
     failureError := Some (default "Privy service unavailable" error) |}.

Definition resetFakePrivy (fp : FakePrivy) : FakePrivy :=
  {| validTokens := ∅; invalidTokens := ∅;
     shouldFailAll := false; failureError := None |}.

Definition getRegisteredUser (token : string) (fp : FakePrivy)
  : option FakePrivyUser :=
  validTokens fp !! token.

(** [fakeVerifyAuthToken(token)], without its pause of ten
    milliseconds.  In [{userId, appId, ...user.claims}] a member of
    [user.claims] replaces the member of the same name written before
    it. *)
Definition fakeVerifyAuthToken (fp : FakePrivy) (token : string)
  : Thrown + option Claims :=
  if shouldFailAll fp then
    inl (ThrownError
           (default "Privy service unavailable" (failureError fp)))
  else if bool_decide (token ∈ invalidTokens fp) then
    inl (ThrownError "Invalid Privy token")
  else
    match validTokens fp !! token with
    | None => inl (ThrownError "Token not found or expired")
    | Some user =>
        inr (Some (default ∅ (fpu_claims user)
                   ∪ {[ "userId" := JString (fpu_userId user);
                        "appId" := JString (fpu_appId user) ]}))
    end.

(** [setupTestUser(userId = 'did:privy:test-user-123')]; [clock] is the
    text of [Date.now()] and [nonce] that of
    [Math.random().toString(36).slice(2)].  It returns the token, the
    user id and the app id. *)
Definition setupTestUser (clock nonce : string) (userId : option string)
    (fp : FakePrivy) : FakePrivy * (string * string * string) :=
  let userId := default "did:privy:test-user-123" userId in
  let token :=
    String.append "test-privy-token-"
      (String.append clock (String.append "-" nonce)) in
  let appId := "test-app-id" in
  (registerValidToken token
     {| fpu_userId := userId; fpu_appId := appId;
        fpu_token := token; fpu_claims := None |} fp,
   (token, userId, appId)).

(** A call to one of the functions of the module that change its
    state, and the state after a sequence of them. *)
Inductive FakePrivyCall :=
| CallRegisterValidToken (token : string) (user : FakePrivyUser)
| CallRegisterInvalidToken (token : string)
| CallSetAllVerificationsToFail (error : option string)
| CallResetFakePrivy
| CallSetupTestUser (clock nonce : string) (userId : option string).

Definition fakePrivy_call (c : FakePrivyCall) (fp : FakePrivy) : FakePrivy :=
  match c with
  | CallRegisterValidToken token user => registerValidToken token user fp
  | CallRegisterInvalidToken token => registerInvalidToken token fp
  | CallSetAllVerificationsToFail error => setAllVerificationsToFail error fp
  | CallResetFakePrivy => resetFakePrivy fp
  | CallSetupTestUser clock nonce userId =>
      (setupTestUser clock nonce userId fp).1
  end.

Definition fakePrivy_calls (calls : list FakePrivyCall) (fp : FakePrivy)
  : FakePrivy :=
  fold_left (fun fp c => fakePrivy_call c fp) calls fp.

Definition is_reset (c : FakePrivyCall) : bool :=
  match c with
  | CallResetFakePrivy => true
  | _ => false
  end.

(** ** The MCP request handler: [handleMCPRequest] *)

Record McpRequest := {
  mcp_method : option string;
  mcp_params : option Json;
  mcp_id : option Json
}.

(** The request a handler receives: the member [params] is there only
    when the request has one. *)
Record NormalizedRequest := {
  nr_method : string;
  nr_params : option Json
}.

Inductive McpResponse :=
| McpResult (result : Json) (id : Json)
| McpError (code : Z) (message : string) (id : option Json).

Section MCP.

(** The auth context handed to the handlers. *)
Variable Extra : Type.

(** A registered handler: its result, or the value it throws. *)
Definition RequestHandler : Type :=
  NormalizedRequest -> Extra -> Thrown + Json.

(** [handleMCPRequest(server, request, extra)] on
    [server._requestHandlers], a [Map] keyed by method name, for a
    request that is an object whose method is a string or missing. *)
Definition handleMCPRequest (requestHandlers : gmap string RequestHandler)
    (request : McpRequest) (extra : Extra) : McpResponse :=
  let outcome :=
    match mcp_method request with
    | None => inl (ThrownError "Unknown method: undefined")
    | Some method =>
        match requestHandlers !! method with
        | None => inl (ThrownError (String.append "Unknown method: " method))
        | Some handler =>
            let normalizedRequest :=
              {| nr_method := method; nr_params := mcp_params request |} in
            handler normalizedRequest extra
        end
    end in
  match outcome with
  | inr result => McpResult result (default JNull (mcp_id request))
  | inl error =>
      McpError (-32603)
        match error with
        | ThrownError message => message
        | ThrownValue => "Unknown error"
        end
        (mcp_id request)
  end.

End MCP.

(** ** The rest of [config.ts] *)

Definition requiredEnvVars : list string :=
  [ "PRIVY_APP_ID"; "PRIVY_APP_SECRET"; "SERVER_BASE_URL";
    "JWT_PRIVATE_KEY"; "JWT_PUBLIC_KEY"; "PROTOCOL_API_URL" ].

(** The members of [config] that are texts of the environment; the
    port, the decoded keys and the numeric limits are left to the
    platform functions that compute them. *)
Record Config := {
  privy_appId : string;
  privy_appSecret : string;
  server_baseUrl : string;
  server_nodeEnv : string;
  jwt_issuer : string;
  jwt_algorithm : string;
  jwt_expiresIn : string + Z;
  oauth_authorizationEndpoint : string;
  oauth_tokenEndpoint : string;
  oauth_jwksEndpoint : string;
  oauth_registrationEndpoint : string;
  oauth_scopesSupported : list string;
  intentExtraction_protocolApiUrl : string
}.

(** Loading the module on [process.env]: the error thrown for the first
    required variable that is unset or empty, or the configuration. *)
Definition loadConfig (process_env : gmap string string) : string + Config :=
  match find (fun envVar => negb (truthy (process_env !! envVar)))
          requiredEnvVars with
  | Some envVar =>
      inl (String.append "Missing required environment variable: " envVar)
  | None =>
      let SERVER_BASE_URL := str (process_env !! "SERVER_BASE_URL") in
      inr {| privy_appId := str (process_env !! "PRIVY_APP_ID");
             privy_appSecret := str (process_env !! "PRIVY_APP_SECRET");
             server_baseUrl := SERVER_BASE_URL;
             server_nodeEnv :=
               if truthy (process_env !! "NODE_ENV")
               then str (process_env !! "NODE_ENV") else "development";
             jwt_issuer := SERVER_BASE_URL;
             jwt_algorithm := "RS256";
             jwt_expiresIn := config_jwt_expiresIn;
             oauth_authorizationEndpoint :=
               String.append SERVER_BASE_URL "/authorize";
             oauth_tokenEndpoint := String.append SERVER_BASE_URL "/token";
             oauth_jwksEndpoint :=
               String.append SERVER_BASE_URL "/.well-known/jwks.json";
             oauth_registrationEndpoint :=
               String.append SERVER_BASE_URL "/register";
             oauth_scopesSupported :=
               ["read"; "write"; "profile"; "privy:token:exchange"];
             intentExtraction_protocolApiUrl :=
               str (process_env !! "PROTOCOL_API_URL") |}
  end.

Definition isProduction (config : Config) : bool :=
  String.eqb (server_nodeEnv config) "production".

Definition isDevelopment (config : Config) : bool :=
  String.eqb (server_nodeEnv config) "development".

(** ** The sample deployment, continued *)

Module Scenario.

(** A stand-in for the draws of [randomBytes]. *)
Definition randomBytes (n : nat) : list Z :=
  map (fun i => (Z.of_nat i * 37 + 11) mod 256) (seq 0 n).

(** A code issued to the default client of the helpers, with the
    challenge of their PKCE pair. *)
Definition pkceCode : AuthorizationCode :=
  {| ac_clientId := "chatgpt-connector";
     ac_privyUserId := "did:privy:user-2";
     ac_privyToken := "privy-token-2";
     ac_scopes := ["read"];
     ac_codeChallenge := (generatePKCEPair randomBytes).2;
     ac_redirectUri :=
       "https://chat.openai.com/connector_platform_oauth_redirect";
     ac_expiresAt := 1030000;
     ac_used := false |}.

Definition store2 : Store :=
  {| authorizationCodes := {[ "code-2" := pkceCode ]};
     tokens := ∅;
     refreshTokens := ∅ |}.

(** The refresh-token record that [Sample.store1] holds under
    [refresh-1]. *)
Definition stored1 : RefreshTokenData :=
  {| rt_clientId := "chatgpt-connector";
     rt_privyUserId := "did:privy:user-1";
     rt_privyToken := "privy-token-1";
     rt_scopes := ["read"; "privy:token:exchange"];
     rt_expiresAt := 2593005001 |}.

(** A refresh request of another client for that token. *)
Definition refresh_other_client : Request :=
  {| grant_type := Some "refresh_token";
     client_id := Some "another-client";
     code := None;
     code_verifier := None;
     redirect_uri := None;
     refresh_token := Some "refresh-1";
     resource := None |}.

(** Thirty days and a second after the redemption. *)
Definition env_month : Env :=
  {| now_check := 2593006000; now_sign := 2593006000;
     now_token := 2593006000; now_refresh := 2593006000;
     new_refresh_token := "refresh-8" |}.

(** A stand-in for the guard of the exchange route: it lets a bearer
    token through when each scope asked for occurs in it (the sample
    signer lays the scopes out in the token). *)
Definition validateToken (requiredScopes : list string)
    (authHeader : option string) : Response + option string :=
  if negb (truthy authHeader)
     || negb (String.prefix "Bearer " (str authHeader)) then
    inl {| status := 401; body := ErrorOnly "invalid_token" |}
  else
    let token :=
      String.substring 7 (String.length (str authHeader) - 7)
        (str authHeader) in
    if forallb (fun scope => bool_decide (is_Some (String.index 0 scope token)))
         requiredScopes
    then inr (Some token)
    else inl {| status := 403; body := ErrorOnly "insufficient_scope" |}.

(** Stand-ins for the JSON and Base64 functions of the platform, which
    know the empty object only. *)
Definition stringify (j : Json) : string := "{}".

Definition parse (text : string) : option Json :=
  if String.eqb text "{}" then Some (JObject []) else None.

Definition utf8_of_base64 (base64 : string) : string :=
  if String.eqb base64 "e30=" then "{}" else "".

Definition testUser : FakePrivyUser :=
  {| fpu_userId := "did:privy:user-1"; fpu_appId := "test-app-id";
     fpu_token := "privy-token-1"; fpu_claims := None |}.

(** A Privy client that knows one token. *)
Definition privyClient (token : string) : Thrown + option Claims :=
  if String.eqb token "privy-token-1" then
    inr (Some {[ "userId" := JString "did:privy:user-1";
                 "appId" := JString "app-1" ]})
  else inl (ThrownError "invalid auth token").

(** A handler that echoes the params of the request. *)
Definition echo : RequestHandler unit :=
  fun request _ => inr (default JNull (nr_params request)).

Definition requestHandlers : gmap string (RequestHandler unit) :=
  {[ "tools/list" := echo ]}.

Definition process_env : gmap string string :=
  {[ "PRIVY_APP_ID" := "app-1";
     "PRIVY_APP_SECRET" := "secret-1";
     "SERVER_BASE_URL" := "https://mcp.example";
     "JWT_PRIVATE_KEY" := "cHJpdmF0ZQ==";
     "JWT_PUBLIC_KEY" := "cHVibGlj";
     "PROTOCOL_API_URL" := "https://protocol.example" ]}.

End Scenario.

(** * Properties *)

Arguments validatePKCE : simpl never.
Arguments generateCodeChallenge : simpl never.
Arguments truthy : simpl never.
Arguments is_str : simpl never.
Arguments str : simpl never.
Arguments join : simpl never.

Ltac unfold_handler :=
  unfold serve, tokenEndpoint, introspectEndpoint, privyAccessTokenEndpoint,
    tokenRoute, introspectRoute, privyAccessTokenRoute,
    handleAuthorizationCodeGrant, handleRefreshTokenGrant, issueAccessToken,
    getAuthorizationCode, deleteAuthorizationCode, getToken, storeToken,
    getRefreshToken, deleteRefreshToken, storeRefreshToken,
    run, bind, return_if, respond, ret, perform, read in *.

Ltac case_cond :=
  match goal with
  | |- context [if ?b then _ else _] => destruct b eqn:?
  | H : context [if ?b then _ else _] |- _ => destruct b eqn:?
  | |- context [match ?x with Some _ => _ | None => _ end] =>
      destruct x eqn:?
  | H : context [match ?x with Some _ => _ | None => _ end] |- _ =>
      destruct x eqn:?
  end.

(** Reduction of the handler combinators and of the projections, and
    nothing else: the maps and the strings stay as they are. *)
Ltac hred :=
  cbn beta iota zeta delta
    [fst snd out_store out_ops out_response body status success json
     oauth_error apply_op authorizationCodes tokens refreshTokens
     config_jwt_expiresIn apply_ops app fold_left negb orb andb] in *.

Ltac bool_hyps :=
  repeat match goal with
    | H : negb _ = false |- _ => apply negb_false_iff in H
    | H : negb _ = true |- _ => apply negb_true_iff in H
    | H : _ || _ = false |- _ => apply orb_false_elim in H; destruct H
    | H : _ && _ = true |- _ => apply andb_prop in H; destruct H
    end.

(** A goal about a six-bit value given as [Z.of_nat n] with [n < 64]:
    one case for each value. *)
Ltac each_sextet n :=
  do 64 (destruct n as [|n]; [reflexivity|]); lia.

(** Every branch of a handler, one goal each. *)
Ltac handler_cases := unfold_handler; hred; repeat (case_cond; hred).

Lemma truthy_Some (s : string) : s <> "" -> truthy (Some s) = true.
Proof.
  intros H. unfold truthy.
  destruct (String.eqb_spec s ""); [contradiction|reflexivity].
Qed.

Lemma is_str_eq (v : option string) (s : string) :
  is_str v s = true <-> v = Some s.
Proof.
  destruct v as [x|]; unfold is_str.
  - rewrite String.eqb_eq. split; congruence.
  - split; discriminate.
Qed.

Lemma is_str_Some (s : string) : is_str (Some s) s = true.
Proof. apply is_str_eq. reflexivity. Qed.

Lemma history_last (ops : list StoreOp) (st : Store) :
  last (history st ops) = Some (apply_ops ops st).
Proof.
  revert st. induction ops as [|op ops IH]; intros st; [reflexivity|].
  change (history st (op :: ops)) with (st :: history (apply_op op st) ops).
  rewrite last_cons, IH. reflexivity.
Qed.

(** *** The handler combinators *)

Lemma bind_ret {A B} (a : A) (k : A -> Handler B) w :
  bind (ret a) k w = k a w.
Proof. reflexivity. Qed.

(** A response that has been sent ends the handler. *)
Lemma bind_respond {A B} (r : Response) (k : A -> Handler B) w :
  bind (respond r) k w = (w, inl r).
Proof. reflexivity. Qed.

Lemma bind_bind {A B C} (m : Handler A) (k : A -> Handler B)
    (h : B -> Handler C) w :
  bind (bind m k) h w = bind m (fun a => bind (k a) h) w.
Proof. unfold bind. destruct (m w) as [w' [r|a]]; reflexivity. Qed.

Lemma bind_perform {B} (op : StoreOp) (k : unit -> Handler B) st log :
  bind (perform op) k (st, log) = k tt (apply_op op st, log ++ [op]).
Proof. reflexivity. Qed.

Section Properties.

Variable baseUrl : string.
Variable jwt_sign : JwtClaims -> Z -> string.
Variable jws_verify : string -> option JwtPayload.

Local Abbreviation tokenEndpoint := (tokenEndpoint baseUrl jwt_sign).
Local Abbreviation serve := (serve baseUrl jwt_sign jws_verify).
Local Abbreviation serve_all := (serve_all baseUrl jwt_sign jws_verify).

(** *** The log and the store agree *)

Lemma token_store_ops env req st :
  out_store (tokenEndpoint env req st) =
  apply_ops (out_ops (tokenEndpoint env req st)) st.
Proof. handler_cases; reflexivity. Qed.

Lemma token_history_last env req st :
  last (history st (out_ops (tokenEndpoint env req st))) =
  Some (out_store (tokenEndpoint env req st)).
Proof. rewrite history_last, <- token_store_ops. reflexivity. Qed.

(** *** Dispatch on [client_id] and [grant_type] *)

Lemma missing_client_id env req st :
  truthy (client_id req) = false ->
  tokenEndpoint env req st =
    {| out_store := st; out_ops := [];
       out_response :=
         oauth_error "invalid_request"
           "Missing required parameter: client_id" |}.
Proof. intros H. unfold_handler. rewrite H. reflexivity. Qed.

Lemma unsupported_grant env req st :
  truthy (client_id req) = true ->
  is_str (grant_type req) "authorization_code" = false ->
  is_str (grant_type req) "refresh_token" = false ->
  tokenEndpoint env req st =
    {| out_store := st; out_ops := [];
       out_response :=
         oauth_error "unsupported_grant_type"
           (String.append "Unsupported grant_type: "
              (default "undefined" (grant_type req))) |}.
Proof. intros Hc H1 H2. unfold_handler. rewrite Hc, H1, H2. reflexivity. Qed.

(** *** The authorization_code grant *)

(** A successful answer to an authorization_code grant request: what
    was checked, and what was done. *)
Lemma redeem_success env req st :
  is_str (grant_type req) "authorization_code" = true ->
  success (out_response (tokenEndpoint env req st)) = true ->
  exists authCode,
    authorizationCodes st !! str (code req) = Some authCode /\
    truthy (client_id req) = true /\
    truthy (code req) = true /\
    truthy (code_verifier req) = true /\
    ac_used authCode = false /\
    (ac_expiresAt authCode <? now_check env) = false /\
    is_str (client_id req) (ac_clientId authCode) = true /\
    validatePKCE (str (code_verifier req)) (ac_codeChallenge authCode) = true /\
    let accessToken :=
      jwt_sign {| jc_sub := ac_privyUserId authCode;
                  jc_scope := join " " (ac_scopes authCode);
                  jc_aud := if truthy (resource req) then str (resource req)
                            else baseUrl;
                  jc_client_id := str (client_id req) |} (now_sign env) in
    out_ops (tokenEndpoint env req st) =
      [ OpDeleteAuthorizationCode (str (code req));
        OpStoreToken accessToken
          {| td_clientId := str (client_id req);
             td_privyUserId := ac_privyUserId authCode;
             td_privyToken := ac_privyToken authCode;
             td_scopes := ac_scopes authCode;
             td_expiresAt := now_token env + 3600 * 1000 |};
        OpStoreRefreshToken (new_refresh_token env)
          {| rt_clientId := str (client_id req);
             rt_privyUserId := ac_privyUserId authCode;
             rt_privyToken := ac_privyToken authCode;
             rt_scopes := ac_scopes authCode;
             rt_expiresAt := now_refresh env + REFRESH_TOKEN_TTL_MS |} ] /\
    out_response (tokenEndpoint env req st) =
      json (TokenBody accessToken (new_refresh_token env) "Bearer" 3600
              (join " " (ac_scopes authCode))).
Proof.
  intros Hg Hs. revert Hs. unfold_handler. rewrite Hg. hred.
  repeat (case_cond; hred); try discriminate.
  all: intros _; bool_hyps; eexists; repeat split; eauto.
Qed.

Lemma redemption_fields req c :
  is_redemption req c ->
  truthy (client_id req) = true /\
  is_str (grant_type req) "authorization_code" = true /\
  truthy (code req) = true /\ str (code req) = c /\
  truthy (code_verifier req) = true.
Proof.
  intros (Hc & Hg & Hcode & Hne & Hv). rewrite Hg, Hcode.
  repeat split; auto using truthy_Some.
Qed.

(** An authorization_code grant request for a code that is not in the
    store. *)
Lemma redeem_unknown_code env req st c :
  is_redemption req c ->
  authorizationCodes st !! c = None ->
  tokenEndpoint env req st =
    {| out_store := st; out_ops := [];
       out_response :=
         oauth_error "invalid_grant" "Invalid or expired authorization code" |}.
Proof.
  intros Hreq Hnone.
  destruct (redemption_fields _ _ Hreq) as (Hc & Hg & Hcode & Hstr & Hv).
  unfold_handler. rewrite Hc, Hg, Hcode, Hv, Hstr. hred. rewrite Hnone.
  reflexivity.
Qed.

(** The token endpoint never adds or rewrites an authorization code: it
    leaves the collection alone or deletes the presented code. *)
Lemma token_codes env req st :
  authorizationCodes (out_store (tokenEndpoint env req st)) =
    authorizationCodes st \/
  authorizationCodes (out_store (tokenEndpoint env req st)) =
    delete (str (code req)) (authorizationCodes st).
Proof. handler_cases; auto. Qed.

Lemma serve_codes call st (k : string) :
  authorizationCodes st !! k = None ->
  authorizationCodes (out_store (serve call st)) !! k = None.
Proof.
  intros Hk. destruct call as [env req|token now|oauthToken].
  - change (serve (CallToken env req) st) with (tokenEndpoint env req st).
    destruct (token_codes env req st) as [-> | ->]; [exact Hk|].
    rewrite lookup_delete_None. auto.
  - handler_cases; exact Hk.
  - handler_cases; exact Hk.
Qed.

Lemma serve_all_codes calls st (k : string) :
  authorizationCodes st !! k = None ->
  authorizationCodes (serve_all calls st) !! k = None.
Proof.
  revert st. induction calls as [|call calls IH]; intros st Hk; [exact Hk|].
  apply IH, serve_codes, Hk.
Qed.

(** After a successful redemption the code is gone from the store, and
    no other code is touched. *)
Lemma redeem_deletes_code env req st :
  is_str (grant_type req) "authorization_code" = true ->
  success (out_response (tokenEndpoint env req st)) = true ->
  authorizationCodes (out_store (tokenEndpoint env req st)) =
    delete (str (code req)) (authorizationCodes st).
Proof.
  intros Hg Hs.
  destruct (redeem_success env req st Hg Hs) as (authCode & _ & _ & _ & _ & _ & _ & _ & _ & Hops & _).
  rewrite token_store_ops, Hops. reflexivity.
Qed.

(** C1. An authorization code that has been redeemed successfully cannot
    be redeemed again: whatever calls the server has served in between,
    a later authorization_code grant request presenting the same code is
    answered with the error invalid_grant and changes nothing, and no
    authorization_code grant request naming that code, well formed or
    not, is answered with a token. *)
Theorem C1_code_single_use env1 req1 st c calls env2 req2 :
  is_redemption req1 c ->
  success (out_response (tokenEndpoint env1 req1 st)) = true ->
  let st1 := out_store (tokenEndpoint env1 req1 st) in
  let second := tokenEndpoint env2 req2 (serve_all calls st1) in
  (is_redemption req2 c ->
   fails_with "invalid_grant" (out_response second) /\
   out_ops second = []) /\
  (grant_type req2 = Some "authorization_code" -> code req2 = Some c ->
   success (out_response second) = false).
Proof.
  intros H1 Hs st1 second.
  destruct (redemption_fields _ _ H1) as (_ & Hg & _ & Hstr & _).
  assert (Hgone : authorizationCodes (serve_all calls st1) !! c = None).
  { apply serve_all_codes. subst st1.
    rewrite (redeem_deletes_code _ _ _ Hg Hs), Hstr.
    apply lookup_delete_eq. }
  split.
  - intros H2. subst second. rewrite (redeem_unknown_code _ _ _ _ H2 Hgone).
    split; [eexists|]; reflexivity.
  - intros Hg2 Hc2.
    destruct (success (out_response second)) eqn:Hs2; [|reflexivity].
    apply is_str_eq in Hg2.
    destruct (redeem_success _ _ _ Hg2 Hs2) as (authCode & Hlook & _).
    rewrite Hc2 in Hlook. change (str (Some c)) with c in Hlook.
    rewrite Hgone in Hlook. discriminate.
Qed.

(** The conditions under which a redemption succeeds. *)
Lemma redeem_valid_code env req st c authCode :
  is_redemption req c ->
  authorizationCodes st !! c = Some authCode ->
  ac_used authCode = false ->
  now_check env <= ac_expiresAt authCode ->
  client_id req = Some (ac_clientId authCode) ->
  (truthy (redirect_uri req) = true ->
   redirect_uri req = Some (ac_redirectUri authCode)) ->
  validatePKCE (str (code_verifier req)) (ac_codeChallenge authCode) = true ->
  success (out_response (tokenEndpoint env req st)) = true.
Proof.
  intros Hreq Hlook Hused Hexp Hclient Hredir Hpkce.
  destruct (redemption_fields _ _ Hreq) as (Hc & Hg & Hcode & Hstr & Hv).
  assert (Hlt : (ac_expiresAt authCode <? now_check env) = false)
    by (apply Z.ltb_ge; exact Hexp).
  assert (Hr : truthy (redirect_uri req)
               && negb (is_str (redirect_uri req) (ac_redirectUri authCode))
               = false).
  { destruct (truthy (redirect_uri req)); [|reflexivity].
    rewrite (Hredir eq_refl), is_str_Some. reflexivity. }
  assert (Hcm : is_str (client_id req) (ac_clientId authCode) = true)
    by (rewrite Hclient; apply is_str_Some).
  unfold_handler. rewrite Hc, Hg, Hcode, Hv, Hstr. hred.
  rewrite Hlook, Hused. hred. rewrite Hlt. hred.
  rewrite Hcm. hred.
  rewrite Hr. hred. rewrite Hpkce. hred. reflexivity.
Qed.

(** No call to the router changes a stored authorization code: a code
    found in the store after a run was there before it, with the same
    record. *)
Lemma serve_codes_kept call st (k : string) authCode :
  authorizationCodes (out_store (serve call st)) !! k = Some authCode ->
  authorizationCodes st !! k = Some authCode.
Proof.
  destruct call as [env req|token now|oauthToken].
  - change (serve (CallToken env req) st) with (tokenEndpoint env req st).
    destruct (token_codes env req st) as [-> | ->]; [auto|].
    intros [_ H]%lookup_delete_Some. exact H.
  - handler_cases; auto.
  - handler_cases; auto.
Qed.

Lemma serve_all_codes_kept calls st (k : string) authCode :
  authorizationCodes (serve_all calls st) !! k = Some authCode ->
  authorizationCodes st !! k = Some authCode.
Proof.
  revert st. induction calls as [|call calls IH]; intros st H; [exact H|].
  eapply serve_codes_kept, IH, H.
Qed.

(** The step the spec describes does mark the code and delete it, and it
    leaves the store that the deletion alone leaves. *)
Lemma spec_mark_and_delete_marks (c : string) st :
  used_flag c st = Some false ->
  marked_used_and_deleted c st (spec_mark_and_delete c).
Proof.
  unfold marked_used_and_deleted, used_flag, spec_mark_and_delete.
  intros H. split; [exact H|].
  destruct (authorizationCodes st !! c) as [authCode|] eqn:E; [|discriminate].
  cbn [history]. hred. cbn [map]. hred. split.
  - right. left. rewrite lookup_alter_eq, E. reflexivity.
  - rewrite lookup_delete_eq. reflexivity.
Qed.

Lemma spec_mark_and_delete_store (c : string) st :
  authorizationCodes
    (apply_ops (spec_mark_and_delete c) st) =
  delete c (authorizationCodes st).
Proof.
  unfold spec_mark_and_delete. hred.
  apply map_eq. intros k. destruct (decide (c = k)) as [->|Hne].
  - rewrite !lookup_delete_eq. reflexivity.
  - rewrite !lookup_delete_ne, lookup_alter_ne by exact Hne. reflexivity.
Qed.

(** C2 (as amended). A successful redemption deletes the code from the
    store and touches no other code; it does not set the [used] flag:
    the record is unused when the request starts and is absent from
    every store the request goes through after the deletion, so the flag
    is never seen set.  The code collection it leaves is the one that
    marking the code and deleting it would leave.  No call to the router
    ever changes a stored code, so the flag of a stored code never goes
    from false to true. *)
Theorem C2_redeem_deletes_without_marking env req st c :
  is_redemption req c ->
  success (out_response (tokenEndpoint env req st)) = true ->
  let o := tokenEndpoint env req st in
  used_flag c st = Some false /\
  (exists accessToken td rt,
     out_ops o = [ OpDeleteAuthorizationCode c;
                   OpStoreToken accessToken td;
                   OpStoreRefreshToken (new_refresh_token env) rt ]) /\
  authorizationCodes (out_store o) = delete c (authorizationCodes st) /\
  used_flag c (out_store o) = None /\
  Forall (fun s => used_flag c s <> Some true) (history st (out_ops o)) /\
  ~ marked_used_and_deleted c st (out_ops o) /\
  authorizationCodes (out_store o) =
    authorizationCodes
      (apply_ops (spec_mark_and_delete c) st) /\
  (forall calls st0 (k : string),
     used_flag k st0 = Some false ->
     used_flag k (serve_all calls st0) <> Some true).
Proof.
  intros Hreq Hs o.
  destruct (redemption_fields _ _ Hreq) as (_ & Hg & _ & Hstr & _).
  destruct (redeem_success env req st Hg Hs)
    as (authCode & Hlook & _ & _ & _ & Hused & _ & _ & _ & Hops & _).
  rewrite Hstr in Hlook, Hops.
  assert (Hdel : authorizationCodes (out_store o) = delete c (authorizationCodes st)).
  { subst o. rewrite (redeem_deletes_code _ _ _ Hg Hs), Hstr. reflexivity. }
  assert (Hgone : used_flag c (out_store o) = None).
  { unfold used_flag. rewrite Hdel, lookup_delete_eq. reflexivity. }
  assert (Hnever : Forall (fun s => used_flag c s <> Some true)
                     (history st (out_ops o))).
  { subst o. rewrite Hops. cbn [history]. hred.
    repeat constructor; unfold used_flag; hred;
      rewrite ?lookup_delete_eq, ?Hlook; simpl; congruence. }
  split; [|split; [|split; [|split; [|split; [|split; [|split]]]]]].
  - unfold used_flag. rewrite Hlook. simpl. rewrite Hused. reflexivity.
  - eauto.
  - exact Hdel.
  - exact Hgone.
  - exact Hnever.
  - intros (_ & Hin & _). apply List.in_map_iff in Hin as (s & Hs1 & Hs2).
    apply (proj1 (List.Forall_forall _ _) Hnever s Hs2). exact Hs1.
  - rewrite spec_mark_and_delete_store. exact Hdel.
  - intros calls st0 k. unfold used_flag.
    destruct (authorizationCodes (serve_all calls st0) !! k) as [ac|] eqn:E;
      [|discriminate].
    rewrite (serve_all_codes_kept _ _ _ _ E). simpl. congruence.
Qed.

(** C3. A redemption of a stored code whose [expiresAt] lies before the
    current time fails with invalid_grant, and issues no access token
    and no refresh token.  What becomes of the code depends on its
    [used] flag, which is tested first.  A code that is not marked used
    is refused as expired, and handling the failure deletes it, which
    is the only change to the store.  A code that is marked used is
    refused as already used, before the expiry is looked at: nothing is
    deleted, and the expired code stays in the store. *)
Theorem C3_expired_code env req st c authCode :
  is_redemption req c ->
  authorizationCodes st !! c = Some authCode ->
  ac_expiresAt authCode < now_check env ->
  let o := tokenEndpoint env req st in
  fails_with "invalid_grant" (out_response o) /\
  success (out_response o) = false /\
  tokens (out_store o) = tokens st /\
  refreshTokens (out_store o) = refreshTokens st /\
  (ac_used authCode = false ->
   out_response o =
     oauth_error "invalid_grant" "Authorization code has expired" /\
   out_ops o = [OpDeleteAuthorizationCode c] /\
   authorizationCodes (out_store o) = delete c (authorizationCodes st) /\
   authorizationCodes (out_store o) !! c = None) /\
  (ac_used authCode = true ->
   out_response o =
     oauth_error "invalid_grant" "Authorization code has already been used" /\
   out_ops o = [] /\
   out_store o = st /\
   authorizationCodes (out_store o) !! c = Some authCode).
Proof.
  intros Hreq Hlook Hexp o.
  destruct (redemption_fields _ _ Hreq) as (Hc & Hg & Hcode & Hstr & Hv).
  apply Z.ltb_lt in Hexp.
  subst o. unfold_handler. rewrite Hc, Hg, Hcode, Hv, Hstr. hred.
  rewrite Hlook. destruct (ac_used authCode); hred.
  - split; [eexists; reflexivity|]. do 3 (split; [reflexivity|]).
    split; [discriminate|]. intros _.
    do 3 (split; [reflexivity|]). exact Hlook.
  - rewrite Hexp. hred.
    split; [eexists; reflexivity|]. do 3 (split; [reflexivity|]).
    split; [|discriminate]. intros _.
    do 3 (split; [reflexivity|]). apply lookup_delete_eq.
Qed.

(** *** The refresh_token grant *)

Lemma refresh_fields req r :
  is_refresh req r ->
  truthy (client_id req) = true /\
  is_str (grant_type req) "authorization_code" = false /\
  is_str (grant_type req) "refresh_token" = true /\
  truthy (refresh_token req) = true /\ str (refresh_token req) = r.
Proof.
  intros (Hc & Hg & Hr & Hne). rewrite Hg, Hr.
  repeat split; auto using truthy_Some.
Qed.

(** A successful answer to a refresh_token grant request: what was
    checked, and what was done. *)
Lemma refresh_success env req st :
  is_str (grant_type req) "authorization_code" = false ->
  success (out_response (tokenEndpoint env req st)) = true ->
  exists stored,
    refreshTokens st !! str (refresh_token req) = Some stored /\
    is_str (grant_type req) "refresh_token" = true /\
    truthy (client_id req) = true /\
    truthy (refresh_token req) = true /\
    is_str (client_id req) (rt_clientId stored) = true /\
    (rt_expiresAt stored <? now_check env) = false /\
    let accessToken :=
      jwt_sign {| jc_sub := rt_privyUserId stored;
                  jc_scope := join " " (rt_scopes stored);
                  jc_aud := if truthy (resource req) then str (resource req)
                            else baseUrl;
                  jc_client_id := rt_clientId stored |} (now_sign env) in
    out_ops (tokenEndpoint env req st) =
      [ OpDeleteRefreshToken (str (refresh_token req));
        OpStoreRefreshToken (new_refresh_token env)
          {| rt_clientId := rt_clientId stored;
             rt_privyUserId := rt_privyUserId stored;
             rt_privyToken := rt_privyToken stored;
             rt_scopes := rt_scopes stored;
             rt_expiresAt := now_refresh env + REFRESH_TOKEN_TTL_MS |};
        OpStoreToken accessToken
          {| td_clientId := rt_clientId stored;
             td_privyUserId := rt_privyUserId stored;
             td_privyToken := rt_privyToken stored;
             td_scopes := rt_scopes stored;
             td_expiresAt := now_token env + 3600 * 1000 |} ] /\
    out_response (tokenEndpoint env req st) =
      json (TokenBody accessToken (new_refresh_token env) "Bearer" 3600
              (join " " (rt_scopes stored))).
Proof.
  intros Hg Hs. revert Hs. unfold_handler. rewrite Hg. hred.
  repeat (case_cond; hred); try discriminate.
  all: intros _; bool_hyps; eexists; repeat split; eauto.
Qed.


(** A refresh token that is stored, presented by its client and not
    past its expiry is redeemed. *)
Lemma refresh_valid_token env req st r stored :
  is_refresh req r ->
  refreshTokens st !! r = Some stored ->
  client_id req = Some (rt_clientId stored) ->
  now_check env <= rt_expiresAt stored ->
  success (out_response (tokenEndpoint env req st)) = true.
Proof.
  intros Hreq Hlook Hcl Hexp.
  destruct (refresh_fields _ _ Hreq) as (Hc & Hg1 & Hg2 & Hr & Hstr).
  assert (Hcm : is_str (client_id req) (rt_clientId stored) = true)
    by (apply is_str_eq; exact Hcl).
  apply Z.ltb_ge in Hexp.
  unfold_handler. rewrite Hc, Hg1, Hg2, Hr, Hstr. hred.
  rewrite Hlook. hred. rewrite Hcm. hred. rewrite Hexp. hred.
  reflexivity.
Qed.





(** C5. Whichever grant succeeds, the access-token record filed under
    the returned access token and the refresh-token record filed under
    the returned refresh token both hold the identity token of the
    consumed authorization code or refresh token, unchanged. *)
Theorem C5_identity_token_carried env req st
    (accessToken refreshToken tokenType : string) (expiresIn : Z)
    (scope : string) :
  let o := tokenEndpoint env req st in
  body (out_response o) =
    TokenBody accessToken refreshToken tokenType expiresIn scope ->
  exists privyToken,
    consumed_privyToken req st = Some privyToken /\
    td_privyToken <$> (tokens (out_store o) !! accessToken)
      = Some privyToken /\
    rt_privyToken <$> (refreshTokens (out_store o) !! refreshToken)
      = Some privyToken /\
    (forall k : string, k <> accessToken ->
       tokens (out_store o) !! k = tokens st !! k) /\
    (forall k : string, k <> refreshToken ->
       refreshTokens (out_store o) !! k = refreshTokens st !! k \/
       refreshTokens (out_store o) !! k = None).
Proof.
  intros o Hbody.
  assert (Hs : success (out_response o) = true)
    by (unfold success; rewrite Hbody; reflexivity).
  assert (Hst : out_store o =
                apply_ops (out_ops o) st)
    by apply token_store_ops.
  unfold consumed_privyToken.
  destruct (is_str (grant_type req) "authorization_code") eqn:Hg.
  - destruct (redeem_success env req st Hg Hs)
      as (authCode & Hlook & _ & _ & _ & _ & _ & _ & _ & Hops & Hresp).
    fold o in Hops, Hresp. rewrite Hresp in Hbody. hred.
    injection Hbody as <- <- _ _ _.
    rewrite Hops in Hst. hred. rewrite Hst. hred.
    exists (ac_privyToken authCode).
    rewrite Hlook, !lookup_insert_eq. repeat split; auto.
    + intros k Hk. apply lookup_insert_ne. auto.
    + intros k Hk. left. apply lookup_insert_ne. auto.
  - destruct (refresh_success env req st Hg Hs)
      as (stored & Hlook & _ & _ & _ & _ & _ & Hops & Hresp).
    fold o in Hops, Hresp. rewrite Hresp in Hbody. hred.
    injection Hbody as <- <- _ _ _.
    rewrite Hops in Hst. hred. rewrite Hst. hred.
    exists (rt_privyToken stored).
    rewrite Hlook, !lookup_insert_eq. repeat split; auto.
    + intros k Hk. apply lookup_insert_ne. auto.
    + intros k Hk. rewrite lookup_insert_ne by auto.
      destruct (decide (str (refresh_token req) = k)) as [->|Hne].
      * right. apply lookup_delete_eq.
      * left. apply lookup_delete_ne. exact Hne.
Qed.

(** Over any run, through arbitrarily many rotations, the identity
    tokens in the store are identity tokens the store held at the start:
    the token router never makes one up and never alters one. *)
Lemma token_identity env req st p :
  holds_identity (out_store (tokenEndpoint env req st)) p ->
  holds_identity st p.
Proof.
  unfold holds_identity. handler_cases; try tauto.
  all: intros [(k & rec & H & E) | [(k & rec & H & E) | (k & rec & H & E)]].
  all: repeat match goal with
         | H : <[_:=_]> _ !! _ = Some _ |- _ =>
             apply lookup_insert_Some in H as [[<- <-] | [_ H]]
         | H : delete _ _ !! _ = Some _ |- _ =>
             apply lookup_delete_Some in H as [_ H]
         end.
  all: cbn in E; eauto 10.
Qed.

Lemma serve_identity call st p :
  holds_identity (out_store (serve call st)) p -> holds_identity st p.
Proof.
  destruct call as [env req|token now|oauthToken].
  - apply token_identity.
  - handler_cases; auto.
  - handler_cases; auto.
Qed.

Lemma serve_all_identity calls st p :
  holds_identity (serve_all calls st) p -> holds_identity st p.
Proof.
  revert st. induction calls as [|call calls IH]; intros st H; [exact H|].
  eapply serve_identity, IH, H.
Qed.

(** C8. Every successful answer of the token endpoint, for either
    grant, has status 200 and the body [{access_token, refresh_token,
    token_type: "Bearer", expires_in: 3600, scope}], where [scope] is the
    stored scope list of the consumed credential joined by single
    spaces; the refresh-token record filed under the returned refresh
    token expires 30 days (2592000000 ms) after the clock reading taken
    when it is filed, and the access-token record 3600 seconds after
    its own. *)
Theorem C8_token_response_shape env req st :
  let o := tokenEndpoint env req st in
  success (out_response o) = true ->
  exists accessToken refreshToken scopes td rt,
    consumed_scopes req st = Some scopes /\
    out_response o =
      {| status := 200;
         body := TokenBody accessToken refreshToken "Bearer" 3600
                   (String.concat " " scopes) |} /\
    refreshTokens (out_store o) !! refreshToken = Some rt /\
    rt_expiresAt rt = now_refresh env + 2592000000 /\
    rt_scopes rt = scopes /\
    tokens (out_store o) !! accessToken = Some td /\
    td_expiresAt td = now_token env + 3600 * 1000 /\
    td_scopes td = scopes.
Proof.
  intros o Hs.
  assert (Hst : out_store o =
                apply_ops (out_ops o) st)
    by apply token_store_ops.
  unfold consumed_scopes.
  destruct (is_str (grant_type req) "authorization_code") eqn:Hg.
  - destruct (redeem_success env req st Hg Hs)
      as (authCode & Hlook & _ & _ & _ & _ & _ & _ & _ & Hops & Hresp).
    fold o in Hops, Hresp. rewrite Hops in Hst. hred.
    rewrite Hresp, Hst, Hlook. hred.
    do 5 eexists. split; [reflexivity|]. split; [reflexivity|].
    rewrite !lookup_insert_eq. repeat split.
  - destruct (refresh_success env req st Hg Hs)
      as (stored & Hlook & _ & _ & _ & _ & _ & Hops & Hresp).
    fold o in Hops, Hresp. rewrite Hops in Hst. hred.
    rewrite Hresp, Hst, Hlook. hred.
    do 5 eexists. split; [reflexivity|]. split; [reflexivity|].
    rewrite !lookup_insert_eq. repeat split.
Qed.

(** *** The Privy token exchange and the introspection routes *)

(** C6. Called with the access token of an authenticated caller, the
    identity bridge answers from the access-token collection alone: when
    the token is a key of the collection, with the stored identity token
    as it is, its expiry, subject and scopes; when it is not, with the
    404 error token_not_found, which carries no identity token.  The
    store is left as it was. *)
Theorem C6_identity_bridge (oauthToken : string) st :
  oauthToken <> "" ->
  let o := privyAccessTokenEndpoint (Some oauthToken) st in
  out_store o = st /\ out_ops o = [] /\
  (forall tokenData, tokens st !! oauthToken = Some tokenData ->
     out_response o =
       {| status := 200;
          body := PrivyBody (td_privyToken tokenData) (td_expiresAt tokenData)
                    None (td_privyUserId tokenData) (td_scopes tokenData) |}) /\
  (tokens st !! oauthToken = None ->
     out_response o = {| status := 404; body := ErrorOnly "token_not_found" |}).
Proof.
  intros Hne o. subst o. unfold_handler.
  rewrite (truthy_Some _ Hne). hred.
  change (str (Some oauthToken)) with oauthToken.
  destruct (tokens st !! oauthToken) as [td|]; hred.
  - repeat split; [|discriminate].
    intros tokenData [= <-]. reflexivity.
  - repeat split. discriminate.
Qed.

(** C9. The introspection route answers [{active: true, sub, scope,
    client_id, exp, iat, iss, aud}] with the claims of the token when a
    token is presented whose signature verifies against the public key,
    whose issuer is this server and which has not expired; for every
    other presented value the body is [{active: false}], with status 200
    or 400, never a 5xx.  The store is left as it was. *)
Theorem C9_introspection (token : option string) (now : Z) st :
  let o := introspectEndpoint baseUrl jws_verify token now st in
  out_store o = st /\ out_ops o = [] /\
  (forall p,
     truthy token = true ->
     jws_verify (str token) = Some p ->
     jp_iss p = baseUrl ->
     now / 1000 < jp_exp p ->
     out_response o =
       {| status := 200;
          body := ActiveBody (jp_sub p) (jp_scope p) (jp_client_id p)
                    (jp_exp p) (jp_iat p) (jp_iss p) (jp_aud p) |}) /\
  (~ (truthy token = true /\
      exists p, jws_verify (str token) = Some p /\
                jp_iss p = baseUrl /\ now / 1000 < jp_exp p) ->
     body (out_response o) = InactiveBody /\
     (status (out_response o) = 200 \/ status (out_response o) = 400) /\
     status (out_response o) < 500).
Proof.
  intros o. subst o. unfold_handler. unfold jwt_verify.
  destruct (truthy token) eqn:Ht; hred.
  - destruct (jws_verify (str token)) as [p|] eqn:Hv.
    + destruct (Z.leb_spec (jp_exp p) (now / 1000)) as [Hexp|Hexp];
        [|destruct (String.eqb_spec (jp_iss p) baseUrl) as [Hiss|Hiss]]; hred.
      * split; [reflexivity|]. split; [reflexivity|]. split.
        -- intros q _ [= <-] _ Hlt. lia.
        -- intros _. repeat split; auto; lia.
      * split; [reflexivity|]. split; [reflexivity|]. split.
        -- intros q _ [= <-] _ _. reflexivity.
        -- intros Hno. exfalso. apply Hno. eauto.
      * split; [reflexivity|]. split; [reflexivity|]. split.
        -- intros q _ [= <-] Hq. contradiction.
        -- intros _. repeat split; auto; lia.
    + hred. split; [reflexivity|]. split; [reflexivity|]. split.
      * intros q _ [=].
      * intros _. repeat split; auto; lia.
  - split; [reflexivity|]. split; [reflexivity|]. split.
    + intros q [=].
    + intros _. repeat split; auto; lia.
Qed.

(** *** Dispatch *)

(** C10. A request without a client_id is answered invalid_request
    whatever its grant_type; a request with a client_id whose grant_type
    is neither authorization_code nor refresh_token, or is absent, is
    answered unsupported_grant_type.  Neither touches the store. *)
Theorem C10_dispatch env req st :
  let o := tokenEndpoint env req st in
  (truthy (client_id req) = false ->
     o = {| out_store := st; out_ops := [];
            out_response :=
              oauth_error "invalid_request"
                "Missing required parameter: client_id" |}) /\
  (truthy (client_id req) = true ->
   grant_type req <> Some "authorization_code" ->
   grant_type req <> Some "refresh_token" ->
     fails_with "unsupported_grant_type" (out_response o) /\
     out_store o = st /\ out_ops o = []).
Proof.
  intros o. split.
  - apply missing_client_id.
  - intros Hc H1 H2. subst o.
    rewrite unsupported_grant; auto.
    + repeat split. eexists. reflexivity.
    + destruct (is_str (grant_type req) "authorization_code") eqn:E; auto.
      apply is_str_eq in E. contradiction.
    + destruct (is_str (grant_type req) "refresh_token") eqn:E; auto.
      apply is_str_eq in E. contradiction.
Qed.

End Properties.

(** ** PKCE *)

(** *** The digest is 32 bytes *)

Lemma be_bytes_length n x : length (Sha256.be_bytes n x) = n.
Proof.
  unfold Sha256.be_bytes. rewrite List.length_map, List.length_rev.
  apply List.length_seq.
Qed.

Lemma be_bytes_range n x : List.Forall is_byte (Sha256.be_bytes n x).
Proof.
  unfold Sha256.be_bytes. apply List.Forall_forall. intros b Hb.
  apply List.in_map_iff in Hb as (i & <- & _).
  apply Z.mod_pos_bound. lia.
Qed.

Lemma sha256_length s : length (Sha256.sha256 s) = 32%nat.
Proof.
  unfold Sha256.sha256, Sha256.digest_bytes. cbn [flat_map].
  rewrite !List.length_app, !be_bytes_length. reflexivity.
Qed.

Lemma sha256_range s : List.Forall is_byte (Sha256.sha256 s).
Proof.
  unfold Sha256.sha256, Sha256.digest_bytes. cbn [flat_map].
  repeat (apply List.Forall_app; split); auto using be_bytes_range.
Qed.

(** *** [base64UrlEncode] is the unpadded URL-safe encoding *)

Lemma list_ind3 {A} (P : list A -> Prop) :
  P [] -> (forall a, P [a]) -> (forall a b, P [a; b]) ->
  (forall a b c l, P l -> P (a :: b :: c :: l)) ->
  forall l, P l.
Proof.
  intros H0 H1 H2 H3. fix IH 1.
  intros [|a [|b [|c l]]];
    [exact H0 | apply H1 | apply H2 | apply H3, IH].
Qed.

Lemma sextet_cases (P : Z -> Prop) :
  (forall n, (n < 64)%nat -> P (Z.of_nat n)) ->
  forall i, 0 <= i < 64 -> P i.
Proof.
  intros H i Hi. rewrite <- (Z2Nat.id i) by lia. apply H. lia.
Qed.

Lemma replace_char i s :
  0 <= i < 64 ->
  Base64.replace "=" "" (Base64.replace "/" "_" (Base64.replace "+" "-"
    (String (Base64.char i) s))) =
  String (Base64.url_char i)
    (Base64.replace "=" "" (Base64.replace "/" "_" (Base64.replace "+" "-" s))).
Proof.
  revert i. apply (sextet_cases (fun i => _ = _)). intros n Hn.
  each_sextet n.
Qed.

Lemma url_value_char i : 0 <= i < 64 -> Base64.url_value (Base64.url_char i) = i.
Proof.
  revert i. apply (sextet_cases (fun i => _ = _)). intros n Hn.
  each_sextet n.
Qed.

Lemma url_char_inj i j :
  0 <= i < 64 -> 0 <= j < 64 ->
  Base64.url_char i = Base64.url_char j -> i = j.
Proof.
  intros Hi Hj H. rewrite <- (url_value_char i Hi), <- (url_value_char j Hj), H.
  reflexivity.
Qed.

(** The four six-bit values of a group of three bytes. *)
Lemma sextets_range b0 b1 b2 :
  is_byte b0 -> is_byte b1 -> is_byte b2 ->
  0 <= b0 / 4 < 64 /\
  0 <= b0 mod 4 * 16 + b1 / 16 < 64 /\
  0 <= b1 mod 16 * 4 + b2 / 64 < 64 /\
  0 <= b2 mod 64 < 64 /\
  0 <= b0 mod 4 * 16 < 64 /\
  0 <= b1 mod 16 * 4 < 64.
Proof. unfold is_byte. intros. Z.div_mod_to_equations. lia. Qed.

Lemma base64UrlEncode_encode_url bs :
  List.Forall is_byte bs -> Base64.base64UrlEncode bs = Base64.encode_url bs.
Proof.
  unfold Base64.base64UrlEncode.
  induction bs as [|b0|b0 b1|b0 b1 b2 rest IH] using list_ind3; intros Hb.
  - reflexivity.
  - apply List.Forall_cons_iff in Hb as [H0 _].
    destruct (sextets_range b0 0 0 H0) as (? & _ & _ & _ & ? & _);
      [unfold is_byte; lia ..|].
    cbn [Base64.encode Base64.encode_url]. rewrite !replace_char by assumption.
    reflexivity.
  - apply List.Forall_cons_iff in Hb as [H0 Hb].
    apply List.Forall_cons_iff in Hb as [H1 _].
    destruct (sextets_range b0 b1 0 H0 H1) as (? & ? & _ & _ & _ & ?);
      [unfold is_byte; lia|].
    cbn [Base64.encode Base64.encode_url]. rewrite !replace_char by assumption.
    reflexivity.
  - apply List.Forall_cons_iff in Hb as [H0 Hb].
    apply List.Forall_cons_iff in Hb as [H1 Hb].
    apply List.Forall_cons_iff in Hb as [H2 Hb].
    destruct (sextets_range b0 b1 b2 H0 H1 H2) as (? & ? & ? & ? & _ & _).
    cbn [Base64.encode Base64.encode_url]. rewrite !replace_char by assumption.
    rewrite (IH Hb). reflexivity.
Qed.

(** Three bytes are determined by their four six-bit values. *)
Lemma sextets_inj a0 a1 a2 b0 b1 b2 :
  is_byte a0 -> is_byte a1 -> is_byte a2 ->
  is_byte b0 -> is_byte b1 -> is_byte b2 ->
  a0 / 4 = b0 / 4 ->
  a0 mod 4 * 16 + a1 / 16 = b0 mod 4 * 16 + b1 / 16 ->
  a1 mod 16 * 4 + a2 / 64 = b1 mod 16 * 4 + b2 / 64 ->
  a2 mod 64 = b2 mod 64 ->
  a0 = b0 /\ a1 = b1 /\ a2 = b2.
Proof. unfold is_byte. intros. Z.div_mod_to_equations. lia. Qed.

Lemma encode_url_inj (a b : list Z) :
  length a = length b ->
  List.Forall is_byte a -> List.Forall is_byte b ->
  Base64.encode_url a = Base64.encode_url b -> a = b.
Proof.
  assert (Hz : is_byte 0) by (unfold is_byte; lia).
  revert b.
  induction a as [|a0|a0 a1|a0 a1 a2 a IH] using list_ind3;
    intros b Hlen Ha Hb Henc.
  - destruct b; [reflexivity|discriminate].
  - destruct b as [|b0 [|? ?]]; try discriminate.
    apply List.Forall_cons_iff in Ha as [Ha0 _].
    apply List.Forall_cons_iff in Hb as [Hb0 _].
    cbn [Base64.encode_url] in Henc. injection Henc as E0 E1.
    destruct (sextets_range a0 0 0) as (? & _ & _ & _ & ? & _); auto.
    destruct (sextets_range b0 0 0) as (? & _ & _ & _ & ? & _); auto.
    apply url_char_inj in E0, E1; try assumption.
    destruct (sextets_inj a0 0 0 b0 0 0) as (-> & _); auto; lia.
  - destruct b as [|b0 [|b1 [|? ?]]]; try discriminate.
    apply List.Forall_cons_iff in Ha as [Ha0 Ha].
    apply List.Forall_cons_iff in Ha as [Ha1 _].
    apply List.Forall_cons_iff in Hb as [Hb0 Hb].
    apply List.Forall_cons_iff in Hb as [Hb1 _].
    cbn [Base64.encode_url] in Henc. injection Henc as E0 E1 E2.
    destruct (sextets_range a0 a1 0) as (? & ? & _ & _ & _ & ?); auto.
    destruct (sextets_range b0 b1 0) as (? & ? & _ & _ & _ & ?); auto.
    apply url_char_inj in E0, E1, E2; try assumption.
    destruct (sextets_inj a0 a1 0 b0 b1 0) as (-> & -> & _); auto; lia.
  - destruct b as [|b0 [|b1 [|b2 b]]]; try discriminate.
    apply List.Forall_cons_iff in Ha as [Ha0 Ha].
    apply List.Forall_cons_iff in Ha as [Ha1 Ha].
    apply List.Forall_cons_iff in Ha as [Ha2 Ha].
    apply List.Forall_cons_iff in Hb as [Hb0 Hb].
    apply List.Forall_cons_iff in Hb as [Hb1 Hb].
    apply List.Forall_cons_iff in Hb as [Hb2 Hb].
    cbn [Base64.encode_url] in Henc. injection Henc as E0 E1 E2 E3 Erest.
    destruct (sextets_range a0 a1 a2) as (? & ? & ? & ? & _ & _); auto.
    destruct (sextets_range b0 b1 b2) as (? & ? & ? & ? & _ & _); auto.
    apply url_char_inj in E0, E1, E2, E3; try assumption.
    destruct (sextets_inj a0 a1 a2 b0 b1 b2) as (-> & -> & ->); auto.
    f_equal. f_equal. f_equal. apply IH; auto.
    cbn [length] in Hlen. lia.
Qed.

(** Two digests with the same encoding are the same digest. *)
Lemma challenge_inj v v' :
  generateCodeChallenge v = generateCodeChallenge v' ->
  Sha256.sha256 v = Sha256.sha256 v'.
Proof.
  unfold generateCodeChallenge.
  rewrite !base64UrlEncode_encode_url by apply sha256_range.
  apply encode_url_inj;
    [rewrite !sha256_length; reflexivity | apply sha256_range ..].
Qed.

(** *** The verifier against its own challenge, and against another *)

Lemma validatePKCE_own v : validatePKCE v (generateCodeChallenge v) = true.
Proof. unfold validatePKCE, generateCodeChallenge. apply String.eqb_refl. Qed.

Lemma validatePKCE_other v v' :
  validatePKCE v (generateCodeChallenge v') = true <->
  Sha256.sha256 v = Sha256.sha256 v'.
Proof.
  unfold validatePKCE. rewrite String.eqb_eq. split.
  - apply challenge_inj.
  - unfold generateCodeChallenge. intros ->. reflexivity.
Qed.

(** *** SHA-256 is not injective *)

(** Counting: there are [length alphabet ^ n] sequences of length [n],
    all different. *)
Lemma words_length {A} (al : list A) n :
  length (words al n) = (length al ^ n)%nat.
Proof.
  induction n as [|n IH]; [reflexivity|].
  cbn [words].
  assert (Hbind : forall l : list A,
    length (l ≫= (fun a => cons a <$> words al n)) =
    (length l * length (words al n))%nat).
  { induction l as [|a l IHl]; [reflexivity|].
    rewrite bind_cons, length_app, length_fmap, IHl. reflexivity. }
  rewrite Hbind, IH, Nat.pow_succ_r'. reflexivity.
Qed.

Lemma words_NoDup {A} (al : list A) n : NoDup al -> NoDup (words al n).
Proof.
  intros Hal. induction n as [|n IH].
  - apply NoDup_singleton.
  - cbn [words]. apply NoDup_bind; [| |exact Hal].
    + intros a1 a2 w _ _ (w1 & -> & _)%list_elem_of_fmap
        (w2 & [= -> _] & _)%list_elem_of_fmap.
      reflexivity.
    + intros a _. apply NoDup_fmap_2_strong; [|exact IH].
      intros w1 w2 _ _ [= ->]. reflexivity.
Qed.

Lemma words_elem {A} (al : list A) (w : list A) :
  Forall (fun a => a ∈ al) w -> w ∈ words al (length w).
Proof.
  induction 1 as [|a w Ha _ IH]; cbn [words length].
  - apply list_elem_of_singleton. reflexivity.
  - apply list_elem_of_bind. exists a. split; [|exact Ha].
    apply list_elem_of_fmap_2. exact IH.
Qed.

(** A map that is injective on the sequences of length [n] needs at
    least as many values as there are such sequences. *)
Lemma injection_card {A B} (f : list A -> B) (al : list A) n (cod : list B) :
  NoDup al ->
  (forall w w', w ∈ words al n -> w' ∈ words al n -> f w = f w' -> w = w') ->
  (forall w, w ∈ words al n -> f w ∈ cod) ->
  (length al ^ n <= length cod)%nat.
Proof.
  intros Hal Hinj Hcod.
  rewrite <- words_length, <- (length_fmap f).
  apply submseteq_length, NoDup_submseteq.
  - apply NoDup_fmap_2_strong; [exact Hinj|]. apply words_NoDup, Hal.
  - intros y (w & -> & Hw)%list_elem_of_fmap. apply Hcod, Hw.
Qed.

Lemma byte_values_elem b : is_byte b -> b ∈ byte_values.
Proof.
  intros Hb. unfold byte_values. apply list_elem_of_fmap.
  exists (Z.to_nat b). split; [unfold is_byte in Hb; lia|].
  apply elem_of_seq. unfold is_byte in Hb. lia.
Qed.

Lemma digest_elem s : Sha256.sha256 s ∈ words byte_values 32.
Proof.
  rewrite <- (sha256_length s). apply words_elem.
  eapply Forall_impl; [|exact byte_values_elem].
  apply Forall_forall. intros b Hb.
  apply (proj1 (List.Forall_forall _ _) (sha256_range s)).
  apply list_elem_of_In. exact Hb.
Qed.

Lemma url_chars_NoDup : NoDup url_chars.
Proof. apply (bool_decide_unpack _). vm_compute. exact I. Qed.

Lemma more_verifiers_than_digests : (256 ^ 32 < 64 ^ 43)%nat.
Proof.
  replace (256 ^ 32)%nat with ((2 ^ 8) ^ 32)%nat by reflexivity.
  replace (64 ^ 43)%nat with ((2 ^ 6) ^ 43)%nat by reflexivity.
  rewrite <- !Nat.pow_mul_r. apply Nat.pow_lt_mono_r; [lia|].
  apply Nat.lt_succ_r, Nat.le_succ_diag_r.
Qed.

(** There are more verifiers of 43 characters than digests, so two of
    them have the same digest. *)
Theorem sha256_collides_on_verifiers :
  ~ (forall v v' : string,
       is_verifier v -> is_verifier v' ->
       Sha256.sha256 v = Sha256.sha256 v' -> v = v').
Proof.
  intros Hinj.
  assert (Hv : forall w, w ∈ words url_chars 43 ->
                         is_verifier (string_of_list_ascii w)).
  { intros w Hw. unfold is_verifier.
    rewrite list_ascii_of_string_of_list_ascii. exact Hw. }
  assert (Hle : (length url_chars ^ 43 <= length (words byte_values 32))%nat).
  { apply (injection_card (fun w => Sha256.sha256 (string_of_list_ascii w))).
    - exact url_chars_NoDup.
    - intros w w' Hw Hw' E. apply Hinj in E; auto.
      rewrite <- (list_ascii_of_string_of_list_ascii w),
              <- (list_ascii_of_string_of_list_ascii w'), E.
      reflexivity.
    - intros w _. apply digest_elem. }
  rewrite words_length in Hle.
  unfold byte_values in Hle. rewrite length_fmap, length_seq in Hle.
  apply (Nat.lt_irrefl (64 ^ 43)%nat).
  eapply Nat.le_lt_trans; [exact Hle|]. exact more_verifiers_than_digests.
Qed.

Corollary sha256_not_injective :
  ~ (forall v v' : string, Sha256.sha256 v = Sha256.sha256 v' -> v = v').
Proof. intros Hinj. apply sha256_collides_on_verifiers. auto. Qed.

(** The claim of C7 as it is stated, for every pair of distinct
    verifiers, does not hold, not even for the verifiers of 43
    characters of the URL-safe alphabet: it would make SHA-256 injective
    on them. *)
Lemma C7_distinct_verifiers_can_collide :
  ~ (forall v v' : string,
       v <> v' -> validatePKCE v (generateCodeChallenge v') = false) /\
  ~ (forall v v' : string,
       is_verifier v -> is_verifier v' ->
       v <> v' -> validatePKCE v (generateCodeChallenge v') = false).
Proof.
  assert (H : ~ (forall v v' : string,
                   is_verifier v -> is_verifier v' ->
                   v <> v' ->
                   validatePKCE v (generateCodeChallenge v') = false)).
  { intros Hclaim. apply sha256_collides_on_verifiers. intros v v' Hv Hv' E.
    destruct (decide (v = v')) as [Heq|Hne]; [exact Heq|].
    apply validatePKCE_other in E. rewrite (Hclaim v v' Hv Hv' Hne) in E.
    discriminate. }
  split; [|exact H].
  intros Hclaim. apply H. intros v v' _ _. apply Hclaim.
Qed.

(** C7 (as amended). A verifier validates against its own challenge; it
    does not validate against the challenge of a verifier with another
    SHA-256 digest; and a redemption that presents it for a code issued
    with such a challenge fails with invalid_grant, without touching the
    tokens. *)
Theorem C7_pkce_round_trip (v v' : string) :
  validatePKCE v (generateCodeChallenge v) = true /\
  (Sha256.sha256 v <> Sha256.sha256 v' ->
   validatePKCE v (generateCodeChallenge v') = false /\
   forall baseUrl jwt_sign env req st c authCode,
     is_redemption req c ->
     code_verifier req = Some v ->
     authorizationCodes st !! c = Some authCode ->
     ac_codeChallenge authCode = generateCodeChallenge v' ->
     let o := tokenEndpoint baseUrl jwt_sign env req st in
     fails_with "invalid_grant" (out_response o) /\
     success (out_response o) = false /\
     tokens (out_store o) = tokens st /\
     refreshTokens (out_store o) = refreshTokens st).
Proof.
  split; [apply validatePKCE_own|]. intros Hdigest.
  assert (Hno : validatePKCE v (generateCodeChallenge v') = false).
  { destruct (validatePKCE v (generateCodeChallenge v')) eqn:E; [|reflexivity].
    apply validatePKCE_other in E. contradiction. }
  split; [exact Hno|].
  intros baseUrl jwt_sign env req st c authCode Hreq Hv Hlook Hch o.
  destruct (redemption_fields _ _ Hreq) as (Hc & Hg & Hcode & Hstr & Htv).
  subst o. unfold_handler. rewrite Hc, Hg, Hcode, Htv, Hstr. hred.
  rewrite Hlook, Hv, Hch. change (str (Some v)) with v. rewrite Hno. hred.
  repeat (case_cond; hred); repeat split; try (eexists; reflexivity).
Qed.

(** * Further properties of the token endpoint *)

Section TokenEndpointMore.

Variable baseUrl : string.
Variable jwt_sign : JwtClaims -> Z -> string.
Variable jws_verify : string -> option JwtPayload.

Local Abbreviation tokenEndpoint := (tokenEndpoint baseUrl jwt_sign).
Local Abbreviation serve := (serve baseUrl jwt_sign jws_verify).
Local Abbreviation serve_all := (serve_all baseUrl jwt_sign jws_verify).
Local Abbreviation refresh_valid_token :=
  (refresh_valid_token baseUrl jwt_sign).

(** *** When a grant is given *)

(** X1.  An authorization_code request is answered with a token pair
    exactly when it names a client, a code and a verifier, the code is
    in the store, not used and not past its expiry (a code is still
    good at the instant [expiresAt]), the client is the one the code was
    issued to, the redirect URI, if one is sent, is the one of the
    code, and the verifier passes PKCE. *)
Theorem X1_redemption_succeeds_iff env req st :
  grant_type req = Some "authorization_code" ->
  success (out_response (tokenEndpoint env req st)) = true <->
  truthy (client_id req) = true /\
  truthy (code req) = true /\
  truthy (code_verifier req) = true /\
  exists authCode,
    authorizationCodes st !! str (code req) = Some authCode /\
    ac_used authCode = false /\
    now_check env <= ac_expiresAt authCode /\
    client_id req = Some (ac_clientId authCode) /\
    (truthy (redirect_uri req) = true ->
     redirect_uri req = Some (ac_redirectUri authCode)) /\
    validatePKCE (str (code_verifier req)) (ac_codeChallenge authCode) = true.
Proof.
  intros Hgrant.
  assert (Hg : is_str (grant_type req) "authorization_code" = true)
    by (apply is_str_eq; exact Hgrant).
  split.
  - unfold_handler. rewrite Hg. hred.
    repeat (case_cond; hred); try discriminate.
    all: intros _; bool_hyps.
    all: do 3 (split; [assumption|]).
    all: eexists; split; [reflexivity|].
    all: repeat split; try assumption.
    all: try (apply Z.ltb_ge; assumption).
    all: try (apply is_str_eq; assumption).
    all: intros Ht;
      match goal with
      | H : truthy _ && _ = false |- _ =>
          rewrite Ht in H; cbn [andb] in H;
          apply negb_false_iff in H; apply is_str_eq in H; exact H
      end.
  - intros (Hc & Hcode & Hv & authCode & Hlook & Hused & Hexp & Hcl & Hr & Hp).
    apply (redeem_valid_code baseUrl jwt_sign env req st (str (code req))
             authCode); try assumption.
    repeat split; try assumption.
    + destruct (code req) as [x|]; [reflexivity|discriminate].
    + intros E. unfold truthy, str in *.
      destruct (code req) as [x|]; [|discriminate].
      cbn in E. subst x. discriminate.
Qed.

(** X4.  A refresh_token request is answered with a token pair exactly
    when it names a client and a refresh token, the token is in the
    store, belongs to that client and is not past its expiry. *)
Theorem X4_refresh_succeeds_iff env req st :
  grant_type req = Some "refresh_token" ->
  success (out_response (tokenEndpoint env req st)) = true <->
  truthy (client_id req) = true /\
  truthy (refresh_token req) = true /\
  exists stored,
    refreshTokens st !! str (refresh_token req) = Some stored /\
    client_id req = Some (rt_clientId stored) /\
    now_check env <= rt_expiresAt stored.
Proof.
  intros Hgrant.
  assert (Hg1 : is_str (grant_type req) "authorization_code" = false)
    by (rewrite Hgrant; reflexivity).
  assert (Hg2 : is_str (grant_type req) "refresh_token" = true)
    by (apply is_str_eq; exact Hgrant).
  split.
  - unfold_handler. rewrite Hg1, Hg2. hred.
    repeat (case_cond; hred); try discriminate.
    all: intros _; bool_hyps.
    all: do 2 (split; [assumption|]).
    all: eexists; split; [reflexivity|]; split.
    all: try (apply is_str_eq; assumption).
    all: apply Z.ltb_ge; assumption.
  - intros (Hc & Hr & stored & Hlook & Hcl & Hexp).
    apply (refresh_valid_token env req st (str (refresh_token req)) stored);
      try assumption.
    repeat split; try assumption.
    + destruct (refresh_token req) as [x|]; [reflexivity|discriminate].
    + intros E. unfold truthy, str in *.
      destruct (refresh_token req) as [x|]; [|discriminate].
      cbn in E. subst x. discriminate.
Qed.

(** *** A refused request issues nothing *)

(** What a request that is refused leaves behind. *)
Lemma refused_request env req st :
  let o := tokenEndpoint env req st in
  success (out_response o) = false ->
  status (out_response o) = 400 /\
  (fails_with "invalid_request" (out_response o) \/
   fails_with "invalid_grant" (out_response o) \/
   fails_with "unsupported_grant_type" (out_response o)) /\
  tokens (out_store o) = tokens st /\
  ((out_ops o = [] /\ out_store o = st) \/
   (exists authCode,
      authorizationCodes st !! str (code req) = Some authCode /\
      ac_expiresAt authCode < now_check env /\
      out_ops o = [OpDeleteAuthorizationCode (str (code req))] /\
      authorizationCodes (out_store o) =
        delete (str (code req)) (authorizationCodes st) /\
      refreshTokens (out_store o) = refreshTokens st) \/
   (exists stored,
      refreshTokens st !! str (refresh_token req) = Some stored /\
      rt_expiresAt stored < now_check env /\
      out_ops o = [OpDeleteRefreshToken (str (refresh_token req))] /\
      refreshTokens (out_store o) =
        delete (str (refresh_token req)) (refreshTokens st) /\
      authorizationCodes (out_store o) = authorizationCodes st)).
Proof.
  intros o. subst o. destruct st as [codes toks refs].
  unfold_handler. hred.
  repeat (case_cond; hred); try discriminate; intros _.
  all: split; [reflexivity|].
  all: split;
    [ first [ left; eexists; reflexivity
            | right; left; eexists; reflexivity
            | right; right; eexists; reflexivity ] |].
  all: split; [reflexivity|].
  all: first
    [ left; split; reflexivity
    | right; left; eexists; split; [reflexivity|];
      split; [apply Z.ltb_lt; assumption|]; repeat split
    | right; right; eexists; split; [reflexivity|];
      split; [apply Z.ltb_lt; assumption|]; repeat split ].
Qed.


(** X2.  A request that is not answered with a token pair is answered
    with status 400 and one of the three OAuth errors, and it stores
    nothing: either the store is untouched, or the one thing done is
    the deletion of the expired code, or of the expired refresh token,
    that the request presented. *)
Theorem X2_refused_request_issues_nothing env req st :
  let o := tokenEndpoint env req st in
  success (out_response o) = false ->
  status (out_response o) = 400 /\
  (fails_with "invalid_request" (out_response o) \/
   fails_with "invalid_grant" (out_response o) \/
   fails_with "unsupported_grant_type" (out_response o)) /\
  tokens (out_store o) = tokens st /\
  ((out_ops o = [] /\ out_store o = st) \/
   (exists authCode,
      authorizationCodes st !! str (code req) = Some authCode /\
      ac_expiresAt authCode < now_check env /\
      out_ops o = [OpDeleteAuthorizationCode (str (code req))] /\
      authorizationCodes (out_store o) =
        delete (str (code req)) (authorizationCodes st) /\
      refreshTokens (out_store o) = refreshTokens st) \/
   (exists stored,
      refreshTokens st !! str (refresh_token req) = Some stored /\
      rt_expiresAt stored < now_check env /\
      out_ops o = [OpDeleteRefreshToken (str (refresh_token req))] /\
      refreshTokens (out_store o) =
        delete (str (refresh_token req)) (refreshTokens st) /\
      authorizationCodes (out_store o) = authorizationCodes st)).
Proof. exact (refused_request env req st). Qed.

(** X3.  A failed attempt does not use up a good code.  When a
    redemption request for a code that is stored, unused and not
    expired is refused (a wrong client, redirect URI or verifier), the
    error is invalid_grant and the store is left as it was, so that the
    right request is still served afterwards. *)
Theorem X3_failed_attempt_keeps_code env req st c authCode :
  is_redemption req c ->
  authorizationCodes st !! c = Some authCode ->
  ac_used authCode = false ->
  now_check env <= ac_expiresAt authCode ->
  let o := tokenEndpoint env req st in
  success (out_response o) = false ->
  fails_with "invalid_grant" (out_response o) /\
  out_ops o = [] /\ out_store o = st /\
  forall env2 req2,
    is_redemption req2 c ->
    now_check env2 <= ac_expiresAt authCode ->
    client_id req2 = Some (ac_clientId authCode) ->
    (truthy (redirect_uri req2) = true ->
     redirect_uri req2 = Some (ac_redirectUri authCode)) ->
    validatePKCE (str (code_verifier req2)) (ac_codeChallenge authCode)
      = true ->
    success (out_response (tokenEndpoint env2 req2 (out_store o))) = true.
Proof.
  intros Hreq Hlook Hused Hexp o.
  destruct (redemption_fields _ _ Hreq) as (Hc & Hg & Hcode & Hstr & Hv).
  apply Z.ltb_ge in Hexp.
  assert (E : success (out_response o) = false ->
              fails_with "invalid_grant" (out_response o) /\
              out_ops o = [] /\ out_store o = st).
  { subst o. unfold_handler. rewrite Hc, Hg, Hcode, Hv, Hstr. hred.
    rewrite Hlook. hred. rewrite Hused. hred. rewrite Hexp. hred.
    repeat (case_cond; hred); try discriminate; intros _.
    all: split; [eexists; reflexivity|split; reflexivity]. }
  intros Hs. destruct (E Hs) as (Hf & Hops & Hst).
  repeat (split; [assumption|]).
  intros env2 req2 Hreq2 Hexp2 Hcl2 Hr2 Hp2. rewrite Hst.
  eapply redeem_valid_code; eauto.
Qed.

(** *** Refresh tokens that are refused *)


(** X6.  A refresh token presented by a client other than the one it
    was issued to is refused with invalid_grant and left in the store,
    whether it has expired or not: the client is checked before the
    expiry.  Its own client can still redeem it. *)
Theorem X6_refresh_token_of_another_client env req st r stored :
  is_refresh req r ->
  refreshTokens st !! r = Some stored ->
  client_id req <> Some (rt_clientId stored) ->
  let o := tokenEndpoint env req st in
  o = {| out_store := st; out_ops := [];
         out_response :=
           oauth_error "invalid_grant" "Client mismatch for refresh_token" |} /\
  forall env2 req2,
    is_refresh req2 r ->
    client_id req2 = Some (rt_clientId stored) ->
    now_check env2 <= rt_expiresAt stored ->
    success (out_response (tokenEndpoint env2 req2 (out_store o))) = true.
Proof.
  intros Hreq Hlook Hcl o.
  destruct (refresh_fields _ _ Hreq) as (Hc & Hg1 & Hg2 & Hr & Hstr).
  assert (Hcm : is_str (client_id req) (rt_clientId stored) = false).
  { destruct (is_str (client_id req) (rt_clientId stored)) eqn:E;
      [|reflexivity].
    apply is_str_eq in E. contradiction. }
  assert (E : o = {| out_store := st; out_ops := [];
                     out_response :=
                       oauth_error "invalid_grant"
                         "Client mismatch for refresh_token" |}).
  { subst o. unfold_handler. rewrite Hc, Hg1, Hg2, Hr, Hstr. hred.
    rewrite Hlook. hred. rewrite Hcm. hred. reflexivity. }
  split; [exact E|].
  intros env2 req2 Hreq2 Hcl2 Hexp2. rewrite E. hred.
  eapply refresh_valid_token; eauto.
Qed.

(** *** Access-token records are never removed *)

Lemma token_tokens_kept env req st (k : string) :
  is_Some (tokens st !! k) ->
  is_Some (tokens (out_store (tokenEndpoint env req st)) !! k).
Proof.
  intros Hk. destruct st as [codes toks refs]. revert Hk.
  unfold_handler. hred.
  repeat (case_cond; hred); intros Hk; try exact Hk.
  all: match goal with
       | |- is_Some (<[?a := _]> _ !! _) =>
           destruct (decide (a = k)) as [->|Hne];
           [rewrite lookup_insert_eq; eexists; reflexivity
           |rewrite lookup_insert_ne by exact Hne; exact Hk]
       end.
Qed.

Lemma serve_tokens_kept call st (k : string) :
  is_Some (tokens st !! k) ->
  is_Some (tokens (out_store (serve call st)) !! k).
Proof.
  destruct call as [env req|token now|oauthToken].
  - apply token_tokens_kept.
  - intros Hk. revert Hk. unfold_handler. hred.
    repeat (case_cond; hred); intros Hk; exact Hk.
  - intros Hk. revert Hk. unfold_handler. hred.
    repeat (case_cond; hred); intros Hk; exact Hk.
Qed.

Lemma serve_all_tokens_kept calls st (k : string) :
  is_Some (tokens st !! k) ->
  is_Some (tokens (serve_all calls st) !! k).
Proof.
  revert st. induction calls as [|call calls IH]; intros st Hk; [exact Hk|].
  apply IH, serve_tokens_kept, Hk.
Qed.

(** X7.  The router never removes an access-token record.  Whatever
    calls are served (grants, rotations, refusals that delete expired
    credentials), an access token that has a record keeps one, so the
    Privy exchange keeps answering it with status 200 and a Privy
    token, never with token_not_found. *)
Theorem X7_access_token_records_stay calls st (accessToken : string) :
  accessToken <> "" ->
  is_Some (tokens st !! accessToken) ->
  let st' := serve_all calls st in
  exists tokenData,
    tokens st' !! accessToken = Some tokenData /\
    out_response (privyAccessTokenEndpoint (Some accessToken) st') =
      {| status := 200;
         body := PrivyBody (td_privyToken tokenData) (td_expiresAt tokenData)
                   None (td_privyUserId tokenData) (td_scopes tokenData) |}.
Proof.
  intros Hne Hk st'.
  destruct (serve_all_tokens_kept calls st accessToken Hk) as [tokenData Htd].
  exists tokenData. split; [exact Htd|].
  subst st'. unfold_handler.
  rewrite (truthy_Some _ Hne). hred.
  change (str (Some accessToken)) with accessToken.
  rewrite Htd. reflexivity.
Qed.

(** *** From the grant to the Privy exchange *)

(** The exchange route when its guard has let the request through with
    a token that has a record. *)
Lemma guarded_exchange_passes validateToken (authHeader : option string)
    (accessToken : string) tokenData st :
  validateToken ["privy:token:exchange"] authHeader = inr (Some accessToken) ->
  accessToken <> "" ->
  tokens st !! accessToken = Some tokenData ->
  privyAccessTokenGuardedEndpoint validateToken authHeader st =
    {| out_store := st; out_ops := [];
       out_response :=
         {| status := 200;
            body := PrivyBody (td_privyToken tokenData)
                      (td_expiresAt tokenData) None
                      (td_privyUserId tokenData) (td_scopes tokenData) |} |}.
Proof.
  intros Hpass Hne Htd.
  unfold privyAccessTokenGuardedEndpoint, privyAccessTokenGuardedRoute.
  rewrite Hpass. unfold_handler. rewrite (truthy_Some _ Hne). hred.
  change (str (Some accessToken)) with accessToken.
  rewrite Htd. reflexivity.
Qed.

(** The exchange route when its guard refuses: the answer is the
    guard's, and the handler does not run. *)
Lemma guarded_exchange_refused validateToken (authHeader : option string)
    (res : Response) st :
  validateToken ["privy:token:exchange"] authHeader = inl res ->
  privyAccessTokenGuardedEndpoint validateToken authHeader st =
    {| out_store := st; out_ops := []; out_response := res |}.
Proof.
  intros Hno.
  unfold privyAccessTokenGuardedEndpoint, privyAccessTokenGuardedRoute.
  rewrite Hno. reflexivity.
Qed.

(** X8.  The exchange route is guarded by
    [validateToken(['privy:token:exchange'])].  When the guard lets a
    request through with the access token that a grant has just
    returned, a token that is not empty, the route answers 200 with the
    identity of the credential the grant consumed: its Privy token, its
    user id and its scopes, with the expiry one hour after the grant's
    clock reading; the user id is the subject signed into the access
    token, and the scopes are the signed scope claim and the scope of
    the token response.  When the guard refuses the request, the answer
    is the guard's response and the handler does not run.  The store is
    left as it was either way. *)
Theorem X8_exchange_after_grant
    (validateToken : list string -> option string -> Response + option string)
    env req st (authHeader : option string)
    (accessToken refreshToken tokenType : string) (expiresIn : Z)
    (scope : string) :
  let o := tokenEndpoint env req st in
  let exchange :=
    privyAccessTokenGuardedEndpoint validateToken authHeader (out_store o) in
  body (out_response o) =
    TokenBody accessToken refreshToken tokenType expiresIn scope ->
  accessToken <> "" ->
  (validateToken ["privy:token:exchange"] authHeader
     = inr (Some accessToken) ->
   exists userId privyToken scopes,
     consumed_privyUserId req st = Some userId /\
     consumed_privyToken req st = Some privyToken /\
     consumed_scopes req st = Some scopes /\
     scope = String.concat " " scopes /\
     (exists audience clientId,
        accessToken =
          jwt_sign {| jc_sub := userId; jc_scope := scope;
                      jc_aud := audience; jc_client_id := clientId |}
            (now_sign env)) /\
     out_response exchange =
       {| status := 200;
          body := PrivyBody privyToken (now_token env + 3600000) None
                    userId scopes |}) /\
  (forall res,
     validateToken ["privy:token:exchange"] authHeader = inl res ->
     out_response exchange = res) /\
  out_store exchange = out_store o /\ out_ops exchange = [].
Proof.
  intros o exchange Hbody Hne.
  assert (Hs : success (out_response o) = true)
    by (unfold success; rewrite Hbody; reflexivity).
  assert (Hst := token_store_ops baseUrl jwt_sign env req st).
  fold o in Hst.
  split; [|split].
  - intros Hpass.
    unfold consumed_privyUserId, consumed_privyToken, consumed_scopes.
    destruct (is_str (grant_type req) "authorization_code") eqn:Hg.
    + destruct (redeem_success baseUrl jwt_sign env req st Hg Hs)
        as (authCode & Hlook & _ & _ & _ & _ & _ & _ & _ & Hops & Hresp).
      fold o in Hops, Hresp. rewrite Hresp in Hbody. hred.
      injection Hbody as <- <- <- <- <-.
      exists (ac_privyUserId authCode), (ac_privyToken authCode),
        (ac_scopes authCode).
      rewrite Hlook. repeat (split; [reflexivity|]).
      split; [eexists _, _; reflexivity|].
      subst exchange.
      rewrite (guarded_exchange_passes validateToken authHeader _ _
                 (out_store o) Hpass Hne
                 ltac:(rewrite Hst, Hops; hred; apply lookup_insert_eq)).
      reflexivity.
    + destruct (refresh_success baseUrl jwt_sign env req st Hg Hs)
        as (stored & Hlook & _ & _ & _ & _ & _ & Hops & Hresp).
      fold o in Hops, Hresp. rewrite Hresp in Hbody. hred.
      injection Hbody as <- <- <- <- <-.
      exists (rt_privyUserId stored), (rt_privyToken stored),
        (rt_scopes stored).
      rewrite Hlook. repeat (split; [reflexivity|]).
      split; [eexists _, _; reflexivity|].
      subst exchange.
      rewrite (guarded_exchange_passes validateToken authHeader _ _
                 (out_store o) Hpass Hne
                 ltac:(rewrite Hst, Hops; hred; apply lookup_insert_eq)).
      reflexivity.
  - intros res Hno. subst exchange.
    rewrite (guarded_exchange_refused validateToken authHeader res _ Hno).
    reflexivity.
  - subst exchange.
    unfold privyAccessTokenGuardedEndpoint, privyAccessTokenGuardedRoute.
    destruct (validateToken ["privy:token:exchange"] authHeader)
      as [res|oauthToken]; [split; reflexivity|].
    unfold_handler. hred. repeat (case_cond; hred); split; reflexivity.
Qed.

(** *** Refresh cycles *)

(** One call of the helper [refreshTokens] with the default client, on
    a refresh token of that client that is in time. *)
Lemma refreshTokens_cycle env (r : string) stored st :
  r <> "" ->
  refreshTokens st !! r = Some stored ->
  rt_clientId stored = FlowHelpers.DEFAULT_CLIENT_ID ->
  now_check env <= rt_expiresAt stored ->
  exists st' claims,
    FlowHelpers.refreshTokens baseUrl jwt_sign env (Some r) None st =
      (st', inr {| FlowHelpers.newAccessToken :=
                     Some (jwt_sign claims (now_sign env));
                   FlowHelpers.newRefreshToken := Some (new_refresh_token env);
                   FlowHelpers.trr_expiresIn := Some 3600;
                   FlowHelpers.trr_scope :=
                     Some (inl (String.concat " " (rt_scopes stored))) |}) /\
    tokens st' !! jwt_sign claims (now_sign env) =
      Some {| td_clientId := rt_clientId stored;
              td_privyUserId := rt_privyUserId stored;
              td_privyToken := rt_privyToken stored;
              td_scopes := rt_scopes stored;
              td_expiresAt := now_token env + 3600 * 1000 |} /\
    refreshTokens st' !! new_refresh_token env =
      Some {| rt_clientId := rt_clientId stored;
              rt_privyUserId := rt_privyUserId stored;
              rt_privyToken := rt_privyToken stored;
              rt_scopes := rt_scopes stored;
              rt_expiresAt := now_refresh env + REFRESH_TOKEN_TTL_MS |}.
Proof.
  intros Hne Hlook Hcl Hexp.
  set (req := {| grant_type := Some "refresh_token";
                 client_id := Some FlowHelpers.DEFAULT_CLIENT_ID;
                 code := None; code_verifier := None; redirect_uri := None;
                 refresh_token := Some r; resource := None |}).
  assert (Hreq : is_refresh req r).
  { repeat split; try reflexivity. exact Hne. }
  assert (Hs : success (out_response (tokenEndpoint env req st)) = true).
  { apply (refresh_valid_token env req st r stored Hreq Hlook); [|exact Hexp].
    cbn [client_id req]. rewrite Hcl. reflexivity. }
  destruct (refresh_success baseUrl jwt_sign env req st eq_refl Hs)
    as (stored' & Hlook' & _ & _ & _ & _ & _ & Hops & Hresp).
  change (str (refresh_token req)) with r in Hlook', Hops.
  rewrite Hlook in Hlook'. injection Hlook' as <-.
  assert (Hst := token_store_ops baseUrl jwt_sign env req st).
  cbv zeta in Hops, Hresp.
  eexists _, _. split; [|split].
  - unfold FlowHelpers.refreshTokens. cbn [default]. fold req.
    rewrite Hresp. cbn. reflexivity.
  - rewrite Hst, Hops. hred. apply lookup_insert_eq.
  - rewrite Hst, Hops. hred. apply lookup_insert_eq.
Qed.

Lemma refreshCycles_identity env envs (r : string) stored a0 st :
  r <> "" ->
  refreshTokens st !! r = Some stored ->
  rt_clientId stored = FlowHelpers.DEFAULT_CLIENT_ID ->
  cycles_in_time (rt_expiresAt stored) (env :: envs) ->
  exists st' claims now refreshToken tokenData stored',
    FlowHelpers.refreshCycles baseUrl jwt_sign (env :: envs)
      {| FlowHelpers.cur_accessToken := a0;
         FlowHelpers.cur_refreshToken := Some r |} st =
      (st', inr {| FlowHelpers.cur_accessToken := Some (jwt_sign claims now);
                   FlowHelpers.cur_refreshToken := Some refreshToken |}) /\
    tokens st' !! jwt_sign claims now = Some tokenData /\
    td_privyToken tokenData = rt_privyToken stored /\
    td_privyUserId tokenData = rt_privyUserId stored /\
    td_scopes tokenData = rt_scopes stored /\
    refreshTokens st' !! refreshToken = Some stored' /\
    rt_privyToken stored' = rt_privyToken stored /\
    rt_privyUserId stored' = rt_privyUserId stored /\
    rt_scopes stored' = rt_scopes stored /\
    rt_clientId stored' = rt_clientId stored.
Proof.
  revert env r stored a0 st.
  induction envs as [|env2 envs IH]; intros env r stored a0 st Hne Hlook Hcl
    (Hexp & Hnew & Hrest).
  - destruct (refreshTokens_cycle env r stored st Hne Hlook Hcl Hexp)
      as (st' & claims & Hcall & Htok & Href).
    eexists st', claims, _, _, _, _. split.
    + cbn [FlowHelpers.refreshCycles FlowHelpers.cur_refreshToken].
      rewrite Hcall. reflexivity.
    + split; [exact Htok|]. do 3 (split; [reflexivity|]).
      split; [exact Href|]. repeat split.
  - destruct (refreshTokens_cycle env r stored st Hne Hlook Hcl Hexp)
      as (st1 & claims1 & Hcall & Htok & Href).
    destruct (IH env2 (new_refresh_token env) _
                (Some (jwt_sign claims1 (now_sign env))) st1 Hnew Href Hcl
                Hrest)
      as (st' & claims & now & r' & td & stored' & Hrun & H1 & H2 & H3 & H4
          & H5 & H6 & H7 & H8 & H9).
    exists st', claims, now, r', td, stored'. split.
    + change (FlowHelpers.refreshCycles baseUrl jwt_sign (env :: env2 :: envs)
                {| FlowHelpers.cur_accessToken := a0;
                   FlowHelpers.cur_refreshToken := Some r |} st)
        with (match FlowHelpers.refreshTokens baseUrl jwt_sign env (Some r)
                      None st with
              | (st', inl error) => (st', inl error)
              | (st', inr refreshed) =>
                  FlowHelpers.refreshCycles baseUrl jwt_sign (env2 :: envs)
                    {| FlowHelpers.cur_accessToken :=
                         FlowHelpers.newAccessToken refreshed;
                       FlowHelpers.cur_refreshToken :=
                         FlowHelpers.newRefreshToken refreshed |} st'
              end).
      rewrite Hcall. exact Hrun.
    + repeat (split; [assumption|]). assumption.
Qed.

(** X9.  Refresh cycles keep the identity.  With a signer that never
    returns the empty string, the refresh loop of the tests, started on
    a refresh token of the default client and run in time for any
    number of iterations (one at least), completes without an
    exception; the refresh token it ends with holds the Privy token of
    the one it started from, and the access token it ends with is not
    empty.  The last step of the test, [exchangeForPrivyToken] of that
    access token, goes through the guard of the exchange route: when
    the guard lets the bearer token through, the helper returns the
    Privy token, the user id and the scopes of the refresh token the
    loop started from; when the guard refuses it with a status that is
    not ok, the helper throws the guard's body. *)
Theorem X9_refresh_cycles_keep_identity
    (validateToken : list string -> option string -> Response + option string)
    envs (r : string) stored a0 st :
  (forall claims now, jwt_sign claims now <> "") ->
  envs <> [] ->
  r <> "" ->
  refreshTokens st !! r = Some stored ->
  rt_clientId stored = FlowHelpers.DEFAULT_CLIENT_ID ->
  cycles_in_time (rt_expiresAt stored) envs ->
  exists st' accessToken refreshToken expiresAt,
    FlowHelpers.refreshCycles baseUrl jwt_sign envs
      {| FlowHelpers.cur_accessToken := a0;
         FlowHelpers.cur_refreshToken := Some r |} st =
      (st', inr {| FlowHelpers.cur_accessToken := Some accessToken;
                   FlowHelpers.cur_refreshToken := Some refreshToken |}) /\
    (rt_privyToken <$> (refreshTokens st' !! refreshToken)) =
      Some (rt_privyToken stored) /\
    accessToken <> "" /\
    (validateToken ["privy:token:exchange"]
       (Some ("Bearer " +:+ accessToken)) = inr (Some accessToken) ->
     FlowHelpers.exchangeForPrivyToken validateToken (Some accessToken) st' =
       (st', inr (PrivyBody (rt_privyToken stored) expiresAt None
                    (rt_privyUserId stored) (rt_scopes stored)))) /\
    (forall res,
       validateToken ["privy:token:exchange"]
         (Some ("Bearer " +:+ accessToken)) = inl res ->
       FlowHelpers.ok res = false ->
       FlowHelpers.exchangeForPrivyToken validateToken (Some accessToken) st' =
         (st', inl (body res))).
Proof.
  intros Hsign Hnil Hne Hlook Hcl Htime.
  destruct envs as [|env envs]; [contradiction|].
  destruct (refreshCycles_identity env envs r stored a0 st Hne Hlook Hcl Htime)
    as (st' & claims & now & r' & td & stored' & Hrun & H1 & H2 & H3 & H4 & H5
        & H6 & _).
  exists st', (jwt_sign claims now), r', (td_expiresAt td).
  split; [exact Hrun|]. split; [rewrite H5; cbn; rewrite H6; reflexivity|].
  split; [apply Hsign|]. split.
  - intros Hpass. unfold FlowHelpers.exchangeForPrivyToken.
    change (default "undefined" (Some (jwt_sign claims now)))
      with (jwt_sign claims now).
    rewrite (guarded_exchange_passes validateToken _ _ td st' Hpass
               (Hsign claims now) H1).
    hred. rewrite H2, H3, H4. reflexivity.
  - intros res Hno Hok. unfold FlowHelpers.exchangeForPrivyToken.
    change (default "undefined" (Some (jwt_sign claims now)))
      with (jwt_sign claims now).
    rewrite (guarded_exchange_refused validateToken _ res st' Hno).
    hred. rewrite Hok. reflexivity.
Qed.

(** *** No Privy token comes from nowhere *)

(** X23.  Whatever calls the router has served, a Privy token that the
    exchange returns was in the store the run started from, in the
    record of an authorization code, of an access token or of a
    refresh token: the router copies Privy tokens from the credential
    consumed to the credentials issued, and takes none from a
    request. *)
Theorem X23_exchanged_identity_was_stored calls st (oauthToken : option string)
    (privyAccessToken : string) (expiresAt : Z) (issuedAt : option Z)
    (userId : string) (scope : list string) :
  body (out_response
          (privyAccessTokenEndpoint oauthToken (serve_all calls st))) =
    PrivyBody privyAccessToken expiresAt issuedAt userId scope ->
  holds_identity st privyAccessToken.
Proof.
  intros Hbody.
  apply (serve_all_identity baseUrl jwt_sign jws_verify calls).
  revert Hbody. unfold_handler. hred.
  repeat (case_cond; hred); try discriminate.
  intros E. injection E as <- _ _ _ _.
  right. left. eexists _, _. split; [eassumption|reflexivity].
Qed.

(** *** The router never makes an authorization code *)

(** X26.  No call to the token router creates or changes an
    authorization code: a code that is in the store after a run was in
    it before the run, with the same record, and a code that was absent
    stays absent.  Codes come from the authorization endpoint alone,
    and the token router can only delete them. *)
Theorem X26_router_only_deletes_codes calls st (k : string) :
  (forall authCode,
     authorizationCodes (serve_all calls st) !! k = Some authCode ->
     authorizationCodes st !! k = Some authCode) /\
  (authorizationCodes st !! k = None ->
   authorizationCodes (serve_all calls st) !! k = None) /\
  (map_size (authorizationCodes (serve_all calls st))
   <= map_size (authorizationCodes st))%nat.
Proof.
  split; [|split].
  - intros authCode. apply serve_all_codes_kept.
  - apply serve_all_codes.
  - apply map_subseteq_size. apply map_subseteq_spec.
    intros i x. apply serve_all_codes_kept.
Qed.

(** *** The [resource] parameter *)

(** X24.  The [resource] parameter of a grant request is not checked
    against anything; it selects the audience signed into the access
    token and nothing else.  With another [resource] the request is
    served or refused alike, a refusal is the same outcome, and a grant
    stores the same records, returns the same refresh token and scope,
    and signs the same claims but for the audience, which is the
    [resource] sent, or the base URL without one. *)
Theorem X24_resource_selects_audience_only env req st (x : option string) :
  let o := tokenEndpoint env req st in
  let o' := tokenEndpoint env (with_resource x req) st in
  success (out_response o') = success (out_response o) /\
  authorizationCodes (out_store o') = authorizationCodes (out_store o) /\
  refreshTokens (out_store o') = refreshTokens (out_store o) /\
  (success (out_response o) = false -> o' = o) /\
  (success (out_response o) = true ->
   exists claims accessToken accessToken' tokenData,
     FlowHelpers.data_access_token (body (out_response o)) = Some accessToken /\
     accessToken = jwt_sign claims (now_sign env) /\
     FlowHelpers.data_access_token (body (out_response o')) = Some accessToken' /\
     accessToken' =
       jwt_sign {| jc_sub := jc_sub claims; jc_scope := jc_scope claims;
                   jc_aud := if truthy x then str x else baseUrl;
                   jc_client_id := jc_client_id claims |} (now_sign env) /\
     FlowHelpers.data_refresh_token (body (out_response o')) =
       FlowHelpers.data_refresh_token (body (out_response o)) /\
     FlowHelpers.data_scope (body (out_response o')) =
       FlowHelpers.data_scope (body (out_response o)) /\
     tokens (out_store o) = <[accessToken := tokenData]> (tokens st) /\
     tokens (out_store o') = <[accessToken' := tokenData]> (tokens st)).
Proof.
  intros o o'. subst o o'. destruct st as [codes toks refs].
  unfold with_resource. unfold_handler.
  cbn [grant_type client_id code code_verifier redirect_uri refresh_token
       resource].
  hred.
  repeat (case_cond; hred).
  all: repeat split; try reflexivity; try discriminate.
  all: intros _; eexists _, _, _, _; repeat split; reflexivity.
Qed.

(** *** What the helpers return *)

(** X25.  The helpers [refreshTokens] and [exchangeCodeForTokens] throw
    exactly when the grant is refused, with an OAuth error body and no
    access token stored; when they return, no member of the result is
    undefined: the access token has a record in the store, the refresh
    token is the one just drawn and has a record, the lifetime is 3600
    seconds and the scope is a string. *)
Theorem X25_helper_results env (refreshToken clientId : option string)
    (c codeVerifier : string) (options_clientId options_redirectUri
    : option string) st :
  match FlowHelpers.refreshTokens baseUrl jwt_sign env refreshToken clientId
          st with
  | (st', inl error) =>
      (exists e d, error = ErrorBody e d) /\ tokens st' = tokens st
  | (st', inr result) =>
      exists accessToken scope,
        FlowHelpers.newAccessToken result = Some accessToken /\
        FlowHelpers.newRefreshToken result = Some (new_refresh_token env) /\
        FlowHelpers.trr_expiresIn result = Some 3600 /\
        FlowHelpers.trr_scope result = Some (inl scope) /\
        is_Some (tokens st' !! accessToken) /\
        is_Some (refreshTokens st' !! new_refresh_token env)
  end /\
  match FlowHelpers.exchangeCodeForTokens baseUrl jwt_sign env c codeVerifier
          options_clientId options_redirectUri st with
  | (st', inl error) =>
      (exists e d, error = ErrorBody e d) /\ tokens st' = tokens st
  | (st', inr result) =>
      exists accessToken scope,
        FlowHelpers.ter_accessToken result = Some accessToken /\
        FlowHelpers.ter_refreshToken result = Some (new_refresh_token env) /\
        FlowHelpers.ter_expiresIn result = Some 3600 /\
        FlowHelpers.ter_scope result = Some (inl scope) /\
        is_Some (tokens st' !! accessToken) /\
        is_Some (refreshTokens st' !! new_refresh_token env)
  end.
Proof.
  assert (G : forall req,
    let o := tokenEndpoint env req st in
    (FlowHelpers.ok (out_response o) = false /\
     (exists e d, body (out_response o) = ErrorBody e d) /\
     tokens (out_store o) = tokens st) \/
    (FlowHelpers.ok (out_response o) = true /\
     exists accessToken scope,
       body (out_response o) =
         TokenBody accessToken (new_refresh_token env) "Bearer" 3600 scope /\
       is_Some (tokens (out_store o) !! accessToken) /\
       is_Some (refreshTokens (out_store o) !! new_refresh_token env))).
  { intros req o.
    destruct (success (out_response o)) eqn:Hs.
    - right.
      assert (Hst := token_store_ops baseUrl jwt_sign env req st).
      fold o in Hst.
      destruct (is_str (grant_type req) "authorization_code") eqn:Hg.
      + destruct (redeem_success baseUrl jwt_sign env req st Hg Hs)
          as (authCode & _ & _ & _ & _ & _ & _ & _ & _ & Hops & Hresp).
        fold o in Hops, Hresp. rewrite Hresp, Hst, Hops. hred.
        split; [reflexivity|]. eexists _, _. split; [reflexivity|].
        rewrite !lookup_insert_eq. split; eexists; reflexivity.
      + destruct (refresh_success baseUrl jwt_sign env req st Hg Hs)
          as (stored & _ & _ & _ & _ & _ & _ & Hops & Hresp).
        fold o in Hops, Hresp. rewrite Hresp, Hst, Hops. hred.
        split; [reflexivity|]. eexists _, _. split; [reflexivity|].
        rewrite !lookup_insert_eq. split; eexists; reflexivity.
    - left.
      destruct (refused_request env req st Hs) as (H400 & Herr & Htok & _).
      fold o in H400, Herr, Htok.
      split; [unfold FlowHelpers.ok; rewrite H400; reflexivity|].
      split; [|exact Htok].
      destruct Herr as [(d & ->)|[(d & ->)|(d & ->)]]; eexists _, _;
        reflexivity. }
  split.
  - unfold FlowHelpers.refreshTokens.
    match goal with
    | |- context [tokenEndpoint env ?r st] =>
        destruct (G r) as [(Hok & Herr & Htok)|(Hok & a & s & Hb & H1 & H2)]
    end.
    + rewrite Hok. cbn [negb]. split; assumption.
    + rewrite Hok. cbn [negb]. exists a, s. rewrite Hb.
      repeat split; assumption.
  - unfold FlowHelpers.exchangeCodeForTokens.
    match goal with
    | |- context [tokenEndpoint env ?r st] =>
        destruct (G r) as [(Hok & Herr & Htok)|(Hok & a & s & Hb & H1 & H2)]
    end.
    + rewrite Hok. cbn [negb]. split; assumption.
    + rewrite Hok. cbn [negb]. exists a, s. rewrite Hb.
      repeat split; assumption.
Qed.

End TokenEndpointMore.

(** * The PKCE and JWT helpers *)

(** *** The encoding has [ceil(4n/3)] characters of the URL-safe alphabet *)

Lemma encode_url_length bs :
  String.length (Base64.encode_url bs) = ((4 * length bs + 2) / 3)%nat.
Proof.
  induction bs as [| a | a b | a b c l IH] using list_ind3;
    try reflexivity.
  change (String.length (Base64.encode_url (a :: b :: c :: l)))
    with (S (S (S (S (String.length (Base64.encode_url l)))))).
  rewrite IH. cbn [length].
  replace (4 * S (S (S (length l))) + 2)%nat
    with (4 * length l + 2 + 4 * 3)%nat by lia.
  rewrite Nat.div_add by lia. lia.
Qed.

Lemma url_char_elem i : 0 <= i < 64 -> Base64.url_char i ∈ url_chars.
Proof.
  revert i. apply sextet_cases. intros n Hn.
  do 64 (destruct n as [|n];
         [apply (bool_decide_unpack _); vm_compute; exact I|]).
  lia.
Qed.

Lemma encode_url_chars bs :
  List.Forall is_byte bs ->
  Forall (fun c => c ∈ url_chars)
    (list_ascii_of_string (Base64.encode_url bs)).
Proof.
  induction bs as [| a | a b | a b c l IH] using list_ind3; intros Hb.
  - apply List.Forall_nil.
  - inversion Hb as [|? ? Ha _]; subst.
    destruct (sextets_range a 0 0 Ha) as (? & ? & ? & ? & ? & ?);
      [unfold is_byte; lia..|].
    cbn [Base64.encode_url list_ascii_of_string].
    repeat (apply List.Forall_cons; [apply url_char_elem; assumption|]).
    apply List.Forall_nil.
  - inversion Hb as [|? ? Ha Hb']; subst.
    inversion Hb' as [|? ? Hb0 _]; subst.
    destruct (sextets_range a b 0 Ha Hb0) as (? & ? & ? & ? & ? & ?);
      [unfold is_byte; lia|].
    cbn [Base64.encode_url list_ascii_of_string].
    repeat (apply List.Forall_cons; [apply url_char_elem; assumption|]).
    apply List.Forall_nil.
  - inversion Hb as [|? ? Ha Hb']; subst.
    inversion Hb' as [|? ? Hb0 Hb'']; subst.
    inversion Hb'' as [|? ? Hc Hl]; subst.
    destruct (sextets_range a b c Ha Hb0 Hc) as (? & ? & ? & ? & ? & ?).
    cbn [Base64.encode_url list_ascii_of_string].
    repeat (apply List.Forall_cons; [apply url_char_elem; assumption|]).
    apply IH. exact Hl.
Qed.

(** [slice(0, n)] is the list of the first [n] characters. *)
Lemma substring_take n s :
  list_ascii_of_string (String.substring 0 n s) =
  take n (list_ascii_of_string s).
Proof.
  revert n. induction s as [|c s IH]; intros [|n]; try reflexivity.
  cbn [String.substring list_ascii_of_string take]. rewrite IH. reflexivity.
Qed.

Lemma list_ascii_length s :
  length (list_ascii_of_string s) = String.length s.
Proof. induction s as [|c s IH]; [reflexivity|]. cbn. rewrite IH. reflexivity. Qed.

Section CryptoProperties.

Variable randomBytes : nat -> list Z.
Variable utf8_of_base64 : string -> string.
Variable JSON_stringify : Json -> string.
Variable JSON_parse : string -> option Json.

Hypothesis randomBytes_length : forall n, length (randomBytes n) = n.
Hypothesis randomBytes_range : forall n, List.Forall is_byte (randomBytes n).

Lemma generateCodeVerifier_chars (n : nat) :
  length (list_ascii_of_string (generateCodeVerifier randomBytes n)) = n /\
  Forall (fun c => c ∈ url_chars)
    (list_ascii_of_string (generateCodeVerifier randomBytes n)).
Proof.
  unfold generateCodeVerifier. cbv zeta.
  rewrite substring_take,
    (base64UrlEncode_encode_url _ (randomBytes_range _)).
  split.
  - rewrite length_take, list_ascii_length, encode_url_length,
      randomBytes_length.
    apply Nat.min_l.
    pose proof (Nat.div_mod_eq (n * 3 + 3) 4) as E1.
    pose proof (Nat.mod_upper_bound (n * 3 + 3) 4) as B1.
    pose proof (Nat.div_mod_eq (4 * ((n * 3 + 3) / 4) + 2) 3) as E2.
    pose proof (Nat.mod_upper_bound (4 * ((n * 3 + 3) / 4) + 2) 3) as B2.
    lia.
  - apply Forall_take, encode_url_chars, randomBytes_range.
Qed.

Lemma generateCodeVerifier_shape (n : nat) :
  String.length (generateCodeVerifier randomBytes n) = n /\
  list_ascii_of_string (generateCodeVerifier randomBytes n)
    ∈ words url_chars n.
Proof.
  destruct (generateCodeVerifier_chars n) as (Hlen & Hall). split.
  - rewrite <- list_ascii_length. exact Hlen.
  - rewrite <- Hlen at 2. apply words_elem. exact Hall.
Qed.

(** X11.  [generateCodeVerifier(length)] returns exactly [length]
    characters, all of the URL-safe alphabet, whatever bytes are drawn:
    the buffer of [ceil(3 length / 4)] bytes always encodes to enough
    characters.  With the default length it has the shape of a
    43-character verifier. *)
Theorem X11_code_verifier_shape (n : nat) :
  String.length (generateCodeVerifier randomBytes n) = n /\
  list_ascii_of_string (generateCodeVerifier randomBytes n)
    ∈ words url_chars n /\
  is_verifier (generateCodeVerifier randomBytes 43).
Proof.
  split; [|split]; apply generateCodeVerifier_shape.
Qed.

End CryptoProperties.

(** X12.  Every code challenge is 43 characters of the URL-safe
    alphabet: the digest has 32 bytes, and the encoding carries no
    padding and none of the characters [+], [/] and [=]. *)
Theorem X12_code_challenge_shape (codeVerifier : string) :
  String.length (generateCodeChallenge codeVerifier) = 43%nat /\
  list_ascii_of_string (generateCodeChallenge codeVerifier)
    ∈ words url_chars 43 /\
  Forall (fun c => c <> "+"%char /\ c <> "/"%char /\ c <> "="%char)
    (list_ascii_of_string (generateCodeChallenge codeVerifier)).
Proof.
  unfold generateCodeChallenge.
  rewrite (base64UrlEncode_encode_url _ (sha256_range _)).
  assert (Hlen : String.length
                   (Base64.encode_url (Sha256.sha256 codeVerifier)) = 43%nat)
    by (rewrite encode_url_length, sha256_length; reflexivity).
  pose proof (encode_url_chars _ (sha256_range codeVerifier)) as Hall.
  split; [exact Hlen|]. split.
  - rewrite <- Hlen, <- list_ascii_length. apply words_elem. exact Hall.
  - eapply Forall_impl; [exact Hall|].
    intros c Hc. repeat split; intros ->; revert Hc;
      apply (bool_decide_unpack _); vm_compute; exact I.
Qed.

(** *** [base64UrlDecode] undoes [base64UrlEncode] *)

Lemma append_cons (c : ascii) (s1 s2 : string) :
  String c s1 +:+ s2 = String c (s1 +:+ s2).
Proof. reflexivity. Qed.

Lemma append_empty (s : string) : EmptyString +:+ s = s.
Proof. reflexivity. Qed.

Lemma append_assoc (s1 s2 s3 : string) :
  (s1 +:+ s2) +:+ s3 = s1 +:+ (s2 +:+ s3).
Proof.
  induction s1 as [|c s1 IH]; [reflexivity|].
  rewrite !append_cons, IH. reflexivity.
Qed.

Lemma append_length (s1 s2 : string) :
  String.length (s1 +:+ s2) = (String.length s1 + String.length s2)%nat.
Proof.
  induction s1 as [|c s1 IH]; [reflexivity|].
  rewrite append_cons. cbn [String.length]. rewrite IH. reflexivity.
Qed.

Lemma replace_append c r (s1 s2 : string) :
  Base64.replace c r (s1 +:+ s2) =
  Base64.replace c r s1 +:+ Base64.replace c r s2.
Proof.
  induction s1 as [|x s1 IH]; [reflexivity|].
  rewrite append_cons. cbn [Base64.replace]. rewrite IH.
  destruct (Ascii.eqb x c); [|reflexivity].
  symmetry. apply append_assoc.
Qed.

(** Four characters in front do not change the padding. *)
Lemma pad_four (p s : string) :
  String.length p = 4%nat ->
  base64_text (p +:+ s) =
  Base64.replace "_" "/" (Base64.replace "-" "+" p) +:+ base64_text s.
Proof.
  intros Hp. unfold base64_text. cbv zeta.
  rewrite append_length, Hp.
  replace (4 + String.length s)%nat with (String.length s + 1 * 4)%nat by lia.
  rewrite Nat.Div0.mod_add.
  destruct (negb (4 - String.length s mod 4 =? 4)%nat).
  - rewrite append_assoc, !replace_append. reflexivity.
  - rewrite !replace_append. reflexivity.
Qed.

Lemma restore_char i :
  0 <= i < 64 ->
  Base64.replace "_" "/" (Base64.replace "-" "+"
    (String (Base64.url_char i) EmptyString)) =
  String (Base64.char i) EmptyString.
Proof. revert i. apply sextet_cases. intros n Hn. each_sextet n. Qed.

Lemma restore_cons i s :
  0 <= i < 64 ->
  Base64.replace "_" "/" (Base64.replace "-" "+"
    (String (Base64.url_char i) s)) =
  String (Base64.char i)
    (Base64.replace "_" "/" (Base64.replace "-" "+" s)).
Proof.
  intros Hi.
  change (String (Base64.url_char i) s)
    with (String (Base64.url_char i) EmptyString +:+ s).
  rewrite !replace_append, (restore_char i Hi). reflexivity.
Qed.

Lemma base64_text_two (c1 c2 : ascii) :
  base64_text (String c1 (String c2 EmptyString)) =
  Base64.replace "_" "/" (Base64.replace "-" "+"
    (String c1 (String c2 "=="))).
Proof. reflexivity. Qed.

Lemma base64_text_three (c1 c2 c3 : ascii) :
  base64_text (String c1 (String c2 (String c3 EmptyString))) =
  Base64.replace "_" "/" (Base64.replace "-" "+"
    (String c1 (String c2 (String c3 "=")))).
Proof. reflexivity. Qed.

Lemma base64_text_encode_url bs :
  List.Forall is_byte bs ->
  base64_text (Base64.encode_url bs) = Base64.encode bs.
Proof.
  induction bs as [| a | a b | a b c l IH] using list_ind3; intros Hb.
  - reflexivity.
  - inversion Hb as [|? ? Ha _]; subst.
    destruct (sextets_range a 0 0 Ha) as (R1 & _ & _ & _ & R2 & _);
      [unfold is_byte; lia..|].
    cbn [Base64.encode_url Base64.encode].
    rewrite base64_text_two, (restore_cons _ _ R1), (restore_cons _ _ R2).
    reflexivity.
  - inversion Hb as [|? ? Ha Hb']; subst.
    inversion Hb' as [|? ? Hb0 _]; subst.
    destruct (sextets_range a b 0 Ha Hb0) as (R1 & R2 & _ & _ & _ & R3);
      [unfold is_byte; lia|].
    cbn [Base64.encode_url Base64.encode].
    rewrite base64_text_three, (restore_cons _ _ R1), (restore_cons _ _ R2),
      (restore_cons _ _ R3).
    reflexivity.
  - inversion Hb as [|? ? Ha Hb']; subst.
    inversion Hb' as [|? ? Hb0 Hb'']; subst.
    inversion Hb'' as [|? ? Hc Hl]; subst.
    destruct (sextets_range a b c Ha Hb0 Hc) as (R1 & R2 & R3 & R4 & _ & _).
    cbn [Base64.encode_url Base64.encode].
    match goal with
    | |- base64_text (String ?c1 (String ?c2 (String ?c3 (String ?c4 ?s)))) = _ =>
        change (String c1 (String c2 (String c3 (String c4 s))))
          with (String c1 (String c2 (String c3 (String c4 EmptyString)))
                +:+ s)
    end.
    rewrite pad_four by reflexivity.
    rewrite (restore_cons _ _ R1), (restore_cons _ _ R2),
      (restore_cons _ _ R3), (restore_cons _ _ R4), (IH Hl).
    reflexivity.
Qed.

Lemma base64UrlDecode_encode (utf8_of_base64 : string -> string)
    (buffer : list Z) :
  List.Forall is_byte buffer ->
  base64UrlDecode utf8_of_base64 (Base64.base64UrlEncode buffer) =
  utf8_of_base64 (Base64.encode buffer).
Proof.
  intros Hb.
  change (base64UrlDecode utf8_of_base64 (Base64.base64UrlEncode buffer))
    with (utf8_of_base64 (base64_text (Base64.base64UrlEncode buffer))).
  rewrite (base64UrlEncode_encode_url _ Hb), (base64_text_encode_url _ Hb).
  reflexivity.
Qed.

Lemma replace_length (c x : ascii) (s : string) :
  String.length (Base64.replace c (String x EmptyString) s) = String.length s.
Proof.
  induction s as [|y s IH]; [reflexivity|].
  cbn [Base64.replace]. destruct (Ascii.eqb y c).
  - rewrite append_cons, append_empty. cbn [String.length].
    rewrite IH. reflexivity.
  - cbn [String.length]. rewrite IH. reflexivity.
Qed.

Lemma repeat_string_length (c : ascii) (n : nat) :
  String.length (repeat_string (String c EmptyString) n) = n.
Proof.
  induction n as [|n IH]; [reflexivity|].
  cbn [repeat_string]. rewrite append_cons, append_empty.
  cbn [String.length]. rewrite IH. reflexivity.
Qed.

(** X13.  [base64UrlDecode] undoes [base64UrlEncode]: for every buffer,
    the text it hands to the Base64 decoder (padding restored, standard
    alphabet restored) is the standard Base64 text of the buffer.  For
    any ASCII input at all, that text has a multiple of four
    characters. *)
Theorem X13_base64url_round_trip (utf8_of_base64 : string -> string) :
  (forall buffer : list Z,
     List.Forall is_byte buffer ->
     base64_text (Base64.base64UrlEncode buffer) = Base64.encode buffer /\
     base64UrlDecode utf8_of_base64 (Base64.base64UrlEncode buffer) =
       utf8_of_base64 (Base64.encode buffer)) /\
  (forall str : string,
     ascii_text str ->
     base64UrlDecode utf8_of_base64 str = utf8_of_base64 (base64_text str) /\
     (String.length (base64_text str) mod 4 = 0)%nat).
Proof.
  split.
  - intros buffer Hb. split.
    + rewrite (base64UrlEncode_encode_url _ Hb).
      apply base64_text_encode_url, Hb.
    + apply base64UrlDecode_encode, Hb.
  - intros str _. split; [reflexivity|].
    unfold base64_text. cbv zeta. rewrite !replace_length.
    pose proof (Nat.mod_upper_bound (String.length str) 4) as B.
    pose proof (Nat.div_mod_eq (String.length str) 4) as E.
    destruct (Nat.eqb_spec (4 - String.length str mod 4) 4) as [H4|H4];
      cbn [negb].
    + replace (String.length str)
        with (0 + (String.length str / 4) * 4)%nat by lia.
      apply Nat.Div0.mod_add.
    + rewrite append_length, repeat_string_length.
      replace (String.length str + (4 - String.length str mod 4))%nat
        with (0 + (String.length str / 4 + 1) * 4)%nat by lia.
      apply Nat.Div0.mod_add.
Qed.

(** *** [decodeJWT] and the dots of a token *)

Lemma js_split_length sep s :
  length (js_split sep s) = S (count_char sep s).
Proof.
  induction s as [|c s IH]; [reflexivity|].
  cbn [js_split count_char]. destruct (Ascii.eqb c sep).
  - cbn [length]. rewrite IH. reflexivity.
  - destruct (js_split sep s) as [|piece pieces]; [discriminate|].
    cbn [length] in *. rewrite IH. reflexivity.
Qed.

(** The pieces of a text that starts with a piece without separator. *)
Lemma js_split_append sep (s rest : string) :
  count_char sep s = 0%nat ->
  js_split sep (s +:+ String sep rest) = s :: js_split sep rest.
Proof.
  induction s as [|c s IH]; intros Hs.
  - change (EmptyString +:+ String sep rest) with (String sep rest).
    cbn [js_split]. rewrite Ascii.eqb_refl. reflexivity.
  - rewrite append_cons. cbn [js_split count_char] in *.
    destruct (Ascii.eqb c sep); [discriminate|].
    rewrite (IH Hs). reflexivity.
Qed.

Lemma js_split_whole sep (s : string) :
  count_char sep s = 0%nat -> js_split sep s = [s].
Proof.
  induction s as [|c s IH]; intros Hs; [reflexivity|].
  cbn [js_split count_char] in *.
  destruct (Ascii.eqb c sep); [discriminate|].
  rewrite (IH Hs). reflexivity.
Qed.

(** The pieces put together with the separator are the text. *)
Lemma js_split_join sep (s : string) :
  String.concat (String sep EmptyString) (js_split sep s) = s.
Proof.
  induction s as [|c s IH]; [reflexivity|].
  cbn [js_split]. destruct (Ascii.eqb_spec c sep) as [->|Hne].
  - destruct (js_split sep s) as [|piece pieces] eqn:E.
    + pose proof (js_split_length sep s) as Hl. rewrite E in Hl. discriminate.
    + change (String.concat (String sep EmptyString)
                (EmptyString :: piece :: pieces))
        with (String sep (String.concat (String sep EmptyString)
                            (piece :: pieces))).
      rewrite IH. reflexivity.
  - destruct (js_split sep s) as [|piece pieces] eqn:E.
    + pose proof (js_split_length sep s) as Hl. rewrite E in Hl. discriminate.
    + rewrite <- IH. destruct pieces; reflexivity.
Qed.

Lemma url_text_no_dot (s : string) :
  Forall (fun c => c ∈ url_chars) (list_ascii_of_string s) ->
  count_char "." s = 0%nat.
Proof.
  induction s as [|c s IH]; intros Hs; [reflexivity|].
  cbn [list_ascii_of_string] in Hs. inversion Hs as [|? ? Hc Hs']; subst.
  cbn [count_char]. rewrite (IH Hs').
  destruct (Ascii.eqb_spec c "."%char) as [->|_]; [|reflexivity].
  exfalso. revert Hc. apply (bool_decide_unpack _). vm_compute. exact I.
Qed.

Lemma base64UrlEncode_no_dot (buffer : list Z) :
  List.Forall is_byte buffer ->
  count_char "." (Base64.base64UrlEncode buffer) = 0%nat.
Proof.
  intros Hb. rewrite (base64UrlEncode_encode_url _ Hb).
  apply url_text_no_dot, encode_url_chars, Hb.
Qed.

Lemma bytes_of_string_range s : List.Forall is_byte (Sha256.bytes_of_string s).
Proof.
  unfold Sha256.bytes_of_string. apply List.Forall_forall. intros b Hb.
  apply List.in_map_iff in Hb as (c & <- & _).
  unfold is_byte. pose proof (N_ascii_bounded c). lia.
Qed.

Section JwtProperties.

Variable randomBytes : nat -> list Z.
Variable utf8_of_base64 : string -> string.
Variable JSON_stringify : Json -> string.
Variable JSON_parse : string -> option Json.

Hypothesis randomBytes_range : forall n, List.Forall is_byte (randomBytes n).

(** X14.  [decodeJWT] raises 'Invalid JWT format' exactly for the
    tokens that do not have exactly two dots.  A token with two dots is
    cut at them, empty pieces included: the pieces put together with
    dots are the token, the third one is returned as the signature as
    it is, and the token is refused only if one of the first two does
    not decode to JSON. *)
Theorem X14_jwt_format (token : string) :
  (decodeJWT utf8_of_base64 JSON_parse token = inl InvalidJwtFormat <->
   count_char "." token <> 2%nat) /\
  (ascii_text token ->
   count_char "." token = 2%nat ->
   exists headerB64 payloadB64 signature,
     token = headerB64 +:+ "." +:+ payloadB64 +:+ "." +:+ signature /\
     decodeJWT utf8_of_base64 JSON_parse token =
       match JSON_parse (base64UrlDecode utf8_of_base64 headerB64) with
       | None => inl JsonSyntaxError
       | Some header =>
           match JSON_parse (base64UrlDecode utf8_of_base64 payloadB64) with
           | None => inl JsonSyntaxError
           | Some payload =>
               inr {| dt_header := header; dt_payload := payload;
                      dt_signature := signature |}
           end
       end).
Proof.
  pose proof (js_split_length "." token) as Hlen.
  pose proof (js_split_join "." token) as Hjoin.
  unfold decodeJWT.
  destruct (js_split "." token) as [|h [|p [|sg [|x rest]]]];
    cbn [length] in Hlen.
  - discriminate.
  - split; [split; [lia|reflexivity]|intros _; lia].
  - split; [split; [lia|reflexivity]|intros _; lia].
  - split.
    + split; [|lia].
      destruct (JSON_parse (base64UrlDecode utf8_of_base64 h));
        [|discriminate].
      destruct (JSON_parse (base64UrlDecode utf8_of_base64 p)); discriminate.
    + intros _ _. exists h, p, sg. split; [|reflexivity].
      rewrite <- Hjoin. reflexivity.
  - split; [split; [lia|reflexivity]|intros _; lia].
Qed.

(** X15.  The fake Privy tokens have the JWT format: the three pieces
    that [generateFakePrivyToken] and [generateExpiredPrivyToken] put
    together hold no dot, so [decodeJWT] cuts the token back into
    them; it parses the header and the payload from the standard
    Base64 text of the two JSON texts that were encoded, and returns
    the signature piece. *)
Theorem X15_fake_token_decodes (expired : bool) (now_exp now_iat : Z)
    (userId : string) (appId : option string) :
  let token :=
    if expired then
      generateExpiredPrivyToken randomBytes JSON_stringify now_exp now_iat
        userId appId
    else
      generateFakePrivyToken randomBytes JSON_stringify now_exp now_iat
        userId appId in
  let header := JObject [("alg", JString "HS256"); ("typ", JString "JWT")] in
  let payload :=
    JObject [("sub", JString userId);
             ("aud", JString (default "test-app" appId));
             ("iss", JString "privy.io");
             ("exp", JNumber (if expired then now_exp / 1000 - 3600
                              else now_exp / 1000 + 3600));
             ("iat", JNumber (if expired then now_iat / 1000 - 7200
                              else now_iat / 1000))] in
  let text (j : Json) :=
    utf8_of_base64
      (Base64.encode (Sha256.bytes_of_string (JSON_stringify j))) in
  count_char "." token = 2%nat /\
  decodeJWT utf8_of_base64 JSON_parse token <> inl InvalidJwtFormat /\
  decodeJWT utf8_of_base64 JSON_parse token =
    match JSON_parse (text header) with
    | None => inl JsonSyntaxError
    | Some h =>
        match JSON_parse (text payload) with
        | None => inl JsonSyntaxError
        | Some p =>
            inr {| dt_header := h; dt_payload := p;
                   dt_signature :=
                     Base64.base64UrlEncode (randomBytes 32) |}
        end
    end.
Proof.
  intros token header payload text.
  set (hb := Sha256.bytes_of_string (JSON_stringify header)).
  set (pb := Sha256.bytes_of_string (JSON_stringify payload)).
  assert (Ht : token =
               Base64.base64UrlEncode hb +:+ "." +:+
               Base64.base64UrlEncode pb +:+ "." +:+
               Base64.base64UrlEncode (randomBytes 32)).
  { subst token hb pb header payload. destruct expired; reflexivity. }
  assert (Hh : List.Forall is_byte hb) by apply bytes_of_string_range.
  assert (Hp : List.Forall is_byte pb) by apply bytes_of_string_range.
  assert (Hsplit : js_split "." token =
                   [Base64.base64UrlEncode hb; Base64.base64UrlEncode pb;
                    Base64.base64UrlEncode (randomBytes 32)]).
  { rewrite Ht.
    change (Base64.base64UrlEncode hb +:+ "." +:+
            Base64.base64UrlEncode pb +:+ "." +:+
            Base64.base64UrlEncode (randomBytes 32))
      with (Base64.base64UrlEncode hb +:+
            String "." (Base64.base64UrlEncode pb +:+
                        String "." (Base64.base64UrlEncode (randomBytes 32)))).
    rewrite !js_split_append by (apply base64UrlEncode_no_dot; auto).
    rewrite js_split_whole by (apply base64UrlEncode_no_dot; auto).
    reflexivity. }
  assert (Hcount : count_char "." token = 2%nat).
  { pose proof (js_split_length "." token) as Hlen.
    rewrite Hsplit in Hlen. cbn [length] in Hlen. lia. }
  assert (Hdec : decodeJWT utf8_of_base64 JSON_parse token =
                 match JSON_parse (text header) with
                 | None => inl JsonSyntaxError
                 | Some h =>
                     match JSON_parse (text payload) with
                     | None => inl JsonSyntaxError
                     | Some p =>
                         inr {| dt_header := h; dt_payload := p;
                                dt_signature :=
                                  Base64.base64UrlEncode (randomBytes 32) |}
                     end
                 end).
  { unfold decodeJWT. rewrite Hsplit.
    rewrite !base64UrlDecode_encode by assumption. reflexivity. }
  split; [exact Hcount|]. split; [|exact Hdec].
  rewrite Hdec.
  destruct (JSON_parse (text header)); [|discriminate].
  destruct (JSON_parse (text payload)); discriminate.
Qed.

End JwtProperties.

(** *** [generateState] *)

Lemma append_empty_r (s : string) : s +:+ EmptyString = s.
Proof.
  induction s as [|c s IH]; [reflexivity|].
  rewrite append_cons, IH. reflexivity.
Qed.

Lemma concat_empty_cons (x : string) (l : list string) :
  String.concat EmptyString (x :: l) = x +:+ String.concat EmptyString l.
Proof.
  destruct l as [|y l]; [symmetry; apply append_empty_r|reflexivity].
Qed.

Lemma hex_byte (b : Z) :
  is_byte b ->
  exists c1 c2,
    Sha256.hex_digit (b / 16) +:+ Sha256.hex_digit (b mod 16) =
      String c1 (String c2 EmptyString) /\
    c1 ∈ list_ascii_of_string "0123456789abcdef" /\
    c2 ∈ list_ascii_of_string "0123456789abcdef".
Proof.
  intros Hb. unfold is_byte in Hb.
  assert (D : forall d, 0 <= d < 16 ->
                exists c, Sha256.hex_digit d = String c EmptyString /\
                          c ∈ list_ascii_of_string "0123456789abcdef").
  { intros d Hd. replace d with (Z.of_nat (Z.to_nat d)) by lia.
    assert (Hn : (Z.to_nat d < 16)%nat) by lia.
    generalize dependent (Z.to_nat d). intros n Hn.
    do 16 (destruct n as [|n];
           [eexists; split; [reflexivity|];
            apply (bool_decide_unpack _); vm_compute; exact I|]).
    lia. }
  destruct (D (b / 16)) as (c1 & E1 & H1).
  { split; [apply Z.div_pos; lia|apply Z.div_lt_upper_bound; lia]. }
  destruct (D (b mod 16)) as (c2 & E2 & H2).
  { apply Z.mod_pos_bound. lia. }
  exists c1, c2. rewrite E1, E2. repeat split; assumption.
Qed.

Lemma hex_shape (bs : list Z) :
  List.Forall is_byte bs ->
  String.length (Sha256.hex bs) = (2 * length bs)%nat /\
  Forall (fun c => c ∈ list_ascii_of_string "0123456789abcdef")
    (list_ascii_of_string (Sha256.hex bs)).
Proof.
  unfold Sha256.hex.
  induction bs as [|b bs IH]; intros Hb.
  - split; [reflexivity|apply List.Forall_nil].
  - inversion Hb as [|? ? Hb0 Hbs]; subst.
    destruct (IH Hbs) as (IHlen & IHall).
    destruct (hex_byte b Hb0) as (c1 & c2 & E & H1 & H2).
    cbn [map]. rewrite concat_empty_cons, E, !append_cons, append_empty.
    cbn [String.length list_ascii_of_string length]. split.
    + rewrite IHlen. lia.
    + apply List.Forall_cons; [exact H1|].
      apply List.Forall_cons; [exact H2|]. exact IHall.
Qed.

(** X27.  [generateState()] returns 32 lowercase hexadecimal digits,
    whatever sixteen bytes are drawn; in particular the state is never
    empty. *)
Theorem X27_state_shape (randomBytes : nat -> list Z) :
  (forall n, length (randomBytes n) = n) ->
  (forall n, List.Forall is_byte (randomBytes n)) ->
  String.length (generateState randomBytes) = 32%nat /\
  Forall (fun c => c ∈ list_ascii_of_string "0123456789abcdef")
    (list_ascii_of_string (generateState randomBytes)) /\
  generateState randomBytes <> "".
Proof.
  intros Hlen Hrange. unfold generateState.
  destruct (hex_shape (randomBytes 16%nat) (Hrange 16%nat)) as (H1 & H2).
  rewrite Hlen in H1. split; [exact H1|]. split; [exact H2|].
  intros E. rewrite E in H1. discriminate.
Qed.

(** *** The PKCE pair of the helpers at the token endpoint *)

(** X10.  The PKCE pair of the helpers redeems.  For a code that is
    stored, unused and not expired, issued to the default client with
    the first default redirect URI and with the challenge of
    [generatePKCEPair()], [exchangeCodeForTokens] with the verifier of
    the pair and no options is served, whatever bytes were drawn: it
    returns the signed access token, the new refresh token, 3600
    seconds and the scopes of the code, and the code is gone. *)
Theorem X10_pkce_pair_redeems (baseUrl : string)
    (jwt_sign : JwtClaims -> Z -> string) (randomBytes : nat -> list Z)
    env (c : string) authCode st :
  (forall n, length (randomBytes n) = n) ->
  (forall n, List.Forall is_byte (randomBytes n)) ->
  c <> "" ->
  authorizationCodes st !! c = Some authCode ->
  ac_used authCode = false ->
  now_check env <= ac_expiresAt authCode ->
  ac_clientId authCode = FlowHelpers.DEFAULT_CLIENT_ID ->
  head FlowHelpers.DEFAULT_REDIRECT_URIS = Some (ac_redirectUri authCode) ->
  ac_codeChallenge authCode = (generatePKCEPair randomBytes).2 ->
  exists st' accessToken,
    FlowHelpers.exchangeCodeForTokens baseUrl jwt_sign env c
      (generatePKCEPair randomBytes).1 None None st =
      (st', inr {| FlowHelpers.ter_accessToken := Some accessToken;
                   FlowHelpers.ter_refreshToken :=
                     Some (new_refresh_token env);
                   FlowHelpers.ter_expiresIn := Some 3600;
                   FlowHelpers.ter_scope :=
                     Some (inl (String.concat " " (ac_scopes authCode))) |}) /\
    accessToken =
      jwt_sign {| jc_sub := ac_privyUserId authCode;
                  jc_scope := String.concat " " (ac_scopes authCode);
                  jc_aud := baseUrl;
                  jc_client_id := FlowHelpers.DEFAULT_CLIENT_ID |}
        (now_sign env) /\
    authorizationCodes st' !! c = None /\
    (td_privyToken <$> (tokens st' !! accessToken)) =
      Some (ac_privyToken authCode).
Proof.
  intros Hlen Hrange Hcode Hlook Hused Hexp Hcl Hredir Hch.
  set (verifier := (generatePKCEPair randomBytes).1).
  set (req := {| grant_type := Some "authorization_code";
                 client_id := Some FlowHelpers.DEFAULT_CLIENT_ID;
                 code := Some c;
                 code_verifier := Some verifier;
                 redirect_uri := head FlowHelpers.DEFAULT_REDIRECT_URIS;
                 refresh_token := None;
                 resource := None |}).
  assert (Hv : verifier <> "").
  { intros E.
    pose proof (proj1 (generateCodeVerifier_shape randomBytes Hlen Hrange 43)) as L.
    change (generateCodeVerifier randomBytes 43) with verifier in L.
    rewrite E in L. discriminate. }
  assert (Hreq : is_redemption req c).
  { repeat split; try reflexivity; try assumption.
    apply truthy_Some. exact Hv. }
  assert (Hs : success (out_response (tokenEndpoint baseUrl jwt_sign env req st))
               = true).
  { apply (redeem_valid_code baseUrl jwt_sign env req st c authCode Hreq
             Hlook Hused Hexp).
    - cbn [client_id req]. rewrite Hcl. reflexivity.
    - intros _. exact Hredir.
    - rewrite Hch. apply validatePKCE_own. }
  destruct (redeem_success baseUrl jwt_sign env req st eq_refl Hs)
    as (authCode' & Hlook' & _ & _ & _ & _ & _ & _ & _ & Hops & Hresp).
  change (str (code req)) with c in Hlook', Hops.
  rewrite Hlook in Hlook'. injection Hlook' as <-.
  assert (Hst := token_store_ops baseUrl jwt_sign env req st).
  cbv zeta in Hops, Hresp.
  eexists _, _. split; [|split; [|split]].
  - unfold FlowHelpers.exchangeCodeForTokens.
    change (truthy None) with false. cbv iota. fold verifier. fold req.
    rewrite Hresp. cbn. reflexivity.
  - reflexivity.
  - rewrite Hst, Hops. hred. apply lookup_delete_eq.
  - rewrite Hst, Hops. hred. rewrite lookup_insert_eq. reflexivity.
Qed.

(** * The Privy middleware and the fake Privy client *)

(** *** [startsWith] and [substring] *)

Lemma prefix_append (p h : string) :
  String.prefix p h = true <-> exists t, h = p +:+ t.
Proof.
  revert h. induction p as [|a p IH]; intros h.
  - split; [intros _; exists h; reflexivity|].
    intros _. destruct h; reflexivity.
  - destruct h as [|b h]; cbn [String.prefix].
    + split; [discriminate|]. intros (t & Ht). discriminate.
    + destruct (ascii_dec a b) as [->|Hne].
      * rewrite IH. split; intros (t & Ht); exists t.
        -- rewrite append_cons, Ht. reflexivity.
        -- rewrite append_cons in Ht. injection Ht as Ht. exact Ht.
      * split; [discriminate|]. intros (t & Ht).
        rewrite append_cons in Ht. injection Ht as Ht _. congruence.
Qed.

Lemma substring_all (s : string) : String.substring 0 (String.length s) s = s.
Proof.
  induction s as [|c s IH]; [reflexivity|].
  cbn [String.length String.substring]. rewrite IH. reflexivity.
Qed.

Lemma substring_after (p t : string) :
  String.substring (String.length p)
    (String.length (p +:+ t) - String.length p) (p +:+ t) = t.
Proof.
  rewrite append_length.
  replace (String.length p + String.length t - String.length p)%nat
    with (String.length t) by lia.
  induction p as [|c p IH].
  - rewrite append_empty. apply substring_all.
  - rewrite append_cons. cbn [String.length String.substring]. exact IH.
Qed.

(** The token that the middleware takes from a header that starts with
    the scheme. *)
Lemma bearer_token (t : string) :
  String.substring 7 (String.length ("Bearer " +:+ t) - 7) ("Bearer " +:+ t)
  = t.
Proof. exact (substring_after "Bearer " t). Qed.

Lemma truthy_bearer (t : string) : truthy (Some ("Bearer " +:+ t)) = true.
Proof. reflexivity. Qed.

(** The middleware on a header that carries a bearer token. *)
Lemma verifyPrivyToken_bearer verifyAuthToken (t : string) :
  verifyPrivyToken verifyAuthToken (Some ("Bearer " +:+ t)) =
  match verifyAuthToken t with
  | inr None =>
      Sent {| status := 401;
              body := ErrorBody "invalid_token" "Invalid Privy token" |}
  | inr (Some claims) =>
      if negb (json_truthy (claims !! "userId")) then
        Sent {| status := 401;
                body := ErrorBody "invalid_token" "Invalid Privy token" |}
      else
        Next {| pu_userId := claims !! "userId";
                pu_appId := claims !! "appId" |}
  | inl error =>
      Sent {| status := 401;
              body := ErrorBody "invalid_token"
                        "Failed to verify Privy token" |}
  end.
Proof.
  unfold verifyPrivyToken.
  rewrite truthy_bearer.
  change (str (Some ("Bearer " +:+ t))) with ("Bearer " +:+ t).
  assert (Hp : String.prefix "Bearer " ("Bearer " +:+ t) = true)
    by (apply prefix_append; exists t; reflexivity).
  rewrite Hp, bearer_token. reflexivity.
Qed.

Lemma verifyPrivyToken_no_bearer verifyAuthToken (authHeader : option string) :
  (forall t, authHeader <> Some ("Bearer " +:+ t)) ->
  verifyPrivyToken verifyAuthToken authHeader =
  Sent {| status := 401;
          body := ErrorBody "unauthorized"
                    "Missing or invalid Authorization header" |}.
Proof.
  intros Hno. unfold verifyPrivyToken.
  destruct (truthy authHeader) eqn:Ht; [|reflexivity].
  destruct (String.prefix "Bearer " (str authHeader)) eqn:Hp; [|reflexivity].
  exfalso. apply prefix_append in Hp as (t & Hp).
  destruct authHeader as [h|]; [|discriminate].
  apply (Hno t). f_equal. exact Hp.
Qed.

Lemma bearer_or_not (authHeader : option string) :
  (exists t, authHeader = Some ("Bearer " +:+ t)) \/
  (forall t, authHeader <> Some ("Bearer " +:+ t)).
Proof.
  destruct authHeader as [h|]; [|right; intros t; discriminate].
  destruct (String.prefix "Bearer " h) eqn:Hp.
  - left. apply prefix_append in Hp as (t & ->). exists t. reflexivity.
  - right. intros t E. injection E as ->.
    assert (String.prefix "Bearer " ("Bearer " +:+ t) = true)
      by (apply prefix_append; exists t; reflexivity).
    congruence.
Qed.

(** X16.  The middleware lets a request through exactly when its
    Authorization header is [Bearer ] followed by a token for which the
    Privy client returns claims with a truthy user id; the token handed
    to the client is the header without its first seven characters, and
    the user attached to the request has the user id and the app id of
    the claims. *)
Theorem X16_privy_middleware_passes
    (verifyAuthToken : string -> Thrown + option Claims)
    (authHeader : option string) (privyUser : PrivyUser) :
  verifyPrivyToken verifyAuthToken authHeader = Next privyUser <->
  exists token claims,
    authHeader = Some ("Bearer " +:+ token) /\
    verifyAuthToken token = inr (Some claims) /\
    json_truthy (claims !! "userId") = true /\
    privyUser = {| pu_userId := claims !! "userId";
                   pu_appId := claims !! "appId" |}.
Proof.
  split.
  - destruct (bearer_or_not authHeader) as [(t & ->)|Hno].
    + rewrite verifyPrivyToken_bearer.
      destruct (verifyAuthToken t) as [e|[claims|]] eqn:Hv; try discriminate.
      destruct (json_truthy (claims !! "userId")) eqn:Hu; [|discriminate].
      cbn [negb]. intros E. injection E as <-.
      exists t, claims. repeat split; assumption.
    + rewrite (verifyPrivyToken_no_bearer _ _ Hno). discriminate.
  - intros (t & claims & -> & Hv & Hu & ->).
    rewrite verifyPrivyToken_bearer, Hv, Hu. reflexivity.
Qed.

(** X17.  Every refusal of the middleware is a 401.  Without a header
    that starts with [Bearer ] (none, an empty one, another scheme or
    another case) the error is unauthorized and the Privy client is not
    consulted; with one, the error is invalid_token, 'Failed to verify
    Privy token' when the client throws and 'Invalid Privy token' when
    it returns nothing or claims without a user id. *)
Theorem X17_privy_middleware_refuses
    (verifyAuthToken : string -> Thrown + option Claims)
    (authHeader : option string) (res : Response) :
  verifyPrivyToken verifyAuthToken authHeader = Sent res ->
  status res = 401 /\
  ((forall t, authHeader <> Some ("Bearer " +:+ t)) ->
   body res = ErrorBody "unauthorized"
                "Missing or invalid Authorization header" /\
   forall otherClient,
     verifyPrivyToken otherClient authHeader = Sent res) /\
  (forall t, authHeader = Some ("Bearer " +:+ t) ->
   match verifyAuthToken t with
   | inl error =>
       body res = ErrorBody "invalid_token" "Failed to verify Privy token"
   | inr None =>
       body res = ErrorBody "invalid_token" "Invalid Privy token"
   | inr (Some claims) =>
       json_truthy (claims !! "userId") = false /\
       body res = ErrorBody "invalid_token" "Invalid Privy token"
   end).
Proof.
  destruct (bearer_or_not authHeader) as [(t & ->)|Hno].
  - rewrite verifyPrivyToken_bearer. intros H.
    assert (Hinj : forall t', Some ("Bearer " +:+ t) = Some ("Bearer " +:+ t')
                              -> t' = t).
    { intros t' E. injection E as E. symmetry. exact E. }
    destruct (verifyAuthToken t) as [e|[claims|]] eqn:Hv.
    + injection H as <-. split; [reflexivity|]. split.
      * intros Hno. destruct (Hno t eq_refl).
      * intros t' E. rewrite (Hinj t' E), Hv. reflexivity.
    + destruct (json_truthy (claims !! "userId")) eqn:Hu; [discriminate|].
      injection H as <-. split; [reflexivity|]. split.
      * intros Hno. destruct (Hno t eq_refl).
      * intros t' E. rewrite (Hinj t' E), Hv. split; [exact Hu|reflexivity].
    + injection H as <-. split; [reflexivity|]. split.
      * intros Hno. destruct (Hno t eq_refl).
      * intros t' E. rewrite (Hinj t' E), Hv. reflexivity.
  - rewrite (verifyPrivyToken_no_bearer _ _ Hno). intros H. injection H as <-.
    split; [reflexivity|]. split.
    + intros _. split; [reflexivity|].
      intros otherClient. apply verifyPrivyToken_no_bearer, Hno.
    + intros t E. destruct (Hno t E).
Qed.

(** *** The fake Privy client *)

Lemma union_lookup (m1 m2 : gmap string Json) (k : string) :
  (m1 ∪ m2) !! k =
  match m1 !! k with
  | Some v => Some v
  | None => m2 !! k
  end.
Proof.
  destruct (m1 !! k) as [v|] eqn:E.
  - apply lookup_union_Some_l. exact E.
  - apply lookup_union_r. exact E.
Qed.

(** X18.  The fake client returns claims for a token exactly when no
    outage is switched on, the token is not registered as invalid and
    it is registered as valid.  The claims are the user id and the app
    id of the registered user, unless the user's own claims have a
    member of that name, which then replaces it.  Otherwise it throws:
    the error of the outage if one is on; if not, 'Invalid Privy token'
    for a token registered as invalid, also when it is registered as
    valid; if not, 'Token not found or expired'. *)
Theorem X18_fake_client_accepts (fp : FakePrivy) (token : string) :
  (forall result : option Claims,
     fakeVerifyAuthToken fp token = inr result <->
     shouldFailAll fp = false /\
     (token ∉ invalidTokens fp) /\
     exists user claims,
       validTokens fp !! token = Some user /\
       result = Some claims /\
       claims !! "userId" =
         Some (default (JString (fpu_userId user))
                 (default ∅ (fpu_claims user) !! "userId")) /\
       claims !! "appId" =
         Some (default (JString (fpu_appId user))
                 (default ∅ (fpu_claims user) !! "appId")) /\
       forall k : string, k <> "userId" -> k <> "appId" ->
         claims !! k = default ∅ (fpu_claims user) !! k) /\
  (forall error : Thrown,
     fakeVerifyAuthToken fp token = inl error <->
     (shouldFailAll fp = true /\
      error = ThrownError
                (default "Privy service unavailable" (failureError fp))) \/
     (shouldFailAll fp = false /\ token ∈ invalidTokens fp /\
      error = ThrownError "Invalid Privy token") \/
     (shouldFailAll fp = false /\ (token ∉ invalidTokens fp) /\
      validTokens fp !! token = None /\
      error = ThrownError "Token not found or expired")).
Proof.
  unfold fakeVerifyAuthToken, Claims in *. split.
  - intros result. split.
    + destruct (shouldFailAll fp); [discriminate|].
      destruct (bool_decide_reflect (token ∈ invalidTokens fp)) as [Hin|Hin];
        [discriminate|].
      destruct (validTokens fp !! token) as [user|] eqn:Hv; [|discriminate].
      intros E. injection E as <-.
      split; [reflexivity|]. split; [exact Hin|].
      eexists user, _. split; [reflexivity|]. split; [reflexivity|].
      split; [|split].
      * rewrite union_lookup.
        destruct (default ∅ (fpu_claims user) !! "userId"); reflexivity.
      * rewrite union_lookup.
        destruct (default ∅ (fpu_claims user) !! "appId"); reflexivity.
      * intros k H1 H2. rewrite union_lookup.
        destruct (default ∅ (fpu_claims user) !! k) eqn:E; [reflexivity|].
        rewrite lookup_insert_ne by congruence.
        rewrite lookup_singleton_ne by congruence. reflexivity.
    + intros (Hf & Hin & user & claims & Hv & -> & Hu & Ha & Hk).
      rewrite Hf.
      destruct (bool_decide_reflect (token ∈ invalidTokens fp)) as [Hin'|_];
        [contradiction|].
      rewrite Hv. do 2 f_equal. apply map_eq. intros k.
      rewrite union_lookup.
      destruct (decide (k = "userId")) as [->|H1].
      { rewrite Hu.
        destruct (default ∅ (fpu_claims user) !! "userId"); reflexivity. }
      destruct (decide (k = "appId")) as [->|H2].
      { rewrite Ha.
        destruct (default ∅ (fpu_claims user) !! "appId"); reflexivity. }
      rewrite (Hk k H1 H2).
      destruct (default ∅ (fpu_claims user) !! k) eqn:E; [reflexivity|].
      rewrite lookup_insert_ne by congruence.
      rewrite lookup_singleton_ne by congruence. reflexivity.
  - intros error.
    destruct (shouldFailAll fp).
    { split.
      - intros E. injection E as <-. left. split; reflexivity.
      - intros [(_ & ->)|[(Hf & _)|(Hf & _)]];
          [reflexivity|discriminate|discriminate]. }
    destruct (bool_decide_reflect (token ∈ invalidTokens fp)) as [Hin|Hin].
    { split.
      - intros E. injection E as <-. right. left. repeat split. exact Hin.
      - intros [(Hf & _)|[(_ & _ & ->)|(_ & Hn & _)]];
          [discriminate|reflexivity|contradiction]. }
    destruct (validTokens fp !! token) as [user|] eqn:Hv.
    { split; [discriminate|].
      intros [(Hf & _)|[(_ & Hi & _)|(_ & _ & Hnone & _)]];
        [discriminate|contradiction|discriminate]. }
    split.
    + intros E. injection E as <-. right. right. repeat split. exact Hin.
    + intros [(Hf & _)|[(_ & Hi & _)|(_ & _ & _ & ->)]];
        [discriminate|contradiction|reflexivity].
Qed.

Lemma fakePrivy_call_blocked (c : FakePrivyCall) (fp : FakePrivy)
    (token : string) :
  is_reset c = false ->
  token ∈ invalidTokens fp \/ shouldFailAll fp = true ->
  token ∈ invalidTokens (fakePrivy_call c fp) \/
  shouldFailAll (fakePrivy_call c fp) = true.
Proof.
  intros Hc [Hin|Hf]; destruct c; try discriminate;
    cbn [fakePrivy_call registerValidToken registerInvalidToken
         setAllVerificationsToFail setupTestUser fst
         invalidTokens shouldFailAll];
    first [right; reflexivity | right; exact Hf | left; exact Hin
          | left; apply elem_of_union_r; exact Hin].
Qed.

(** X19.  What has been switched off stays off until the reset.  A
    token registered as invalid, or any token while an outage is
    switched on, is refused by the fake client after any further calls
    that register valid or invalid tokens, set up test users or switch
    an outage on; only [resetFakePrivy] ends it, after which every
    token is unknown. *)
Theorem X19_fake_client_refuses_until_reset (calls : list FakePrivyCall)
    (fp : FakePrivy) (token : string) :
  forallb (fun c => negb (is_reset c)) calls = true ->
  token ∈ invalidTokens fp \/ shouldFailAll fp = true ->
  (exists error,
     fakeVerifyAuthToken (fakePrivy_calls calls fp) token = inl error) /\
  forall anyToken,
    fakeVerifyAuthToken (resetFakePrivy (fakePrivy_calls calls fp)) anyToken
    = inl (ThrownError "Token not found or expired").
Proof.
  intros Hcalls Hoff. split.
  - assert (H : token ∈ invalidTokens (fakePrivy_calls calls fp) \/
                shouldFailAll (fakePrivy_calls calls fp) = true).
    { revert fp Hoff. induction calls as [|c calls IH]; intros fp Hoff;
        [exact Hoff|].
      cbn [forallb] in Hcalls. apply andb_prop in Hcalls as (Hc & Hcalls).
      apply negb_true_iff in Hc.
      cbn [fakePrivy_calls fold_left]. apply (IH Hcalls).
      apply fakePrivy_call_blocked; assumption. }
    unfold fakeVerifyAuthToken.
    destruct (shouldFailAll (fakePrivy_calls calls fp)) eqn:Hf;
      [eexists; reflexivity|].
    destruct H as [Hin|Hx]; [|discriminate].
    destruct (bool_decide_reflect
                (token ∈ invalidTokens (fakePrivy_calls calls fp)))
      as [_|Hn]; [eexists; reflexivity|contradiction].
  - intros anyToken. unfold fakeVerifyAuthToken, resetFakePrivy.
    cbn [shouldFailAll invalidTokens validTokens].
    destruct (bool_decide_reflect (anyToken ∈ (∅ : gset string)))
      as [Hin|_]; [destruct (not_elem_of_empty _ Hin)|].
    rewrite lookup_empty. reflexivity.
Qed.

(** Registering a valid token: the token verifies with the claims of
    its user, the other tokens verify as before. *)
Lemma fakeVerify_registered (token : string) (user : FakePrivyUser)
    (fp : FakePrivy) :
  shouldFailAll fp = false ->
  token ∉ invalidTokens fp ->
  fakeVerifyAuthToken (registerValidToken token user fp) token =
  inr (Some (default ∅ (fpu_claims user)
             ∪ {[ "userId" := JString (fpu_userId user);
                  "appId" := JString (fpu_appId user) ]})).
Proof.
  intros Hf Hin. unfold fakeVerifyAuthToken.
  cbn [registerValidToken shouldFailAll invalidTokens validTokens].
  rewrite Hf.
  destruct (bool_decide_reflect (token ∈ invalidTokens fp)) as [Hin'|_];
    [contradiction|].
  rewrite lookup_insert_eq. reflexivity.
Qed.

Lemma fakeVerify_other (token : string) (user : FakePrivyUser)
    (fp : FakePrivy) (other : string) :
  other <> token ->
  fakeVerifyAuthToken (registerValidToken token user fp) other =
  fakeVerifyAuthToken fp other.
Proof.
  intros Hne. unfold fakeVerifyAuthToken.
  cbn [registerValidToken shouldFailAll invalidTokens validTokens].
  rewrite lookup_insert_ne by congruence. reflexivity.
Qed.

(** X20.  A test user that has been set up passes the middleware.
    After [setupTestUser], with no outage switched on and the new
    token not registered as invalid, a request with the header
    [Bearer ] and the returned token is let through by the middleware
    run on the fake client, with the user id given (or the default one)
    and the app id [test-app-id]; with an empty user id it is refused
    with invalid_token.  The other tokens verify as before. *)
Theorem X20_test_user_passes (clock nonce : string) (userId : option string)
    (fp : FakePrivy) :
  let fp' := (setupTestUser clock nonce userId fp).1 in
  let token := (setupTestUser clock nonce userId fp).2.1.1 in
  let uid := (setupTestUser clock nonce userId fp).2.1.2 in
  shouldFailAll fp = false ->
  token ∉ invalidTokens fp ->
  token = "test-privy-token-" +:+ clock +:+ "-" +:+ nonce /\
  uid = default "did:privy:test-user-123" userId /\
  (uid <> "" ->
   verifyPrivyToken (fakeVerifyAuthToken fp') (Some ("Bearer " +:+ token)) =
     Next {| pu_userId := Some (JString uid);
             pu_appId := Some (JString "test-app-id") |}) /\
  (uid = "" ->
   verifyPrivyToken (fakeVerifyAuthToken fp') (Some ("Bearer " +:+ token)) =
     Sent {| status := 401;
             body := ErrorBody "invalid_token" "Invalid Privy token" |}) /\
  (forall other, other <> token ->
     fakeVerifyAuthToken fp' other = fakeVerifyAuthToken fp other).
Proof.
  intros fp' token uid Hf Hin.
  split; [reflexivity|]. split; [reflexivity|].
  assert (Hv : fakeVerifyAuthToken fp' token =
               inr (Some ({[ "userId" := JString uid;
                             "appId" := JString "test-app-id" ]}
                          : gmap string Json))).
  { subst fp'. cbn [setupTestUser fst].
    rewrite (fakeVerify_registered _ _ _ Hf Hin).
    cbn [fpu_claims default fpu_userId fpu_appId].
    rewrite (left_id_L ∅ (∪)). reflexivity. }
  split; [|split].
  - intros Hu. rewrite verifyPrivyToken_bearer, Hv. unfold Claims.
    rewrite lookup_insert_eq. cbn [json_truthy].
    destruct (String.eqb_spec uid ""); [contradiction|]. cbn [negb].
    rewrite lookup_insert_ne by discriminate.
    rewrite lookup_singleton_eq. reflexivity.
  - intros Hu. rewrite verifyPrivyToken_bearer, Hv. unfold Claims.
    rewrite lookup_insert_eq. cbn [json_truthy]. rewrite Hu. reflexivity.
  - intros other Hne. subst fp'. cbn [setupTestUser fst].
    apply fakeVerify_other. exact Hne.
Qed.

(** * The MCP request handler *)

(** X21.  [handleMCPRequest] answers every request and lets no
    exception out.  It returns a result exactly when a handler is
    registered for the method and that handler returns; the handler
    receives the method and, only if the request has them, the params;
    the id of a result is the id of the request, or [null] without
    one.  Every other request (no method, a method without handler, a
    handler that throws) gets an error of code -32603 with the id as it
    came; for a method without handler the message names the method. *)
Theorem X21_mcp_request_answered (Extra : Type)
    (requestHandlers : gmap string (RequestHandler Extra))
    (request : McpRequest) (extra : Extra) :
  let response := handleMCPRequest Extra requestHandlers request extra in
  (forall result id,
     response = McpResult result id <->
     exists method handler,
       mcp_method request = Some method /\
       requestHandlers !! method = Some handler /\
       handler {| nr_method := method; nr_params := mcp_params request |}
         extra = inr result /\
       id = default JNull (mcp_id request)) /\
  (forall code message id,
     response = McpError code message id ->
     code = -32603 /\ id = mcp_id request) /\
  (mcp_method request ≫= (fun method => requestHandlers !! method) = None ->
   response =
     McpError (-32603)
       ("Unknown method: " +:+ default "undefined" (mcp_method request))
       (mcp_id request)).
Proof.
  intros response. subst response. unfold handleMCPRequest.
  destruct (mcp_method request) as [method|]; cbn [mbind option_bind default].
  - destruct (requestHandlers !! method) as [handler|] eqn:Hh.
    + destruct (handler {| nr_method := method;
                           nr_params := mcp_params request |} extra)
        as [error|result] eqn:Hr.
      * split; [|split].
        -- intros result id. split; [discriminate|].
           intros (m & h & Hm & Hh' & Hr' & _).
           injection Hm as <-. rewrite Hh in Hh'. injection Hh' as <-.
           rewrite Hr in Hr'. discriminate.
        -- intros code message id E. injection E as <- _ <-. split; reflexivity.
        -- discriminate.
      * split; [|split].
        -- intros result' id. split.
           ++ intros E. injection E as <- <-.
              exists method, handler. repeat split; assumption.
           ++ intros (m & h & Hm & Hh' & Hr' & ->).
              injection Hm as <-. rewrite Hh in Hh'. injection Hh' as <-.
              rewrite Hr in Hr'. injection Hr' as <-. reflexivity.
        -- discriminate.
        -- discriminate.
    + split; [|split].
      * intros result id. split; [discriminate|].
        intros (m & h & Hm & Hh' & _).
        injection Hm as <-. rewrite Hh in Hh'. discriminate.
      * intros code message id E. injection E as <- _ <-. split; reflexivity.
      * reflexivity.
  - split; [|split].
    + intros result id. split; [discriminate|].
      intros (m & h & Hm & _). discriminate.
    + intros code message id E. injection E as <- _ <-. split; reflexivity.
    + reflexivity.
Qed.

(** * The configuration *)

Lemma find_first {A} (f : A -> bool) (l : list A) (x : A) :
  find f l = Some x <->
  exists before after,
    l = before ++ x :: after /\
    Forall (fun y => f y = false) before /\ f x = true.
Proof.
  induction l as [|a l IH]; cbn [find].
  - split; [discriminate|].
    intros (before & after & E & _). destruct before; discriminate.
  - destruct (f a) eqn:Ha.
    + split.
      * intros E. injection E as <-. exists [], l.
        repeat split; [apply List.Forall_nil|exact Ha].
      * intros ([|b before] & after & E & Hb & Hx).
        -- injection E as <- _. reflexivity.
        -- injection E as <- _. inversion Hb; congruence.
    + rewrite IH. split.
      * intros (before & after & -> & Hb & Hx). exists (a :: before), after.
        repeat split; [apply List.Forall_cons; assumption|exact Hx].
      * intros ([|b before] & after & E & Hb & Hx).
        -- injection E as <- _. congruence.
        -- injection E as <- ->. exists before, after.
           inversion Hb. repeat split; assumption.
Qed.

Lemma find_none_all {A} (f : A -> bool) (l : list A) :
  find f l = None <-> Forall (fun y => f y = false) l.
Proof.
  induction l as [|a l IH]; cbn [find].
  - split; [intros _; apply List.Forall_nil|reflexivity].
  - destruct (f a) eqn:Ha.
    + split; [discriminate|]. intros H. inversion H; congruence.
    + rewrite IH. split.
      * intros H. apply List.Forall_cons; assumption.
      * intros H. inversion H; assumption.
Qed.

(** X22.  The configuration loads exactly when each of the six required
    variables is set and not empty; otherwise loading throws, and the
    error names the first of them, in the order of the list, that is
    unset or empty.  In a loaded configuration the issuer of the tokens
    is the base URL, which is not empty, and the endpoints are under
    it; the environment is production or development or neither, never
    both, and development when NODE_ENV is unset or empty. *)
Theorem X22_config_required_variables (process_env : gmap string string) :
  (forall message,
     loadConfig process_env = inl message <->
     exists before envVar after,
       requiredEnvVars = before ++ envVar :: after /\
       Forall (fun v => truthy (process_env !! v) = true) before /\
       truthy (process_env !! envVar) = false /\
       message = "Missing required environment variable: " +:+ envVar) /\
  ((exists config, loadConfig process_env = inr config) <->
   Forall (fun v => truthy (process_env !! v) = true) requiredEnvVars) /\
  (forall config,
     loadConfig process_env = inr config ->
     process_env !! "SERVER_BASE_URL" = Some (server_baseUrl config) /\
     server_baseUrl config <> "" /\
     jwt_issuer config = server_baseUrl config /\
     jwt_expiresIn config = config_jwt_expiresIn /\
     oauth_tokenEndpoint config = server_baseUrl config +:+ "/token" /\
     (isProduction config && isDevelopment config = false) /\
     (truthy (process_env !! "NODE_ENV") = false ->
      isDevelopment config = true)).
Proof.
  unfold loadConfig.
  destruct (find (fun envVar => negb (truthy (process_env !! envVar)))
              requiredEnvVars) as [envVar|] eqn:Hfind.
  - apply find_first in Hfind as (before & after & Hreq & Hb & Hx).
    apply negb_true_iff in Hx.
    assert (Hb' : Forall (fun v => truthy (process_env !! v) = true) before).
    { eapply Forall_impl; [exact Hb|]. intros v Hv.
      apply negb_false_iff in Hv. exact Hv. }
    split; [|split].
    + intros message. split.
      * intros E. injection E as <-. exists before, envVar, after.
        repeat split; assumption.
      * intros (before' & envVar' & after' & Hreq' & Hb'' & Hx' & ->).
        assert (E : find (fun envVar => negb (truthy (process_env !! envVar)))
                      requiredEnvVars = Some envVar').
        { apply find_first. exists before', after'. repeat split.
          - exact Hreq'.
          - eapply Forall_impl; [exact Hb''|]. intros v Hv.
            rewrite Hv. reflexivity.
          - rewrite Hx'. reflexivity. }
        assert (E' : find (fun envVar => negb (truthy (process_env !! envVar)))
                       requiredEnvVars = Some envVar).
        { apply find_first. exists before, after. repeat split.
          - exact Hreq.
          - exact Hb.
          - rewrite Hx. reflexivity. }
        rewrite E in E'. injection E' as ->. reflexivity.
    + split.
      * intros (config & E). discriminate.
      * intros Hall. exfalso. rewrite Hreq in Hall.
        apply Forall_app in Hall as (_ & Hall).
        inversion Hall as [|? ? Hv _]. congruence.
    + intros config E. discriminate.
  - apply find_none_all in Hfind.
    assert (Hall : Forall (fun v => truthy (process_env !! v) = true)
                     requiredEnvVars).
    { eapply Forall_impl; [exact Hfind|]. intros v Hv.
      apply negb_false_iff in Hv. exact Hv. }
    split; [|split].
    + intros message. split; [discriminate|].
      intros (before & envVar & after & Hreq & _ & Hx & _). exfalso.
      rewrite Hreq in Hall. apply Forall_app in Hall as (_ & Hall).
      inversion Hall as [|? ? Hv _]. congruence.
    + split; [intros _; exact Hall|]. intros _. eexists. reflexivity.
    + intros config E. injection E as <-.
      assert (Hbase : truthy (process_env !! "SERVER_BASE_URL") = true).
      { apply (proj1 (List.Forall_forall _ _) Hall).
        cbn. tauto. }
      cbn [server_baseUrl jwt_issuer jwt_expiresIn oauth_tokenEndpoint].
      destruct (process_env !! "SERVER_BASE_URL") as [base|] eqn:Eb;
        [|discriminate].
      change (str (Some base)) with base.
      split; [reflexivity|]. split.
      { intros ->. discriminate. }
      do 3 (split; [reflexivity|]).
      unfold isProduction, isDevelopment. cbn [server_nodeEnv].
      split.
      * destruct (truthy (process_env !! "NODE_ENV")); [|reflexivity].
        destruct (String.eqb_spec (str (process_env !! "NODE_ENV"))
                    "production") as [->|]; reflexivity.
      * intros ->. reflexivity.
Qed.

(** * The properties on the sample deployment *)

Module SampleRun.
Import Sample.

Example sha256_abc :
  Sha256.hex (Sha256.sha256 "abc") =
  "ba7816bf8f01cfea414140de5dae2223b00361a396177a9cb410ff61f20015ad".
Proof. vm_compute. reflexivity. Qed.

Example sha256_empty :
  Sha256.hex (Sha256.sha256 "") =
  "e3b0c44298fc1c149afbf4c8996fb92427ae41e4649b934ca495991b7852b855".
Proof. vm_compute. reflexivity. Qed.

Example sha256_two_blocks :
  Sha256.hex (Sha256.sha256
    "abcdbcdecdefdefgefghfghighijhijkijkljklmklmnlmnomnopnopq") =
  "248d6a61d20638b8e5c026930c3e6039a33ce45964ff2167f6ecedd419db06c1".
Proof. vm_compute. reflexivity. Qed.

(** Messages of 55 and 64 bytes: the longest that is padded to one
    block, and one full block of data. *)
Example sha256_55_bytes :
  Sha256.hex (Sha256.sha256
    "aaaaaaaaaaaaaaaaaaaaaaaaaaaaaaaaaaaaaaaaaaaaaaaaaaaaaaa") =
  "9f4390f8d30c2dd92ec9f095b65e2b9ae9b0a925a5258e241c9f1e910f734318".
Proof. vm_compute. reflexivity. Qed.

Example sha256_64_bytes :
  Sha256.hex (Sha256.sha256
    "aaaaaaaaaaaaaaaaaaaaaaaaaaaaaaaaaaaaaaaaaaaaaaaaaaaaaaaaaaaaaaaa") =
  "ffe054fe7ae0cb6dc65c3af9b61d5209f439851db43d0ba5997337df154668eb".
Proof. vm_compute. reflexivity. Qed.

Example sha256_constants :
  length Sha256.K = 64%nat /\
  hd 0 Sha256.K = 0x428a2f98 /\ last Sha256.K = Some 0xc67178f2 /\
  Sha256.ha Sha256.H0 = 0x6a09e667 /\ Sha256.hh Sha256.H0 = 0x5be0cd19.
Proof. vm_compute. repeat split. Qed.

Example rfc7636_challenge : generateCodeChallenge verifier = challenge.
Proof. vm_compute. reflexivity. Qed.

Example rfc7636_verifier : is_verifier verifier.
Proof.
  apply (words_elem url_chars (list_ascii_of_string verifier)).
  apply (bool_decide_unpack _). vm_compute. exact I.
Qed.

Example join_scopes :
  join " " ["read"; "write"; "profile"] = "read write profile".
Proof. reflexivity. Qed.

Example redeem_response :
  out_response (tokenEndpoint baseUrl sign env1 redeem store0) =
  json (TokenBody accessToken1 "refresh-1" "Bearer" 3600
          "read privy:token:exchange").
Proof. vm_compute. reflexivity. Qed.

Example refresh_response :
  out_response (tokenEndpoint baseUrl sign env2 refresh store1) =
  json (TokenBody
          "did:privy:user-1|read privy:token:exchange|https://mcp.example|chatgpt-connector|00000000000007d0"
          "refresh-2" "Bearer" 3600 "read privy:token:exchange").
Proof. vm_compute. reflexivity. Qed.

(** The code redeemed at [env1] is refused afterwards, here after an
    introspection and a Privy token exchange. *)
Lemma C1_witness :
  fails_with "invalid_grant"
    (out_response
       (tokenEndpoint baseUrl sign env2 redeem
          (serve_all baseUrl sign verify
             [CallIntrospect (Some accessToken1) 1500000;
              CallPrivyAccessToken (Some accessToken1)]
             store1))).
Proof.
  destruct (C1_code_single_use baseUrl sign verify env1 redeem store0 "code-1"
              [CallIntrospect (Some accessToken1) 1500000;
               CallPrivyAccessToken (Some accessToken1)]
              env2 redeem) as (H & _).
  - repeat split. discriminate.
  - vm_compute. reflexivity.
  - destruct H as (H & _); [repeat split; discriminate|]. exact H.
Defined.

(** The redemption of the sample code succeeds and goes through the
    stores in which the [used] flag of the code reads false, then is
    absent: it is never seen set. *)
Lemma C2_used_flag_is_never_set :
  success (out_response (tokenEndpoint baseUrl sign env1 redeem store0))
    = true /\
  map (used_flag "code-1")
    (history store0 (out_ops (tokenEndpoint baseUrl sign env1 redeem store0)))
    = [Some false; None; None; None] /\
  ~ marked_used_and_deleted "code-1" store0
      (out_ops (tokenEndpoint baseUrl sign env1 redeem store0)).
Proof.
  assert (Hflags :
    map (used_flag "code-1")
      (history store0 (out_ops (tokenEndpoint baseUrl sign env1 redeem store0)))
    = [Some false; None; None; None]) by (vm_compute; reflexivity).
  split; [vm_compute; reflexivity|]. split; [exact Hflags|].
  intros (_ & Hin & _). rewrite Hflags in Hin.
  destruct Hin as [|[|[|[|[]]]]]; discriminate.
Qed.

Lemma C2_witness :
  authorizationCodes store1 = delete "code-1" (authorizationCodes store0).
Proof.
  destruct (C2_redeem_deletes_without_marking baseUrl sign verify env1 redeem store0
              "code-1") as (_ & _ & H & _).
  - repeat split. discriminate.
  - vm_compute. reflexivity.
  - exact H.
Defined.

Lemma C3_witness :
  out_ops (tokenEndpoint baseUrl sign env_late redeem store0) =
    [OpDeleteAuthorizationCode "code-1"].
Proof.
  destruct (C3_expired_code baseUrl sign env_late redeem store0 "code-1"
              authCode) as (_ & _ & _ & _ & H & _).
  - repeat split. discriminate.
  - reflexivity.
  - reflexivity.
  - destruct H as (_ & H & _); [reflexivity|]. exact H.
Defined.

(** A code that is marked used and has expired: the redemption is
    refused, nothing is deleted, and the expired code is still in the
    store afterwards. *)
Lemma C3_used_expired_code_is_kept :
  is_redemption redeem "code-1" /\
  authorizationCodes store_used !! "code-1" = Some usedCode /\
  ac_expiresAt usedCode < now_check env_late /\
  out_response (tokenEndpoint baseUrl sign env_late redeem store_used) =
    oauth_error "invalid_grant" "Authorization code has already been used" /\
  out_ops (tokenEndpoint baseUrl sign env_late redeem store_used) = [] /\
  authorizationCodes
    (out_store (tokenEndpoint baseUrl sign env_late redeem store_used))
    !! "code-1" = Some usedCode.
Proof.
  split; [repeat split; discriminate|].
  split; [vm_compute; reflexivity|].
  split; [reflexivity|].
  split; [vm_compute; reflexivity|].
  split; vm_compute; reflexivity.
Qed.



Lemma C5_witness :
  exists privyToken,
    consumed_privyToken refresh store1 = Some privyToken /\
    td_privyToken <$>
      (tokens (out_store (tokenEndpoint baseUrl sign env2 refresh store1))
         !! "did:privy:user-1|read privy:token:exchange|https://mcp.example|chatgpt-connector|00000000000007d0")
      = Some privyToken /\
    rt_privyToken <$>
      (refreshTokens (out_store (tokenEndpoint baseUrl sign env2 refresh store1))
         !! "refresh-2")
      = Some privyToken.
Proof.
  destruct (C5_identity_token_carried baseUrl sign env2 refresh store1
              "did:privy:user-1|read privy:token:exchange|https://mcp.example|chatgpt-connector|00000000000007d0"
              "refresh-2" "Bearer" 3600 "read privy:token:exchange")
    as (p & H1 & H2 & H3 & _).
  - vm_compute. reflexivity.
  - exists p. auto.
Defined.

Lemma C6_witness :
  out_response (privyAccessTokenEndpoint (Some accessToken1) store1) =
    {| status := 200;
       body := PrivyBody "privy-token-1" 4605001 None "did:privy:user-1"
                 ["read"; "privy:token:exchange"] |}.
Proof.
  destruct (C6_identity_bridge accessToken1 store1) as (_ & _ & H & _).
  - discriminate.
  - apply (H {| td_clientId := "chatgpt-connector";
               td_privyUserId := "did:privy:user-1";
               td_privyToken := "privy-token-1";
               td_scopes := ["read"; "privy:token:exchange"];
               td_expiresAt := 4605001 |}).
    vm_compute. reflexivity.
Defined.

(** The wrong verifier of the test suite against the sample code. *)
Lemma C7_witness :
  fails_with "invalid_grant"
    (out_response
       (tokenEndpoint baseUrl sign env1 redeem_wrong_verifier store0)).
Proof.
  destruct (C7_pkce_round_trip "wrong-verifier-that-does-not-match" verifier)
    as (_ & H).
  destruct H as (_ & H).
  - vm_compute. discriminate.
  - destruct (H baseUrl sign env1 redeem_wrong_verifier store0 "code-1"
                authCode) as (Hfail & _).
    + repeat split. discriminate.
    + reflexivity.
    + reflexivity.
    + vm_compute. reflexivity.
    + exact Hfail.
Defined.

Lemma C8_witness :
  exists accessToken refreshToken scopes td rt,
    consumed_scopes redeem store0 = Some scopes /\
    out_response (tokenEndpoint baseUrl sign env1 redeem store0) =
      {| status := 200;
         body := TokenBody accessToken refreshToken "Bearer" 3600
                   (String.concat " " scopes) |} /\
    refreshTokens store1 !! refreshToken = Some rt /\
    rt_expiresAt rt = now_refresh env1 + 2592000000 /\
    rt_scopes rt = scopes /\
    tokens store1 !! accessToken = Some td /\
    td_expiresAt td = now_token env1 + 3600 * 1000 /\
    td_scopes td = scopes.
Proof.
  apply (C8_token_response_shape baseUrl sign env1 redeem store0).
  vm_compute. reflexivity.
Defined.

Lemma C9_witness :
  out_response
    (introspectEndpoint baseUrl verify (Some accessToken1) 1500000 store1) =
    {| status := 200;
       body := ActiveBody "did:privy:user-1" "read privy:token:exchange"
                 "chatgpt-connector" 4605 1005 "https://mcp.example"
                 "https://mcp.example" |} /\
  body (out_response
          (introspectEndpoint baseUrl verify (Some accessToken1) 5000000
             store1)) =
    InactiveBody.
Proof.
  split.
  - destruct (C9_introspection baseUrl verify (Some accessToken1) 1500000
                store1) as (_ & _ & H & _).
    apply (H {| jp_sub := "did:privy:user-1";
                jp_scope := "read privy:token:exchange";
                jp_aud := "https://mcp.example";
                jp_client_id := "chatgpt-connector";
                jp_iss := "https://mcp.example";
                jp_iat := 1005;
                jp_exp := 4605 |}); vm_compute; reflexivity.
  - destruct (C9_introspection baseUrl verify (Some accessToken1) 5000000
                store1) as (_ & _ & _ & H).
    apply H. intros (_ & p & Hp & _ & Hlt).
    vm_compute in Hp. injection Hp as <-. vm_compute in Hlt. discriminate.
Defined.

Lemma C10_witness :
  out_response (tokenEndpoint baseUrl sign env1 no_client store0) =
    oauth_error "invalid_request" "Missing required parameter: client_id" /\
  fails_with "unsupported_grant_type"
    (out_response (tokenEndpoint baseUrl sign env1 client_credentials store0)).
Proof.
  split.
  - destruct (C10_dispatch baseUrl sign env1 no_client store0) as (H & _).
    rewrite H; reflexivity.
  - destruct (C10_dispatch baseUrl sign env1 client_credentials store0)
      as (_ & H).
    destruct H as (Hfail & _); [reflexivity|discriminate|discriminate|].
    exact Hfail.
Defined.

End SampleRun.

(** * The further properties on the sample deployment *)

Module ScenarioRun.
Import Sample.
Import Scenario.

Example split_pieces :
  js_split "." "a.b.c" = ["a"; "b"; "c"] /\
  js_split "." "a..c." = ["a"; ""; "c"; ""] /\
  js_split "." "" = [""].
Proof. repeat split. Qed.

Example base64_text_pads :
  base64_text "e30" = "e30=" /\ base64_text "-_A" = "+/A=" /\
  base64_text "QQ" = "QQ==" /\ base64_text "QUJD" = "QUJD" /\
  base64_text "Q" = "Q===".
Proof. repeat split. Qed.

Example pkce_pair :
  generatePKCEPair randomBytes =
  ("CzBVep_E6Q4zWH2ix-wRNluApcrvFDleg6jN8hc8YYa",
   "2R9qpbkIP4XIEIolIjMW2BQS3lxNWgIVTi7rcoJDveY").
Proof. vm_compute. reflexivity. Qed.

Example stored_refresh_token : refreshTokens store1 !! "refresh-1" = Some stored1.
Proof. vm_compute. reflexivity. Qed.

Lemma sample_bytes_length n : length (randomBytes n) = n.
Proof. unfold randomBytes. rewrite List.length_map. apply List.length_seq. Qed.

Lemma sample_bytes_range n : List.Forall is_byte (randomBytes n).
Proof.
  unfold randomBytes. apply List.Forall_forall. intros b Hb.
  apply List.in_map_iff in Hb as (i & <- & _).
  apply Z.mod_pos_bound. lia.
Qed.

(** The redemption with the wrong verifier is not served: of the
    conditions of a grant, the PKCE check is the one that fails. *)
Lemma X1_witness :
  success (out_response
             (tokenEndpoint baseUrl sign env1 redeem_wrong_verifier store0))
  = false.
Proof.
  destruct (success (out_response
                       (tokenEndpoint baseUrl sign env1 redeem_wrong_verifier
                          store0))) eqn:E; [|reflexivity].
  apply (X1_redemption_succeeds_iff baseUrl sign env1 redeem_wrong_verifier
           store0 eq_refl) in E
    as (_ & _ & _ & authCode' & Hlook & _ & _ & _ & _ & Hpkce).
  vm_compute in Hlook. injection Hlook as <-.
  vm_compute in Hpkce. discriminate.
Defined.

(** The redemption after the expiry: status 400, no token stored. *)
Lemma X2_witness :
  status (out_response (tokenEndpoint baseUrl sign env_late redeem store0))
    = 400 /\
  tokens (out_store (tokenEndpoint baseUrl sign env_late redeem store0))
    = tokens store0.
Proof.
  destruct (X2_refused_request_issues_nothing baseUrl sign env_late redeem
              store0) as (H1 & _ & H2 & _).
  - vm_compute. reflexivity.
  - split; assumption.
Defined.

(** The right verifier is served after the wrong one. *)
Lemma X3_witness :
  success
    (out_response
       (tokenEndpoint baseUrl sign env1 redeem
          (out_store
             (tokenEndpoint baseUrl sign env1 redeem_wrong_verifier store0))))
  = true.
Proof.
  destruct (X3_failed_attempt_keeps_code baseUrl sign env1
              redeem_wrong_verifier store0 "code-1" authCode)
    as (_ & _ & _ & H).
  - repeat split; discriminate.
  - reflexivity.
  - reflexivity.
  - vm_compute. discriminate.
  - vm_compute. reflexivity.
  - apply (H env1 redeem).
    + repeat split; discriminate.
    + vm_compute. discriminate.
    + reflexivity.
    + intros _. reflexivity.
    + vm_compute. reflexivity.
Defined.

Lemma X4_witness :
  success (out_response (tokenEndpoint baseUrl sign env2 refresh store1))
  = true.
Proof.
  apply (X4_refresh_succeeds_iff baseUrl sign env2 refresh store1 eq_refl).
  split; [reflexivity|]. split; [reflexivity|].
  exists stored1. split; [vm_compute; reflexivity|].
  split; [reflexivity|]. vm_compute. discriminate.
Defined.


(** Another client is refused, also after the expiry, and the token
    stays. *)
Lemma X6_witness :
  tokenEndpoint baseUrl sign env_month refresh_other_client store1 =
    {| out_store := store1; out_ops := [];
       out_response :=
         oauth_error "invalid_grant" "Client mismatch for refresh_token" |}.
Proof.
  destruct (X6_refresh_token_of_another_client baseUrl sign env_month
              refresh_other_client store1 "refresh-1" stored1) as (H & _).
  - repeat split. discriminate.
  - vm_compute. reflexivity.
  - discriminate.
  - exact H.
Defined.

(** The first access token is still exchanged after a rotation of the
    refresh token and a refused redemption. *)
Lemma X7_witness :
  exists tokenData,
    out_response
      (privyAccessTokenEndpoint (Some accessToken1)
         (serve_all baseUrl sign verify
            [CallToken env2 refresh; CallToken env3 redeem] store1)) =
    {| status := 200;
       body := PrivyBody (td_privyToken tokenData) (td_expiresAt tokenData)
                 None (td_privyUserId tokenData) (td_scopes tokenData) |}.
Proof.
  destruct (X7_access_token_records_stay baseUrl sign verify
              [CallToken env2 refresh; CallToken env3 redeem] store1
              accessToken1) as (tokenData & _ & H).
  - discriminate.
  - vm_compute. eexists. reflexivity.
  - exists tokenData. exact H.
Defined.

(** The sample signer never returns the empty string. *)
Lemma sign_not_empty claims now : sign claims now <> "".
Proof.
  unfold sign. cbn [String.concat].
  destruct (jc_sub claims) as [|a s]; [|discriminate].
  change ("" +:+ ?x) with x. discriminate.
Qed.

(** The exchange of the access token of the redemption, through the
    guard. *)
Lemma X8_witness :
  exists userId privyToken scopes,
    consumed_privyUserId redeem store0 = Some userId /\
    consumed_privyToken redeem store0 = Some privyToken /\
    consumed_scopes redeem store0 = Some scopes /\
    out_response
      (privyAccessTokenGuardedEndpoint validateToken
         (Some ("Bearer " +:+ accessToken1)) store1) =
      {| status := 200;
         body := PrivyBody privyToken (now_token env1 + 3600000) None
                   userId scopes |}.
Proof.
  destruct (X8_exchange_after_grant baseUrl sign validateToken env1 redeem
              store0 (Some ("Bearer " +:+ accessToken1))
              accessToken1 "refresh-1" "Bearer" 3600
              "read privy:token:exchange")
    as (H & _).
  - vm_compute. reflexivity.
  - discriminate.
  - destruct H as (userId & privyToken & scopes & H1 & H2 & H3 & _ & _ & H4).
    + vm_compute. reflexivity.
    + exists userId, privyToken, scopes. auto.
Defined.

(** Two refresh cycles from the refresh token of the redemption. *)
Lemma X9_witness :
  exists st' accessToken refreshToken expiresAt,
    FlowHelpers.refreshCycles baseUrl sign [env2; env3]
      {| FlowHelpers.cur_accessToken := Some accessToken1;
         FlowHelpers.cur_refreshToken := Some "refresh-1" |} store1 =
      (st', inr {| FlowHelpers.cur_accessToken := Some accessToken;
                   FlowHelpers.cur_refreshToken := Some refreshToken |}) /\
    (rt_privyToken <$> (refreshTokens st' !! refreshToken)) =
      Some "privy-token-1" /\
    accessToken <> "" /\
    (validateToken ["privy:token:exchange"]
       (Some ("Bearer " +:+ accessToken)) = inr (Some accessToken) ->
     FlowHelpers.exchangeForPrivyToken validateToken (Some accessToken) st' =
       (st', inr (PrivyBody "privy-token-1" expiresAt None
                    "did:privy:user-1" ["read"; "privy:token:exchange"]))).
Proof.
  destruct (X9_refresh_cycles_keep_identity baseUrl sign validateToken
              [env2; env3] "refresh-1" stored1 (Some accessToken1) store1)
    as (st' & accessToken & refreshToken & expiresAt & H1 & H2 & H3 & H4 & _).
  - exact sign_not_empty.
  - discriminate.
  - discriminate.
  - vm_compute. reflexivity.
  - reflexivity.
  - repeat split; try discriminate; vm_compute; discriminate.
  - exists st', accessToken, refreshToken, expiresAt. auto.
Defined.

Lemma X10_witness :
  exists st' accessToken,
    FlowHelpers.exchangeCodeForTokens baseUrl sign env1 "code-2"
      (generatePKCEPair randomBytes).1 None None store2 =
      (st', inr {| FlowHelpers.ter_accessToken := Some accessToken;
                   FlowHelpers.ter_refreshToken := Some "refresh-1";
                   FlowHelpers.ter_expiresIn := Some 3600;
                   FlowHelpers.ter_scope := Some (inl "read") |}) /\
    authorizationCodes st' !! "code-2" = None.
Proof.
  destruct (X10_pkce_pair_redeems baseUrl sign randomBytes env1 "code-2"
              pkceCode store2 sample_bytes_length sample_bytes_range)
    as (st' & accessToken & H1 & _ & H2 & _).
  - discriminate.
  - vm_compute. reflexivity.
  - reflexivity.
  - vm_compute. discriminate.
  - reflexivity.
  - reflexivity.
  - reflexivity.
  - exists st', accessToken. split; assumption.
Defined.

Lemma X11_witness :
  is_verifier (generateCodeVerifier randomBytes 43) /\
  String.length (generateCodeVerifier randomBytes 128) = 128%nat.
Proof.
  split.
  - apply (X11_code_verifier_shape randomBytes sample_bytes_length
             sample_bytes_range 43).
  - apply (X11_code_verifier_shape randomBytes sample_bytes_length
             sample_bytes_range 128).
Defined.

Lemma X27_witness :
  generateState randomBytes = "0b30557a9fc4e90e33587da2c7ec1136" /\
  String.length (generateState randomBytes) = 32%nat.
Proof.
  split; [vm_compute; reflexivity|].
  apply (X27_state_shape randomBytes sample_bytes_length sample_bytes_range).
Defined.

Lemma X15_witness :
  decodeJWT utf8_of_base64 parse
    (generateFakePrivyToken randomBytes stringify 1005000 1005000
       "did:privy:user-1" None) =
  inr {| dt_header := JObject []; dt_payload := JObject [];
         dt_signature := Base64.base64UrlEncode (randomBytes 32) |}.
Proof.
  destruct (X15_fake_token_decodes randomBytes utf8_of_base64 stringify parse
              sample_bytes_range false 1005000 1005000 "did:privy:user-1" None)
    as (_ & _ & H).
  exact H.
Defined.

(** A header with the scheme in lower case is refused before the
    client is asked. *)
Lemma X17_witness :
  status
    (match verifyPrivyToken privyClient (Some "bearer privy-token-1") with
     | Sent res => res
     | Next _ => json InactiveBody
     end) = 401.
Proof.
  destruct (verifyPrivyToken privyClient (Some "bearer privy-token-1"))
    as [u|res] eqn:E; [vm_compute in E; discriminate|].
  exact (proj1 (X17_privy_middleware_refuses privyClient _ res E)).
Defined.

(** A token registered as invalid is refused also after it has been
    registered as valid. *)
Lemma X19_witness :
  exists error,
    fakeVerifyAuthToken
      (fakePrivy_calls [CallRegisterValidToken "privy-token-1" testUser]
         (registerInvalidToken "privy-token-1" fakePrivy_init))
      "privy-token-1" = inl error.
Proof.
  apply (X19_fake_client_refuses_until_reset
           [CallRegisterValidToken "privy-token-1" testUser]
           (registerInvalidToken "privy-token-1" fakePrivy_init)
           "privy-token-1").
  - reflexivity.
  - left. apply (bool_decide_unpack _). vm_compute. exact I.
Defined.

Lemma X20_witness :
  verifyPrivyToken
    (fakeVerifyAuthToken
       (setupTestUser "1700000000000" "k3j9x" None fakePrivy_init).1)
    (Some "Bearer test-privy-token-1700000000000-k3j9x") =
  Next {| pu_userId := Some (JString "did:privy:test-user-123");
          pu_appId := Some (JString "test-app-id") |}.
Proof.
  destruct (X20_test_user_passes "1700000000000" "k3j9x" None fakePrivy_init)
    as (_ & _ & H & _).
  - reflexivity.
  - apply (bool_decide_unpack _). vm_compute. exact I.
  - apply H. discriminate.
Defined.

Lemma X23_witness : holds_identity store0 "privy-token-1".
Proof.
  apply (X23_exchanged_identity_was_stored baseUrl sign verify
           [CallToken env1 redeem] store0 (Some accessToken1)
           "privy-token-1" 4605001 None "did:privy:user-1"
           ["read"; "privy:token:exchange"]).
  vm_compute. reflexivity.
Defined.

(** The examples of the properties that need no premise. *)

(** The access token of the second refresh cycle, and the store after
    the two cycles. *)
Example two_cycles_run :
  exists st',
    FlowHelpers.refreshCycles baseUrl sign [env2; env3]
      {| FlowHelpers.cur_accessToken := Some accessToken1;
         FlowHelpers.cur_refreshToken := Some "refresh-1" |} store1 =
      (st', inr {| FlowHelpers.cur_accessToken := Some "did:privy:user-1|read privy:token:exchange|https://mcp.example|chatgpt-connector|0000000000000bb8";
                   FlowHelpers.cur_refreshToken := Some "refresh-3" |}) /\
    validateToken ["privy:token:exchange"]
      (Some ("Bearer " +:+ "did:privy:user-1|read privy:token:exchange|https://mcp.example|chatgpt-connector|0000000000000bb8")) =
      inr (Some "did:privy:user-1|read privy:token:exchange|https://mcp.example|chatgpt-connector|0000000000000bb8") /\
    snd (FlowHelpers.exchangeForPrivyToken validateToken
           (Some "did:privy:user-1|read privy:token:exchange|https://mcp.example|chatgpt-connector|0000000000000bb8") st') =
      inr (PrivyBody "privy-token-1" 6600000 None "did:privy:user-1"
             ["read"; "privy:token:exchange"]).
Proof. eexists. vm_compute. repeat split. Qed.

(** The guard refuses a token without the scope of the exchange, and
    the helper throws the guard's body. *)
Example exchange_without_scope :
  FlowHelpers.exchangeForPrivyToken validateToken
    (Some "did:privy:user-1|read|https://mcp.example|chatgpt-connector|00")
    store1 =
    (store1, inl (ErrorOnly "insufficient_scope")).
Proof. vm_compute. reflexivity. Qed.

Example code_challenge_of_pair :
  String.length (generatePKCEPair randomBytes).2 = 43%nat.
Proof. vm_compute. reflexivity. Qed.

Example decode_three_pieces :
  decodeJWT utf8_of_base64 parse "e30.e30.c2ln" =
    inr {| dt_header := JObject []; dt_payload := JObject [];
           dt_signature := "c2ln" |} /\
  decodeJWT utf8_of_base64 parse "e30.e30" = inl InvalidJwtFormat /\
  decodeJWT utf8_of_base64 parse "e30.e30.c2ln." = inl InvalidJwtFormat /\
  decodeJWT utf8_of_base64 parse "e30.e3.c2ln" = inl JsonSyntaxError.
Proof. vm_compute. repeat split. Qed.

Example middleware_passes :
  verifyPrivyToken privyClient (Some "Bearer privy-token-1") =
  Next {| pu_userId := Some (JString "did:privy:user-1");
          pu_appId := Some (JString "app-1") |}.
Proof. vm_compute. reflexivity. Qed.

Example mcp_unknown_method :
  handleMCPRequest unit requestHandlers
    {| mcp_method := Some "tools/call"; mcp_params := None;
       mcp_id := Some (JNumber 7) |} tt =
  McpError (-32603) "Unknown method: tools/call" (Some (JNumber 7)).
Proof. vm_compute. reflexivity. Qed.

Example mcp_result_without_id :
  handleMCPRequest unit requestHandlers
    {| mcp_method := Some "tools/list"; mcp_params := Some (JString "x");
       mcp_id := None |} tt =
  McpResult (JString "x") JNull.
Proof. vm_compute. reflexivity. Qed.

Example config_loads :
  exists config,
    loadConfig process_env = inr config /\
    jwt_issuer config = "https://mcp.example" /\
    isDevelopment config = true.
Proof. eexists. split; [vm_compute; reflexivity|]. split; reflexivity. Qed.

Example config_missing_variable :
  loadConfig (delete "JWT_PUBLIC_KEY" (delete "SERVER_BASE_URL" process_env)) =
  inl "Missing required environment variable: SERVER_BASE_URL".
Proof. vm_compute. reflexivity. Qed.

End ScenarioRun.
